(** * ais-pull: the resumable batch filtering pipeline

    A shallow embedding of [config.py], [download_ais.py], [process_ais.py],
    [batch_process.py] and [merge_gpkg.py], and the properties of the
    pipeline proved on it.

    Python values are modelled as follows.
    - Integers are [Z]; the floating-point degrees of the LAT and LON
      columns and of the polygon vertices are the rationals they denote
      ([Q]): every finite double is a rational, and the comparisons the
      code performs agree with the rational ones.  A row of the CSV has
      its LAT, LON and VesselType cells present.
    - [str] is [string]; [datetime.date] is a record of year, month and
      day with the proleptic Gregorian ordinal arithmetic of the standard
      library.
    - The data directory, the output directory and progress.txt, the
      remote archive, the polygon source and the [lru_cache] of the
      polygon loader form an explicit [world]; every function that
      touches them is a computation in a state and exception monad over
      that world.  The three places on disk are distinct, so each has a
      store of its own; the entries of the data directory are plain
      files, which [os.remove] removes.
    - [exn] stands for instances of subclasses of [Exception], the
      exceptions the modelled operations raise.
    - Of the text printed, only the day [process_date] announces is
      kept, as the list [attempts] of the world.

    Part I holds the model, Part II its lemmas, Part III the statements
    of the specification, one theorem each, Part IV further properties
    of the code, each with the lemmas it rests on. *)

From stdpp Require Import base option list gmap strings.
From Stdlib Require Import ZArith QArith Qminmax Lqa Lia Ascii String Bool Sorted.

Local Open Scope string_scope.
Local Open Scope Z_scope.

(* ===================================================================== *)
(** * Part I: the model *)
(* ===================================================================== *)

(** ** Exceptions and results *)

Module Py.

(** The exception classes the pipeline can meet.  All of them derive
    from [Exception], so the clause [except Exception] of
    [process_date] matches each one. *)
Inductive exn : Type :=
| ValueError (msg : string)
| OverflowError (msg : string)
| ConnectionError (url : string)
| HTTPError (url : string)
| BadZipFile (path : string)
| FileNotFoundError (path : string)
| ComputeError (path : string)
| DataSourceError (path : string)
| OSError (path : string).

Inductive result (A : Type) : Type :=
| Ok (a : A)
| Raise (e : exn).
Arguments Ok {A} a.
Arguments Raise {A} e.

Definition is_ok {A} (r : result A) : bool :=
  match r with Ok _ => true | Raise _ => false end.

End Py.
Export Py.

(** ** Strings: the [str] methods the code calls *)

Module Str.

Definition digit_char (k : Z) : ascii :=
  ascii_of_nat (48 + Z.to_nat k).

(** The decimal digits of a non-negative number, most significant
    first, without leading zeros; [fuel] bounds the number of digits. *)
Fixpoint digits_aux (fuel : nat) (n : Z) (acc : string) : string :=
  match fuel with
  | O => acc
  | S fuel' =>
      let acc' := String (digit_char (n mod 10)) acc in
      if n <? 10 then acc' else digits_aux fuel' (n / 10) acc'
  end.

(** [str(n)] and the replacement field [{n}] for [n >= 0]. *)
Definition of_Z (n : Z) : string :=
  if n <? 0 then String "-" (digits_aux (S (Z.to_nat (Z.log2 (- n)))) (- n) "")
  else digits_aux (S (Z.to_nat (Z.log2 n))) n "".

Fixpoint zeros (k : nat) : string :=
  match k with O => "" | S k' => String "0" (zeros k') end.

(** The format specifier [0wd] for [n >= 0]: zero padding up to [w]. *)
Definition zfill (w : nat) (n : Z) : string :=
  let s := of_Z n in
  zeros (w - String.length s) +:+ s.

(** [str.split(sep)] for a one-character separator. *)
Fixpoint split_aux (sep : ascii) (s : string) (cur : string) : list string :=
  match s with
  | EmptyString => [cur]
  | String c s' =>
      if Ascii.eqb c sep then cur :: split_aux sep s' ""
      else split_aux sep s' (cur +:+ String c "")
  end.

Definition split (sep : ascii) (s : string) : list string :=
  split_aux sep s "".

(** [str.replace(old, new)], every occurrence, left to right. *)
Fixpoint replace_aux (fuel : nat) (old new s : string) : string :=
  match fuel with
  | O => s
  | S fuel' =>
      match s with
      | EmptyString => EmptyString
      | String c s' =>
          if String.prefix old s
          then new +:+ replace_aux fuel' old new
                        (String.substring (String.length old)
                           (String.length s - String.length old) s)
          else String c (replace_aux fuel' old new s')
      end
  end.

Definition replace (old new s : string) : string :=
  match old with
  | EmptyString => s
  | _ => replace_aux (S (String.length s)) old new s
  end.

(** The characters [str.strip()] removes, within ASCII. *)
Definition is_space (c : ascii) : bool :=
  let n := Z.of_nat (nat_of_ascii c) in
  ((9 <=? n) && (n <=? 13)) || ((28 <=? n) && (n <=? 32)).

Fixpoint lstrip (s : string) : string :=
  match s with
  | EmptyString => EmptyString
  | String c s' => if is_space c then lstrip s' else s
  end.

Fixpoint rstrip (s : string) : string :=
  match s with
  | EmptyString => EmptyString
  | String c s' =>
      match rstrip s' with
      | EmptyString => if is_space c then EmptyString else String c EmptyString
      | t => String c t
      end
  end.

Definition strip (s : string) : string := rstrip (lstrip s).

(** The part of [s] after its last occurrence of [c], or [s] itself. *)
Fixpoint after_last (c : ascii) (s : string) : string :=
  match s with
  | EmptyString => EmptyString
  | String a s' =>
      if existsb (fun b => Ascii.eqb b c) (list_ascii_of_string s')
      then after_last c s'
      else if Ascii.eqb a c then s' else s
  end.

(** The part of [s] before the first character satisfying [p]. *)
Fixpoint take_until (p : ascii -> bool) (s : string) : string :=
  match s with
  | EmptyString => EmptyString
  | String a s' => if p a then EmptyString else String a (take_until p s')
  end.

(** The part of [s] from the first character satisfying [p] on. *)
Fixpoint drop_until (p : ascii -> bool) (s : string) : string :=
  match s with
  | EmptyString => EmptyString
  | String a s' => if p a then s else drop_until p s'
  end.

(** The part of [s] after the first occurrence of [sep], if any. *)
Fixpoint after_first (fuel : nat) (sep s : string) : option string :=
  match fuel with
  | O => None
  | S fuel' =>
      if String.prefix sep s
      then Some (String.substring (String.length sep)
                   (String.length s - String.length sep) s)
      else match s with
           | EmptyString => None
           | String _ s' => after_first fuel' sep s'
           end
  end.

End Str.

(** ** Dates: [datetime.date] *)

Module Datetime.

Record date : Type := mkdate { year : Z; month : Z; day : Z }.

Definition MINYEAR : Z := 1.
Definition MAXYEAR : Z := 9999.

Definition is_leap (y : Z) : bool :=
  (y mod 4 =? 0) && (negb (y mod 100 =? 0) || (y mod 400 =? 0)).

(** Number of days before January 1st of year [y]. *)
Definition days_before_year (y : Z) : Z :=
  let y' := y - 1 in
  y' * 365 + y' / 4 - y' / 100 + y' / 400.

(** The table of month lengths of a common year. *)
Definition DAYS_IN_MONTH (m : Z) : Z :=
  match m with
  | 1 => 31 | 2 => 28 | 3 => 31 | 4 => 30 | 5 => 31 | 6 => 30
  | 7 => 31 | 8 => 31 | 9 => 30 | 10 => 31 | 11 => 30 | 12 => 31
  | _ => 0
  end.

(** The table of days before the first of each month, common year. *)
Definition DAYS_BEFORE_MONTH (m : Z) : Z :=
  match m with
  | 1 => 0 | 2 => 31 | 3 => 59 | 4 => 90 | 5 => 120 | 6 => 151
  | 7 => 181 | 8 => 212 | 9 => 243 | 10 => 273 | 11 => 304 | 12 => 334
  | _ => 0
  end.

Definition days_in_month (y m : Z) : Z :=
  if (m =? 2) && is_leap y then 29 else DAYS_IN_MONTH m.

Definition days_before_month (y m : Z) : Z :=
  DAYS_BEFORE_MONTH m + (if (2 <? m) && is_leap y then 1 else 0).

Definition ymd2ord (y m d : Z) : Z :=
  days_before_year y + days_before_month y m + d.

Definition DI400Y : Z := 146097.
Definition DI100Y : Z := 36524.
Definition DI4Y : Z := 1461.
Definition MAXORDINAL : Z := 3652059.

(** The month and day of the [n]-th day (from 0) of a year. *)
Definition month_day (leapyear : bool) (n : Z) : Z * Z :=
  let month := Z.shiftr (n + 50) 5 in
  let preceding :=
    DAYS_BEFORE_MONTH month + (if (2 <? month) && leapyear then 1 else 0) in
  if n <? preceding then
    let month' := month - 1 in
    let preceding' :=
      preceding
      - (DAYS_IN_MONTH month' + (if (month' =? 2) && leapyear then 1 else 0)) in
    (month', n - preceding' + 1)
  else (month, n - preceding + 1).

Definition ord2ymd (n : Z) : date :=
  let n := n - 1 in
  let n400 := n / DI400Y in
  let n := n mod DI400Y in
  let y := n400 * 400 + 1 in
  let n100 := n / DI100Y in
  let n := n mod DI100Y in
  let n4 := n / DI4Y in
  let n := n mod DI4Y in
  let n1 := n / 365 in
  let n := n mod 365 in
  let y := y + n100 * 100 + n4 * 4 + n1 in
  if (n1 =? 4) || (n100 =? 4) then mkdate (y - 1) 12 31
  else
    let leapyear := (n1 =? 3) && (negb (n4 =? 24) || (n100 =? 3)) in
    let md := month_day leapyear n in
    mkdate y (fst md) (snd md).

Definition toordinal (d : date) : Z := ymd2ord (year d) (month d) (day d).
Definition fromordinal (n : Z) : date := ord2ymd n.

(** The checks of the [date] constructor. *)
Definition check_date_fields (y m d : Z) : bool :=
  (MINYEAR <=? y) && (y <=? MAXYEAR) && (1 <=? m) && (m <=? 12)
  && (1 <=? d) && (d <=? days_in_month y m).

Definition valid (d : date) : Prop :=
  check_date_fields (year d) (month d) (day d) = true.

(** Comparison of dates is the comparison of (year, month, day). *)
Definition date_leb (a b : date) : bool :=
  (year a <? year b)
  || ((year a =? year b)
      && ((month a <? month b)
          || ((month a =? month b) && (day a <=? day b)))).

Definition date_le (a b : date) : Prop := date_leb a b = true.
Definition date_lt (a b : date) : Prop := date_leb b a = false.

(** [d + timedelta(days=k)]. *)
Definition add_days (d : date) (k : Z) : result date :=
  let o := toordinal d + k in
  if (0 <? o) && (o <=? MAXORDINAL) then Ok (fromordinal o)
  else Raise (OverflowError "date value out of range").

(** [d.isoformat()]: [%04d-%02d-%02d]. *)
Definition isoformat (d : date) : string :=
  Str.zfill 4 (year d) +:+ "-" +:+ Str.zfill 2 (month d) +:+ "-"
  +:+ Str.zfill 2 (day d).

Definition digit_val (c : ascii) : option Z :=
  let n := Z.of_nat (nat_of_ascii c) in
  if (48 <=? n) && (n <=? 57) then Some (n - 48) else None.

(** A run of decimal digits read as a number. *)
Fixpoint parse_digits (s : string) (acc : Z) : option Z :=
  match s with
  | EmptyString => Some acc
  | String c s' =>
      match digit_val c with
      | Some k => parse_digits s' (acc * 10 + k)
      | None => None
      end
  end.

(** [date.fromisoformat] on the extended calendar format [YYYY-MM-DD],
    the format of [START_DATE], [END_DATE] and the ledger; any other
    text is rejected with [ValueError], as is a date the constructor
    refuses. *)
Definition fromisoformat (s : string) : result date :=
  let bad := Raise (ValueError ("Invalid isoformat string: " +:+ s)) in
  if negb (Nat.eqb (String.length s) 10) then bad
  else
    match String.get 4 s, String.get 7 s with
    | Some c1, Some c2 =>
        if Ascii.eqb c1 "-" && Ascii.eqb c2 "-" then
          match parse_digits (String.substring 0 4 s) 0,
                parse_digits (String.substring 5 2 s) 0,
                parse_digits (String.substring 8 2 s) 0 with
          | Some y, Some m, Some d =>
              if check_date_fields y m d then Ok (mkdate y m d) else bad
          | _, _, _ => bad
          end
        else bad
    | _, _ => bad
    end.

End Datetime.

(** ** Geometry: what [shapely] and [geopandas] compute

    A ring is the list of its vertices, closed implicitly from the last
    vertex back to the first; a polygon is a shell with holes; a lease
    geometry is a list of polygons (one for a Polygon, several for a
    MultiPolygon, none for an empty geometry).  A point is [(x, y)] with
    [x] the longitude and [y] the latitude, as in [Point(lon, lat)]. *)

Module Geo.

Local Open Scope Q_scope.

Definition point : Type := Q * Q.
Definition ring : Type := list point.

Record polygon : Type := mkpolygon { shell : ring; holes : list ring }.

Definition geometry : Type := list polygon.

Definition Qltb (a b : Q) : bool := negb (Qle_bool b a).

(** Twice the signed area of the triangle [a], [b], [p]: positive when
    [p] lies to the left of the directed line from [a] to [b]. *)
Definition cross (a b p : point) : Q :=
  (fst b - fst a) * (snd p - snd a) - (snd b - snd a) * (fst p - fst a).

Definition on_segment (p a b : point) : bool :=
  Qeq_bool (cross a b p) 0
  && Qle_bool (Qmin (fst a) (fst b)) (fst p)
  && Qle_bool (fst p) (Qmax (fst a) (fst b))
  && Qle_bool (Qmin (snd a) (snd b)) (snd p)
  && Qle_bool (snd p) (Qmax (snd a) (snd b)).

(** Does the ray from [p] towards larger [x] cross the edge from [a]
    to [b]?  An edge counts when it straddles the line through [p]
    (lower end included, upper end excluded) strictly to the right. *)
Definition crosses (p : point) (e : point * point) : bool :=
  let (a, b) := e in
  (Qle_bool (snd a) (snd p) && Qltb (snd p) (snd b) && Qltb 0 (cross a b p))
  || (Qle_bool (snd b) (snd p) && Qltb (snd p) (snd a) && Qltb (cross a b p) 0).

(** The edges along a path of vertices. *)
Fixpoint path_edges (vs : list point) : list (point * point) :=
  match vs with
  | a :: ((b :: _) as rest) => (a, b) :: path_edges rest
  | _ => []
  end.

Definition ring_edges (r : ring) : list (point * point) :=
  match r with
  | [] => []
  | v0 :: _ => path_edges (r ++ [v0])
  end.

Definition on_ring (p : point) (r : ring) : bool :=
  existsb (fun e => on_segment p (fst e) (snd e)) (ring_edges r).

(** Parity of the number of edges the ray crosses. *)
Definition crossing_parity (p : point) (es : list (point * point)) : bool :=
  fold_right (fun e acc => xorb (crosses p e) acc) false es.

Definition inside_ring (p : point) (r : ring) : bool :=
  crossing_parity p (ring_edges r).

Inductive location : Type := Interior | Boundary | Exterior.

Definition is_interior (l : location) : bool :=
  match l with Interior => true | _ => false end.
Definition is_boundary (l : location) : bool :=
  match l with Boundary => true | _ => false end.

Definition locate_polygon (p : point) (poly : polygon) : location :=
  if on_ring p (shell poly) || existsb (on_ring p) (holes poly)
  then Boundary
  else if inside_ring p (shell poly)
          && negb (existsb (inside_ring p) (holes poly))
  then Interior
  else Exterior.

Definition locate (p : point) (g : geometry) : location :=
  if existsb (fun poly => is_interior (locate_polygon p poly)) g then Interior
  else if existsb (fun poly => is_boundary (locate_polygon p poly)) g
  then Boundary
  else Exterior.

(** The predicate [within] of a point against a geometry: the point
    lies in the interior; a point of the boundary is not within. *)
Definition within (p : point) (g : geometry) : bool :=
  is_interior (locate p g).

Record bbox : Type :=
  mkbbox { minx : Q; miny : Q; maxx : Q; maxy : Q }.

Definition bbox_of_point (p : point) : bbox :=
  mkbbox (fst p) (snd p) (fst p) (snd p).

Definition bbox_union (a b : bbox) : bbox :=
  mkbbox (Qmin (minx a) (minx b)) (Qmin (miny a) (miny b))
         (Qmax (maxx a) (maxx b)) (Qmax (maxy a) (maxy b)).

(** Union of optional boxes; [None] is the box of nothing (the NaN
    bounds of an empty geometry), which a union ignores. *)
Definition bbox_join (a b : option bbox) : option bbox :=
  match a, b with
  | Some x, Some y => Some (bbox_union x y)
  | Some x, None => Some x
  | None, y => y
  end.

Definition ring_bounds (r : ring) : option bbox :=
  fold_right (fun p acc => bbox_join (Some (bbox_of_point p)) acc) None r.

(** The envelope of a polygon is the envelope of its shell. *)
Definition polygon_bounds (poly : polygon) : option bbox :=
  ring_bounds (shell poly).

(** [geom.bounds] *)
Definition bounds (g : geometry) : option bbox :=
  fold_right (fun poly acc => bbox_join (polygon_bounds poly) acc) None g.


End Geo.

(** ** config.py *)

Module Config.

(** [range(lo, hi)] *)
Definition range (lo hi : Z) : list Z :=
  map (fun k => lo + Z.of_nat k) (seq 0 (Z.to_nat (hi - lo))).

Definition LEASE_GEOJSON : string :=
  "geojson/Wind_Lease_Boundaries__BOEM__2752026592552254440.geojson".

Definition EXCLUDED_VESSEL_TYPES : list Z := [30; 36; 37] ++ range 60 70.

(** [AIS_URL_TEMPLATE.format(year=.., month=.., day=..)] *)
Definition AIS_URL_TEMPLATE_format (year month day : Z) : string :=
  "https://coast.noaa.gov/htdata/CMSP/AISDataHandler/" +:+ Str.of_Z year
  +:+ "/AIS_" +:+ Str.of_Z year +:+ "_" +:+ Str.zfill 2 month +:+ "_"
  +:+ Str.zfill 2 day +:+ ".zip".

Definition START_DATE : string := "2022-01-01".
Definition END_DATE : string := "2025-12-31".

End Config.

(** ** Records, files and the world *)

Module World.

Import Geo.

(** One broadcast observation: a row of the daily CSV.  The columns
    the code does not inspect are [carried] along. *)
Record RawPositionRecord : Type := mkrow {
  MMSI : Z;
  BaseDateTime : string;
  LAT : Q;
  LON : Q;
  VesselName : string;
  VesselType : Z;
  carried : list (string * string)
}.

(** A row of the joined frame: the raw row and the lease it is in. *)
Record FilteredPositionRecord : Type := mkfiltered {
  record : RawPositionRecord;
  LEASE_NUMBER : string
}.

(** A row of the lease frame, in EPSG:4326 (after [to_crs]). *)
Record Lease : Type := mklease {
  lease_number : string;
  lease_geometry : geometry
}.

(** A member of a zip archive. *)
Inductive member : Type :=
| MemberCsv (rows : list RawPositionRecord)
| MemberOther.

(** What a file of the data directory holds. *)
Inductive content : Type :=
| Csv (rows : list RawPositionRecord)
| Archive (members : list (string * member))
| Garbage.

(** What the remote archive answers to a GET. *)
Inductive response : Type :=
| NoConnection
| Response (status : Z) (body : content) (complete : bool).

Record world : Type := mkworld {
  (** the files of the data directory, by path *)
  data_files : gmap string content;
  (** the GeoPackage files of the output directory, by path *)
  output_files : gmap string (list FilteredPositionRecord);
  (** the lines of progress.txt, [None] when the file does not exist *)
  progress_file : option (list string);
  (** the lease frame [gpd.read_file] and [to_crs] produce, [None]
      when the polygon source is missing or unparsable *)
  lease_source : option (list Lease);
  (** the value remembered by [lru_cache] *)
  lease_cache : option (list Lease);
  (** the remote archive *)
  remote : string -> response;
  (** the paths at which writing a GeoPackage fails *)
  sink_fails : string -> bool;
  (** the number of GET requests sent so far *)
  net_ops : nat;
  (** the days [process_date] was entered for, in order (its
      "Processing:" lines) *)
  attempts : list Datetime.date
}.

Definition set_data_files (f : gmap string content) (w : world) : world :=
  mkworld f (output_files w) (progress_file w) (lease_source w)
          (lease_cache w) (remote w) (sink_fails w) (net_ops w) (attempts w).

Definition set_output_files (f : gmap string (list FilteredPositionRecord))
    (w : world) : world :=
  mkworld (data_files w) f (progress_file w) (lease_source w)
          (lease_cache w) (remote w) (sink_fails w) (net_ops w) (attempts w).

Definition set_progress_file (f : option (list string)) (w : world) : world :=
  mkworld (data_files w) (output_files w) f (lease_source w)
          (lease_cache w) (remote w) (sink_fails w) (net_ops w) (attempts w).

Definition set_lease_cache (c : option (list Lease)) (w : world) : world :=
  mkworld (data_files w) (output_files w) (progress_file w) (lease_source w)
          c (remote w) (sink_fails w) (net_ops w) (attempts w).

Definition set_net_ops (n : nat) (w : world) : world :=
  mkworld (data_files w) (output_files w) (progress_file w) (lease_source w)
          (lease_cache w) (remote w) (sink_fails w) n (attempts w).

Definition set_attempts (l : list Datetime.date) (w : world) : world :=
  mkworld (data_files w) (output_files w) (progress_file w) (lease_source w)
          (lease_cache w) (remote w) (sink_fails w) (net_ops w) l.

(** Computations: state passing with exceptions.  The world a raising
    computation leaves behind is kept, as the effects of a Python
    statement are when it raises. *)
Definition M (A : Type) : Type := world -> result A * world.

Definition ret {A} (a : A) : M A := fun w => (Ok a, w).
Definition raise {A} (e : exn) : M A := fun w => (Raise e, w).

Definition bind {A B} (m : M A) (k : A -> M B) : M B :=
  fun w =>
    match m w with
    | (Ok a, w') => k a w'
    | (Raise e, w') => (Raise e, w')
    end.

(** [try: body  except Exception as e: handler e] *)
Definition try_except {A} (body : M A) (handler : exn -> M A) : M A :=
  fun w =>
    match body w with
    | (Ok a, w') => (Ok a, w')
    | (Raise e, w') => handler e w'
    end.

Definition get {A} (f : world -> A) : M A := fun w => (Ok (f w), w).
Definition modify (f : world -> world) : M unit := fun w => (Ok tt, f w).
Definition lift {A} (r : result A) : M A := fun w => (r, w).

(** [Path(dir) / name] *)
Definition path_join (dir name : string) : string := dir +:+ "/" +:+ name.

(** [Path.stem]: the last component without its last suffix; a dot
    that starts or ends the name starts no suffix. *)
Fixpoint drop_suffix (s : string) : string :=
  match s with
  | EmptyString => EmptyString
  | String c s' =>
      if existsb (fun b => Ascii.eqb b ".") (list_ascii_of_string s')
      then String c (drop_suffix s')
      else if Ascii.eqb c "."
           then match s' with
                | EmptyString => s
                | _ => EmptyString
                end
           else s
  end.

Definition stem (p : string) : string :=
  match Str.after_last "/" p with
  | EmptyString => EmptyString
  | String c s' => String c (drop_suffix s')
  end.

End World.

Declare Scope py_scope.
Delimit Scope py_scope with py.
Notation "x <- c1 ;; c2" := (World.bind c1 (fun x => c2))
  (at level 100, c1 at next level, right associativity) : py_scope.
Notation "c1 ;;; c2" := (World.bind c1 (fun _ => c2))
  (at level 100, right associativity) : py_scope.

Local Open Scope py_scope.

(** ** download_ais.py *)

Module DownloadAis.

Import World.

(** The characters [urlsplit] drops wherever they stand: tab, line
    feed and carriage return. *)
Definition is_unsafe (c : ascii) : bool :=
  let n := nat_of_ascii c in Nat.eqb n 9 || Nat.eqb n 10 || Nat.eqb n 13.

(** The characters [urlsplit] strips from the front of a URL: the
    space and the control characters below it. *)
Definition is_c0_or_space (c : ascii) : bool := Nat.leb (nat_of_ascii c) 32.

(** The first step of [urlsplit]: strip the front, then drop the
    unsafe characters. *)
Definition clean_url (url : string) : string :=
  let url := Str.drop_until (fun c => negb (is_c0_or_space c)) url in
  string_of_list_ascii
    (List.filter (fun c => negb (is_unsafe c)) (list_ascii_of_string url)).

(** [urlparse(url).path] for a URL of the shape
    scheme://netloc/path?query#fragment; a text without "://" is all
    path up to its query or fragment. *)
Definition urlparse_path (url : string) : string :=
  let is_stop c := Ascii.eqb c "?" || Ascii.eqb c "#" in
  let url := clean_url url in
  let rest :=
    match Str.after_first (S (String.length url)) "://" url with
    | Some r => Str.drop_until (fun c => Ascii.eqb c "/" || is_stop c) r
    | None => url
    end in
  Str.take_until is_stop rest.

(** [os.path.basename] *)
Definition basename (p : string) : string := Str.after_last "/" p.

(** [path.exists()] in the data directory *)
Definition data_exists (path : string) : M bool :=
  get (fun w => match data_files w !! path with
                | Some _ => true
                | None => false
                end).

(** [requests.get(url, stream=True)]: one network operation. *)
Definition requests_get (url : string) : M (Z * content * bool) :=
  fun w =>
    let w' := set_net_ops (S (net_ops w)) w in
    match remote w url with
    | NoConnection => (Raise (ConnectionError url), w')
    | Response status body complete => (Ok (status, body, complete), w')
    end.

(** [response.raise_for_status()] *)
Definition raise_for_status (url : string) (status : Z) : M unit :=
  if (400 <=? status) && (status <? 600) then raise (HTTPError url)
  else ret tt.

(** The [with open(zip_path, "wb")] block: the file is created, then
    filled chunk by chunk; a transfer that breaks off leaves the part
    written so far and raises. *)
Definition write_stream (url zip_path : string) (body : content)
    (complete : bool) : M unit :=
  if complete
  then modify (fun w => set_data_files (<[zip_path := body]> (data_files w)) w)
  else
    modify (fun w => set_data_files (<[zip_path := Garbage]> (data_files w)) w) ;;;
    raise (ConnectionError url).

(** [zipfile.ZipFile(zip_path, "r")] *)
Definition ZipFile (zip_path : string) : M (list (string * member)) :=
  fun w =>
    match data_files w !! zip_path with
    | None => (Raise (FileNotFoundError zip_path), w)
    | Some (Archive members) => (Ok members, w)
    | Some _ => (Raise (BadZipFile zip_path), w)
    end.

Definition content_of_member (m : member) : content :=
  match m with
  | MemberCsv rows => Csv rows
  | MemberOther => Garbage
  end.

(** [zf.extractall(data_path)] *)
Definition extractall (data_dir : string) (members : list (string * member))
    (files : gmap string content) : gmap string content :=
  fold_left
    (fun fs nm => <[path_join data_dir (fst nm) := content_of_member (snd nm)]> fs)
    members files.

Definition download_ais (url data_dir : string) : M string :=
  let filename := basename (urlparse_path url) in
  let zip_path := path_join data_dir filename in
  let csv_filename := Str.replace ".zip" ".csv" filename in
  let csv_path := path_join data_dir csv_filename in
  csv_exists <- data_exists csv_path ;;
  if csv_exists : bool then ret csv_path
  else
    zip_exists <- data_exists zip_path ;;
    (if negb zip_exists
     then
       response <- requests_get url ;;
       raise_for_status url (fst (fst response)) ;;;
       write_stream url zip_path (snd (fst response)) (snd response)
     else ret tt) ;;;
    members <- ZipFile zip_path ;;
    modify (fun w =>
              set_data_files (extractall data_dir members (data_files w)) w) ;;;
    ret csv_path.

End DownloadAis.

(** ** process_ais.py *)

Module ProcessAis.

Import Geo World.

(** [load_lease_boundaries], with its [lru_cache(maxsize=1)]: a value
    is remembered once the call has returned; a call that raises
    remembers nothing. *)
Definition load_lease_boundaries : M (list Lease) :=
  fun w =>
    match lease_cache w with
    | Some gdf => (Ok gdf, w)
    | None =>
        match lease_source w with
        | None => (Raise (DataSourceError Config.LEASE_GEOJSON), w)
        | Some gdf => (Ok gdf, set_lease_cache (Some gdf) w)
        end
    end.

(** [gdf.total_bounds]: the union of the bounds of all geometries,
    NaN ([None]) when there is none. *)
Definition total_bounds (gdf : list Lease) : option bbox :=
  fold_right (fun l acc => bbox_join (bounds (lease_geometry l)) acc) None gdf.

(** The dictionary of [get_lease_bounds]; an entry is [None] for NaN. *)
Record bounds_dict : Type := mkbounds {
  min_lon : option Q;
  min_lat : option Q;
  max_lon : option Q;
  max_lat : option Q
}.

Definition get_lease_bounds : M bounds_dict :=
  gdf <- load_lease_boundaries ;;
  let b := total_bounds gdf in
  ret (mkbounds (minx <$> b) (miny <$> b) (maxx <$> b) (maxy <$> b)).

(** [x >= b] and [x <= b] against a possibly NaN bound: any
    comparison with NaN is false. *)
Definition ge_bound (x : Q) (b : option Q) : bool :=
  match b with Some v => Qle_bool v x | None => false end.
Definition le_bound (x : Q) (b : option Q) : bool :=
  match b with Some v => Qle_bool x v | None => false end.

(** [Expr.is_in] *)
Definition is_in (x : Z) (l : list Z) : bool := existsb (Z.eqb x) l.

(** The predicate of the [.filter(...)] of the lazy scan. *)
Definition prefilter (b : bounds_dict) (r : RawPositionRecord) : bool :=
  negb (Qeq_bool (LAT r) 91)
  && negb (Qeq_bool (LON r) 181)
  && negb (is_in (VesselType r) Config.EXCLUDED_VESSEL_TYPES)
  && ge_bound (LAT r) (min_lat b)
  && le_bound (LAT r) (max_lat b)
  && ge_bound (LON r) (min_lon b)
  && le_bound (LON r) (max_lon b).

(** [pl.scan_csv(csv_path) ... .collect()] reads the file. *)
Definition scan_csv (csv_path : string) : M (list RawPositionRecord) :=
  fun w =>
    match data_files w !! csv_path with
    | None => (Raise (FileNotFoundError csv_path), w)
    | Some (Csv rows) => (Ok rows, w)
    | Some _ => (Raise (ComputeError csv_path), w)
    end.

(** [Point(lon, lat)] *)
Definition Point (r : RawPositionRecord) : point := (LON r, LAT r).

(** A row of the frame [gpd.sjoin] returns: the left row, the
    position of the matching lease in the right frame and the column
    carried over from it. *)
Record JoinedRow : Type := mkjoined {
  left_row : RawPositionRecord;
  index_right : nat;
  joined_lease : string
}.

(** The leases of the right frame with their positions. *)
Fixpoint indexed (i : nat) (leases : list Lease) : list (nat * Lease) :=
  match leases with
  | [] => []
  | l :: ls => (i, l) :: indexed (S i) ls
  end.

(** [gpd.sjoin(ais_gdf, leases, how="inner", predicate="within")]: one
    row for every pair of a point and a lease the point is within. *)
Definition sjoin_within (rows : list RawPositionRecord)
    (leases : list Lease) : list JoinedRow :=
  flat_map
    (fun r =>
       map (fun il => mkjoined r (fst il) (lease_number (snd il)))
           (List.filter
              (fun il => within (Point r) (lease_geometry (snd il)))
              (indexed 0 leases)))
    rows.

(** [result.drop(columns=["index_right"])] *)
Definition drop_index_right (j : JoinedRow) : FilteredPositionRecord :=
  mkfiltered (left_row j) (joined_lease j).

(** [result.to_file(gpkg_path, driver="GPKG")] *)
Definition to_file (gpkg_path : string)
    (result : list FilteredPositionRecord) : M unit :=
  fun w =>
    if sink_fails w gpkg_path then (Raise (OSError gpkg_path), w)
    else (Ok tt, set_output_files (<[gpkg_path := result]> (output_files w)) w).

Definition process_ais (csv_path output_dir : string)
    (output_name : option string) : M (option string) :=
  let output_name :=
    match output_name with
    | Some n => n
    | None => "ais_" +:+ Str.replace "AIS_" "" (stem csv_path)
    end in
  let gpkg_path := path_join output_dir (output_name +:+ ".gpkg") in
  leases <- load_lease_boundaries ;;
  bounds <- get_lease_bounds ;;
  rows <- scan_csv csv_path ;;
  let df := List.filter (prefilter bounds) rows in
  if Nat.eqb (List.length df) 0 then ret None
  else
    let result := sjoin_within df leases in
    let result := map drop_index_right result in
    if Nat.eqb (List.length result) 0 then ret None
    else
      to_file gpkg_path result ;;;
      ret (Some gpkg_path).

End ProcessAis.

(** ** batch_process.py *)

Module BatchProcess.

Import Datetime World.

Definition DATA_DIR : string := "data".
Definition OUTPUT_DIR : string := "output".

Definition load_completed_dates : M (gset string) :=
  get (fun w =>
         match progress_file w with
         | None => ∅
         | Some lines =>
             list_to_set
               (List.filter (fun s => negb (String.eqb s ""))
                  (map Str.strip lines))
         end).

Definition mark_completed (date_str : string) : M unit :=
  modify (fun w =>
            set_progress_file
              (Some (default [] (progress_file w) ++ [date_str])%list) w).

(** [if path.exists(): os.remove(path)] *)
Definition remove_if_exists (path : string) : M unit :=
  path_exists <- DownloadAis.data_exists path ;;
  if path_exists : bool
  then modify (fun w => set_data_files (delete path (data_files w)) w)
  else ret tt.

Definition zip_name (year month day : string) : string :=
  "AIS_" +:+ year +:+ "_" +:+ month +:+ "_" +:+ day +:+ ".zip".
Definition csv_name (year month day : string) : string :=
  "AIS_" +:+ year +:+ "_" +:+ month +:+ "_" +:+ day +:+ ".csv".

Definition cleanup_download (date_str : string) : M unit :=
  match Str.split "-" date_str with
  | [year; month; day] =>
      let zip_path := path_join DATA_DIR (zip_name year month day) in
      let csv_path := path_join DATA_DIR (csv_name year month day) in
      remove_if_exists zip_path ;;;
      remove_if_exists csv_path
  | _ => raise (ValueError "wrong number of values to unpack")
  end.

(** How a generator run ends. *)
Inductive gen_end : Type :=
| StopIteration
| Raised (e : exn)
| OutOfFuel.

(** The [while] loop of [generate_dates]; [fuel] bounds the number of
    tests of its condition. *)
Fixpoint generate_loop (fuel : nat) (current end_date : date)
    : list date * gen_end :=
  match fuel with
  | O => ([], OutOfFuel)
  | S fuel' =>
      if date_leb current end_date then
        match add_days current 1 with
        | Ok next =>
            let (l, r) := generate_loop fuel' next end_date in
            (current :: l, r)
        | Raise e => ([current], Raised e)
        end
      else ([], StopIteration)
  end.

(** Enough tests for every day from [start_date] to [end_date] and the
    one that leaves the loop. *)
Definition loop_fuel (start_date end_date : date) : nat :=
  S (Z.to_nat (toordinal end_date - toordinal start_date + 1)).

(** The dates a run of the generator yields, and how the run ends. *)
Definition generate_dates (start end_ : string) : list date * gen_end :=
  match fromisoformat start with
  | Raise e => ([], Raised e)
  | Ok start_date =>
      match fromisoformat end_ with
      | Raise e => ([], Raised e)
      | Ok end_date =>
          generate_loop (loop_fuel start_date end_date) start_date end_date
      end
  end.

(** [list(generator)]: an exception of the generator propagates.  The
    last case is never met: [generate_dates] gives its loop fuel
    enough (lemma [generate_dates_fuel]). *)
Definition list_of (g : list date * gen_end) : result (list date) :=
  match snd g with
  | StopIteration => Ok (fst g)
  | Raised e => Raise e
  | OutOfFuel => Ok (fst g)
  end.

Definition process_date (d : date) : M bool :=
  let date_str := isoformat d in
  modify (fun w => set_attempts (attempts w ++ [d])%list w) ;;;
  let url := Config.AIS_URL_TEMPLATE_format (year d) (month d) (day d) in
  try_except
    (csv_path <- DownloadAis.download_ais url DATA_DIR ;;
     let output_name :=
       "ais_" +:+ Str.of_Z (year d) +:+ "_" +:+ Str.zfill 2 (month d)
       +:+ "_" +:+ Str.zfill 2 (day d) in
     result <- ProcessAis.process_ais csv_path OUTPUT_DIR (Some output_name) ;;
     cleanup_download date_str ;;;
     ret true)
    (fun e =>
       cleanup_download date_str ;;;
       ret false).

(** The body of the [for] loop of [main]. *)
Definition main_step (d : date) (counts : Z * Z) : M (Z * Z) :=
  let date_str := isoformat d in
  success <- process_date d ;;
  if success : bool
  then mark_completed date_str ;;; ret (fst counts + 1, snd counts)
  else ret (fst counts, snd counts + 1).

(** The [for] loop of [main]; [counts] is
    [(success_count, error_count)]. *)
Fixpoint main_loop (remaining : list date) (counts : Z * Z) : M (Z * Z) :=
  match remaining with
  | [] => ret counts
  | d :: rest =>
      counts' <- main_step d counts ;;
      main_loop rest counts'
  end.

Definition remaining_dates (completed : gset string) (all_dates : list date)
    : list date :=
  List.filter (fun d => negb (bool_decide (isoformat d ∈ completed))) all_dates.

(** [main] for a configured range; the result is the pair of counts
    of the summary, [None] when the run returns early. *)
Definition main_with (start end_ : string) : M (option (Z * Z)) :=
  completed <- load_completed_dates ;;
  all_dates <- lift (list_of (generate_dates start end_)) ;;
  let remaining := remaining_dates completed all_dates in
  match remaining with
  | [] => ret None
  | _ =>
      counts <- main_loop remaining (0, 0) ;;
      ret (Some counts)
  end.

Definition main : M (option (Z * Z)) :=
  main_with Config.START_DATE Config.END_DATE.

End BatchProcess.

(** ** merge_gpkg.py *)

Module MergeGpkg.

Import Datetime World.

(** A GeoDataFrame as a file holds it: its rows, in order. *)
Abbreviation frame := (list FilteredPositionRecord) (only parsing).

(** A decimal digit between [lo] and [hi]: the classes [\d], [[0-2]],
    [[1-9]] of the patterns below, within ASCII. *)
Definition digit_in (lo hi : Z) (c : ascii) : option Z :=
  match digit_val c with
  | Some k => if (lo <=? k) && (k <=? hi) then Some k else None
  | None => None
  end.

(** One alternative of a directive: two digits, one digit, or a space
    and a digit; the value read and the text left. *)
Definition two_digits (lo1 hi1 lo2 hi2 : Z) (s : string) : option (Z * string) :=
  match s with
  | String a (String b rest) =>
      match digit_in lo1 hi1 a, digit_in lo2 hi2 b with
      | Some x, Some y => Some (10 * x + y, rest)
      | _, _ => None
      end
  | _ => None
  end.

Definition one_digit (lo hi : Z) (s : string) : option (Z * string) :=
  match s with
  | String a rest =>
      match digit_in lo hi a with
      | Some x => Some (x, rest)
      | None => None
      end
  | EmptyString => None
  end.

Definition space_digit (s : string) : option (Z * string) :=
  match s with
  | String c rest => if Ascii.eqb c " " then one_digit 1 9 rest else None
  | EmptyString => None
  end.

(** The alternatives of a group are tried in order; the first one
    after which the rest of the pattern matches is taken. *)
Fixpoint first_alt {A} (alts : list (string -> option (Z * string)))
    (rest_of_pattern : Z -> string -> option A) (s : string) : option A :=
  match alts with
  | [] => None
  | alt :: alts' =>
      match alt s with
      | Some (v, rest) =>
          match rest_of_pattern v rest with
          | Some r => Some r
          | None => first_alt alts' rest_of_pattern s
          end
      | None => first_alt alts' rest_of_pattern s
      end
  end.

(** A literal [-] of the pattern. *)
Definition dash {A} (k : string -> option A) (s : string) : option A :=
  match s with
  | String c rest => if Ascii.eqb c "-" then k rest else None
  | EmptyString => None
  end.

(** [%d]: [3[0-1]|[1-2]\d|0[1-9]|[1-9]| [1-9]] *)
Definition directive_d {A} : (Z -> string -> option A) -> string -> option A :=
  first_alt [two_digits 3 3 0 1; two_digits 1 2 0 9; two_digits 0 0 1 9;
             one_digit 1 9; space_digit].

(** [%m]: [1[0-2]|0[1-9]|[1-9]] *)
Definition directive_m {A} : (Z -> string -> option A) -> string -> option A :=
  first_alt [two_digits 1 1 0 2; two_digits 0 0 1 9; one_digit 1 9].

(** [%Y]: [\d\d\d\d] *)
Definition directive_Y {A} (k : Z -> string -> option A) (s : string) : option A :=
  match s with
  | String a (String b (String c (String d rest))) =>
      match digit_in 0 9 a, digit_in 0 9 b, digit_in 0 9 c, digit_in 0 9 d with
      | Some x, Some y, Some z, Some t =>
          k (1000 * x + 100 * y + 10 * z + t) rest
      | _, _, _, _ => None
      end
  | _ => None
  end.

(** The match of the pattern of ["%Y-%m-%d"] at the start of the text:
    year, month, day and what the match leaves. *)
Definition format_regex_match (s : string) : option (Z * Z * Z * string) :=
  directive_Y
    (fun y => dash (directive_m
       (fun m => dash (directive_d
          (fun d rest => Some (y, m, d, rest))))))
    s.

(** [datetime(year, month, day).date()]; the message is abridged. *)
Definition datetime_date (y m d : Z) : result date :=
  if check_date_fields y m d then Ok (mkdate y m d)
  else Raise (ValueError "date value out of range").

(** [datetime.strptime(s, "%Y-%m-%d").date()], within ASCII; the
    messages are abridged. *)
Definition strptime_date (s : string) : result date :=
  match format_regex_match s with
  | None => Raise (ValueError "time data does not match format")
  | Some (y, m, d, rest) =>
      match rest with
      | EmptyString => datetime_date y m d
      | _ => Raise (ValueError "unconverted data remains")
      end
  end.

(** [a < b] on dates *)
Definition date_ltb (a b : date) : bool := negb (date_leb b a).

(** [Path.name] *)
Definition name (p : string) : string := Str.after_last "/" p.

Definition isdigit (c : ascii) : bool :=
  match digit_val c with Some _ => true | None => false end.

(** A literal text of a pattern at the start of [text]: what follows
    it. *)
Fixpoint literal (s text : string) : option string :=
  match s with
  | EmptyString => Some text
  | String c s' =>
      match text with
      | String a text' => if Ascii.eqb a c then literal s' text' else None
      | EmptyString => None
      end
  end.

(** [(\d{n})] at the start of [text]: the group and what follows it. *)
Fixpoint group (n : nat) (text : string) : option (string * string) :=
  match n with
  | O => Some (EmptyString, text)
  | S n' =>
      match text with
      | String a text' =>
          if isdigit a
          then match group n' text' with
               | Some (g, rest) => Some (String a g, rest)
               | None => None
               end
          else None
      | EmptyString => None
      end
  end.

Definition newline : string := String (ascii_of_nat 10) "".

(** [$]: the end of the text, or a line feed that ends it. *)
Definition dollar (text : string) : bool :=
  String.eqb text "" || String.eqb text newline.

(** [pattern.match(name)] for
    [ais_(\d{4})_(\d{2})_(\d{2})\.gpkg$]: the three groups, within
    ASCII.  The match starts at the start of the name. *)
Definition pattern_match (name : string) : option (string * string * string) :=
  text ← literal "ais_" name;
  '(year, text) ← group 4 text;
  text ← literal "_" text;
  '(month, text) ← group 2 text;
  text ← literal "_" text;
  '(day, text) ← group 2 text;
  text ← literal ".gpkg" text;
  if dollar text then Some (year, month, day) else None.

(** [int(group)] for a group of the pattern, a run of digits. *)
Definition int (s : string) : result Z :=
  match s, parse_digits s 0 with
  | String _ _, Some n => Ok n
  | _, _ => Raise (ValueError "invalid literal for int()")
  end.

(** [text] ends with [s]. *)
Definition ends_with (s text : string) : bool :=
  String.eqb
    (String.substring (String.length text - String.length s)
       (String.length s) text)
    s.

(** The pattern ["ais_*.gpkg"] of the glob against a name: [ais_], any
    characters, [.gpkg] and the end of the name. *)
Definition fnmatch (name : string) : bool :=
  match literal "ais_" name with
  | Some text => ends_with ".gpkg" text
  | None => false
  end.

(** [output_dir.glob("ais_*.gpkg")]: the entries of the directory
    itself whose names match, in the order the directory lists them. *)
Definition glob (output_dir : string) : M (list string) :=
  get (fun w =>
         List.filter
           (fun p => String.eqb p (path_join output_dir (name p))
                     && fnmatch (name p))
           (map fst (map_to_list (output_files w)))).

(** The body of the [for] loop of [get_gpkg_files] on one entry:
    whether the entry is kept. *)
Definition keep_file (start end_ : option date) (f : string) : result bool :=
  match pattern_match (name f) with
  | Some (y, m, d) =>
      match int y, int m, int d with
      | Ok year, Ok month, Ok day =>
          match datetime_date year month day with
          | Ok file_date =>
              if match start with
                 | Some s => date_ltb file_date s
                 | None => false
                 end
              then Ok false
              else if match end_ with
                      | Some e => date_ltb e file_date
                      | None => false
                      end
              then Ok false
              else Ok true
          | Raise e => Raise e
          end
      | Raise e, _, _ | _, Raise e, _ | _, _, Raise e => Raise e
      end
  | None => Ok false
  end.

(** The [for] loop of [get_gpkg_files]; [files] is the list built so
    far. *)
Fixpoint select (start end_ : option date) (listing files : list string)
    : result (list string) :=
  match listing with
  | [] => Ok files
  | f :: rest =>
      match keep_file start end_ f with
      | Ok true => select start end_ rest (files ++ [f])
      | Ok false => select start end_ rest files
      | Raise e => Raise e
      end
  end.

(** Comparison of two paths: of the lists of their components,
    component by component. *)
Fixpoint parts_ltb (a b : list string) : bool :=
  match a, b with
  | [], [] => false
  | [], _ :: _ => true
  | _ :: _, [] => false
  | x :: a', y :: b' =>
      match String.compare x y with
      | Lt => true
      | Gt => false
      | Eq => parts_ltb a' b'
      end
  end.

Definition path_ltb (p q : string) : bool :=
  parts_ltb (Str.split "/" p) (Str.split "/" q).

(** [sorted(files)]: a stable sort by [<]. *)
Fixpoint insert (p : string) (l : list string) : list string :=
  match l with
  | [] => [p]
  | q :: l' => if path_ltb q p then q :: insert p l' else p :: l
  end.

Definition sorted (files : list string) : list string :=
  fold_right insert [] files.

(** [strptime(s, ...).date() if s else None] *)
Definition parse_bound (s : option string) : result (option date) :=
  match s with
  | Some (String _ _ as text) =>
      match strptime_date text with
      | Ok d => Ok (Some d)
      | Raise e => Raise e
      end
  | _ => Ok None
  end.

Definition get_gpkg_files (output_dir : string)
    (start_date end_date : option string) : M (list string) :=
  start <- lift (parse_bound start_date) ;;
  end_ <- lift (parse_bound end_date) ;;
  listing <- glob output_dir ;;
  files <- lift (select start end_ listing []) ;;
  ret (sorted files).

(** [range(start, stop, step)] *)
Definition range (start stop step : Z) : result (list Z) :=
  if step =? 0 then Raise (ValueError "range() arg 3 must not be zero")
  else
    let n :=
      if 0 <? step
      then if start <? stop then (stop - start - 1) / step + 1 else 0
      else if stop <? start then (start - stop - 1) / (- step) + 1 else 0 in
    Ok (map (fun k => start + Z.of_nat k * step) (seq 0 (Z.to_nat n))).

(** [l[i : j]] for [0 <= i] and [0 <= j] *)
Definition slice {A} (l : list A) (i j : Z) : list A :=
  take (Z.to_nat (j - i)) (drop (Z.to_nat i) l).

(** [gpd.read_file(f)] *)
Definition read_file (f : string) : M frame :=
  fun w =>
    match output_files w !! f with
    | Some rows => (Ok rows, w)
    | None => (Raise (DataSourceError f), w)
    end.

(** [[gpd.read_file(f) for f in files]] *)
Fixpoint read_files (files : list string) : M (list frame) :=
  match files with
  | [] => ret []
  | f :: rest =>
      gdf <- read_file f ;;
      gdfs <- read_files rest ;;
      ret (gdf :: gdfs)
  end.

(** [pd.concat(gdfs, ignore_index=True)] *)
Definition concat (gdfs : list frame) : result frame :=
  match gdfs with
  | [] => Raise (ValueError "No objects to concatenate")
  | _ => Ok (List.concat gdfs)
  end.

(** The [for] loop of [iter_gdfs] over the values of its range: the
    frames yielded and how the run ends. *)
Fixpoint iter_loop (starts : list Z) (gpkg_files : list string)
    (batch_size : Z) : M (list frame * BatchProcess.gen_end) :=
  match starts with
  | [] => ret ([], BatchProcess.StopIteration)
  | i :: rest =>
      try_except
        (combined <-
           (gdfs <- read_files (slice gpkg_files i (i + batch_size)) ;;
            lift (concat gdfs)) ;;
         yielded <- iter_loop rest gpkg_files batch_size ;;
         ret (combined :: fst yielded, snd yielded))
        (fun e => ret ([], BatchProcess.Raised e))
  end.

Definition iter_gdfs (gpkg_files : list string) (batch_size : Z)
    : M (list frame * BatchProcess.gen_end) :=
  try_except
    (starts <- lift (range 0 (Z.of_nat (List.length gpkg_files)) batch_size) ;;
     iter_loop starts gpkg_files batch_size)
    (fun e => ret ([], BatchProcess.Raised e)).

(** [sum(len(gdf) for gdf in gdfs)] *)
Definition sum_len (gdfs : list frame) : Z :=
  fold_left (fun acc gdf => acc + Z.of_nat (List.length gdf)) gdfs 0.

(** [combined.to_parquet(output_path)]: the file is written among the
    parquet files, which are apart from the GeoPackage files. *)
Definition to_parquet (output_path : string) (combined : frame)
    (parquet : gmap string frame) : M (gmap string frame) :=
  fun w =>
    if sink_fails w output_path then (Raise (OSError output_path), w)
    else (Ok (<[output_path := combined]> parquet), w).

Definition merge_to_parquet (gpkg_files : list string) (output_path : string)
    (batch_size : Z) (show_progress : bool) (parquet : gmap string frame)
    : M (string * Z * gmap string frame) :=
  gdfs <- read_files gpkg_files ;;
  let total_rows := sum_len gdfs in
  combined <- lift (concat gdfs) ;;
  parquet' <- to_parquet output_path combined parquet ;;
  ret (output_path, total_rows, parquet').

(** The arguments [argparse] hands to [main]. *)
Record Args : Type := mkargs {
  input_dir : string;
  output : string;
  start_date : option string;
  end_date : option string;
  batch_size : Z
}.

(** [main]: its return value and the parquet files it leaves. *)
Definition main (args : Args) (parquet : gmap string frame)
    : M (Z * gmap string frame) :=
  gpkg_files <-
    get_gpkg_files (input_dir args) (start_date args) (end_date args) ;;
  match gpkg_files with
  | [] => ret (1, parquet)
  | _ =>
      merged <-
        merge_to_parquet gpkg_files (output args) (batch_size args) true
          parquet ;;
      ret (0, snd merged)
  end.

End MergeGpkg.

(** ** Vocabulary of the statements *)

Module Spec.

Import Datetime Geo World.

(** The numbers [0 .. n-1]. *)
Definition Zrange (n : Z) : list Z := map Z.of_nat (seq 0 (Z.to_nat n)).

Definition days_in_year (y : Z) : Z := if is_leap y then 366 else 365.

(** [month_day] lands on a day of the month it names. *)
Definition month_day_ok (leap : bool) (n : Z) : bool :=
  let m := fst (month_day leap n) in
  let d := snd (month_day leap n) in
  (1 <=? m) && (m <=? 12) && (1 <=? d)
  && (d <=? (if (m =? 2) && leap then 29 else DAYS_IN_MONTH m))
  && (DAYS_BEFORE_MONTH m + (if (2 <? m) && leap then 1 else 0) + d =? n + 1).

Definition is_digit (c : ascii) : bool :=
  match digit_val c with Some _ => true | None => false end.



(** The days of the calendar from [s] to [e], both included. *)
Definition date_range (s e : date) : list date :=
  map (fun k => fromordinal (toordinal s + Z.of_nat k))
      (seq 0 (Z.to_nat (toordinal e - toordinal s + 1))).

(** The days with ordinals [a], [a+1], ..., [a+n-1]. *)
Definition ord_range (a : Z) (n : nat) : list date :=
  map (fun k => fromordinal (a + Z.of_nat k)) (seq 0 n).

Import BatchProcess.

(** The address of the archive of day [d]. *)
Definition day_url (d : date) : string :=
  Config.AIS_URL_TEMPLATE_format (year d) (month d) (day d).

(** The output name [process_date] passes for day [d]. *)
Definition day_output_name (d : date) : string :=
  "ais_" +:+ Str.of_Z (year d) +:+ "_" +:+ Str.zfill 2 (month d)
  +:+ "_" +:+ Str.zfill 2 (day d).

(** The two transient files of day [d], as [cleanup_download] names
    them. *)
Definition transient_zip (d : date) : string :=
  path_join DATA_DIR
    (zip_name (Str.zfill 4 (year d)) (Str.zfill 2 (month d))
       (Str.zfill 2 (day d))).
Definition transient_csv (d : date) : string :=
  path_join DATA_DIR
    (csv_name (Str.zfill 4 (year d)) (Str.zfill 2 (month d))
       (Str.zfill 2 (day d))).



(** The set of days the ledger holds. *)
Definition ledger (w : world) : gset string :=
  match fst (load_completed_dates w) with
  | Ok s => s
  | Raise _ => ∅
  end.







(** Computations that leave a view [f] of the world as it was. *)
Definition keeps {A V} (f : world -> V) (m : M A) : Prop :=
  forall w, f (snd (m w)) = f w.


(** What the filter and the sink leave alone: all but the output
    directory and the cache of the polygon loader. *)
Definition beside_sink (w : world) :=
  (data_files w, progress_file w, lease_source w, remote w,
   sink_fails w, net_ops w, attempts w).

(** The dictionary [get_lease_bounds] builds from a lease frame. *)
Definition bounds_of (leases : list Lease) : ProcessAis.bounds_dict :=
  let b := ProcessAis.total_bounds leases in
  ProcessAis.mkbounds (minx <$> b) (miny <$> b) (maxx <$> b) (maxy <$> b).

(** The rows [process_ais] keeps: prefilter, join, drop of the index. *)
Definition spatial_filter (leases : list Lease)
    (rows : list RawPositionRecord) : list FilteredPositionRecord :=
  map ProcessAis.drop_index_right
    (ProcessAis.sjoin_within
       (List.filter (ProcessAis.prefilter (bounds_of leases)) rows) leases).

(** The path of the GeoPackage [process_ais] writes. *)
Definition gpkg_path (output_dir output_name : string) : string :=
  path_join output_dir (output_name +:+ ".gpkg").

(** The two paths [download_ais] works with. *)
Definition fetch_zip_path (url data_dir : string) : string :=
  path_join data_dir (DownloadAis.basename (DownloadAis.urlparse_path url)).
Definition fetch_csv_path (url data_dir : string) : string :=
  path_join data_dir
    (Str.replace ".zip" ".csv"
       (DownloadAis.basename (DownloadAis.urlparse_path url))).

(** The vessel type codes the configuration excludes, as the comment
    of config.py lists them. *)
Definition excluded_type (vt : Z) : Prop :=
  vt = 30 \/ vt = 36 \/ vt = 37 \/ 60 <= vt <= 69.

(** The row lies in the box of the dictionary: all four bounds are
    numbers and enclose its latitude and longitude. *)
Definition inside_box (b : ProcessAis.bounds_dict) (r : RawPositionRecord) : Prop :=
  exists lo_lat hi_lat lo_lon hi_lon,
    ProcessAis.min_lat b = Some lo_lat /\ ProcessAis.max_lat b = Some hi_lat
    /\ ProcessAis.min_lon b = Some lo_lon /\ ProcessAis.max_lon b = Some hi_lon
    /\ (lo_lat <= LAT r /\ LAT r <= hi_lat
        /\ lo_lon <= LON r /\ LON r <= hi_lon)%Q.


End Spec.

(** ** A small world to run the pipeline in *)

Module Example.

Import Datetime Geo World Spec.

(** One lease: the square from (-71, 40) to (-70, 41). *)
Definition square : geometry :=
  [mkpolygon [(-71 # 1, 40 # 1); (-70 # 1, 40 # 1); (-70 # 1, 41 # 1);
              (-71 # 1, 41 # 1); (-71 # 1, 40 # 1)]%Q []].
Definition lease : Lease := mklease "OCS-A 0501" square.
Definition leases : list Lease := [lease].

Definition row (lat lon : Q) (vt : Z) : RawPositionRecord :=
  mkrow 367000000 "2022-01-01T00:00:00" lat lon "TUG" vt [].

(** A tug inside the square, a tug on its lower edge, a fishing
    vessel inside, a row without position, a tug far to the north. *)
Definition inside_row : RawPositionRecord := row (81 # 2) (-141 # 2) 52.
Definition edge_row : RawPositionRecord := row (40 # 1) (-141 # 2) 52.
Definition fishing_row : RawPositionRecord := row (81 # 2) (-141 # 2) 30.
Definition no_position_row : RawPositionRecord := row (91 # 1) (-141 # 2) 52.
Definition north_row : RawPositionRecord := row (50 # 1) (-141 # 2) 52.
Definition rows : list RawPositionRecord :=
  [inside_row; edge_row; fishing_row; no_position_row; north_row].

Definition day1 : date := mkdate 2022 1 1.
Definition day2 : date := mkdate 2022 1 2.
Definition day3 : date := mkdate 2022 1 3.
Definition day4 : date := mkdate 2022 1 4.

(** The archive serves day 1 with [rows], is unreachable for day 2,
    serves day 3 with a single row outside every lease, and answers
    404 for anything else. *)
Definition archive (url : string) : response :=
  if String.eqb url (day_url day1) then
    Response 200 (Archive [("AIS_2022_01_01.csv", MemberCsv rows)]) true
  else if String.eqb url (day_url day2) then NoConnection
  else if String.eqb url (day_url day3) then
    Response 200 (Archive [("AIS_2022_01_03.csv", MemberCsv [north_row])]) true
  else Response 404 Garbage true.

(** Nothing on disk, no ledger, the polygon source in place. *)
Definition fresh : world :=
  mkworld ∅ ∅ None (Some leases) None archive (fun _ => false) 0 [].



(** Day 1 fetched and extracted, not yet processed. *)
Definition fetched : world :=
  snd (DownloadAis.download_ais (day_url day1) BatchProcess.DATA_DIR fresh).



(** Day 1 fetched, then filtered and written. *)
Definition loaded_day1 : world :=
  snd (ProcessAis.load_lease_boundaries fetched).
Definition processed_day1 : world :=
  snd (ProcessAis.process_ais "data/AIS_2022_01_01.csv"
         BatchProcess.OUTPUT_DIR (Some "ais_2022_01_01") fetched).

End Example.

(** ** Vocabulary of the further properties *)

Module Vocabulary.

Import Datetime Geo World DownloadAis ProcessAis BatchProcess Spec.








(** The pairs of a row and a lease that the join keeps. *)
Definition joined_pairs (leases : list Lease) (rows : list RawPositionRecord)
    : list (RawPositionRecord * Lease) :=
  List.filter
    (fun rl => prefilter (bounds_of leases) (fst rl)
               && within (Point (fst rl)) (lease_geometry (snd rl)))
    (list_prod rows leases).

End Vocabulary.

Module MergeVocabulary.

Import Datetime World MergeGpkg.

(** The text [s] is [k] decimal digits that read as [v]. *)
Definition digit_text (k : nat) (s : string) (v : Z) : Prop :=
  String.length s = k /\ parse_digits s 0 = Some v.

(** The name has the shape [ais_YYYY_MM_DD.gpkg], with digits that
    read as [y], [m] and [d]. *)
Definition dated_name (n : string) (y m d : Z) : Prop :=
  exists ys ms ds,
    n = "ais_" +:+ ys +:+ "_" +:+ ms +:+ "_" +:+ ds +:+ ".gpkg"
    /\ digit_text 4 ys y /\ digit_text 2 ms m /\ digit_text 2 ds d.

(** The name of the GeoPackage of day [d]. *)
Definition gpkg_name (d : date) : string :=
  "ais_" +:+ Str.zfill 4 (year d) +:+ "_" +:+ Str.zfill 2 (month d)
  +:+ "_" +:+ Str.zfill 2 (day d) +:+ ".gpkg".

(** A run of [n] digits. *)
Definition digit_run (n : nat) (g : string) : Prop :=
  String.length g = n /\ forallb isdigit (list_ascii_of_string g) = true.

(** The two tests of the loop of [get_gpkg_files] on the date of a
    file: neither bound excludes it. *)
Definition passes (start end_ : option date) (file_date : date) : bool :=
  negb (match start with Some s => date_ltb file_date s | None => false end)
  && negb (match end_ with Some e => date_ltb e file_date | None => false end).

(** The loop of [get_gpkg_files] keeps the entry. *)
Definition kept (start end_ : option date) (f : string) : bool :=
  match keep_file start end_ f with
  | Ok true => true
  | _ => false
  end.

(** Day [d] lies between the bounds that are given, both included. *)
Definition in_window (start end_ : option date) (d : date) : Prop :=
  (forall s, start = Some s -> date_le s d)
  /\ (forall e, end_ = Some e -> date_le d e).

(** The directory [dir] holds a GeoPackage file named [n]. *)
Definition entry (w : world) (dir n : string) : Prop :=
  is_Some (output_files w !! path_join dir n).

(** The files [p] and [q] are those of two days, the first one
    earlier. *)
Definition earlier (dir : string) (p q : string) : Prop :=
  exists a b,
    valid a /\ valid b
    /\ p = path_join dir (gpkg_name a) /\ q = path_join dir (gpkg_name b)
    /\ date_lt a b.

(** The frames the files hold, file by file. *)
Definition holds (w : world) (files : list string) (gdfs : list frame) : Prop :=
  Forall2 (fun f gdf => output_files w !! f = Some gdf) files gdfs.

(** The [j]-th run of [b] elements of [l]. *)
Definition piece {A} (b : nat) (l : list A) (j : nat) : list A :=
  take b (drop (j * b) l).

End MergeVocabulary.

(** ** More worlds to run the code in *)

Module FetchExample.

Import Geo World.



(** A lease frame without a single vertex, and a world with it. *)
Definition empty_lease : Lease := mklease "OCS-A 0000" [].
Definition no_vertices : world :=
  mkworld (<["data/AIS_2022_01_01.csv" := Csv Example.rows]> ∅) ∅ None
    (Some [empty_lease]) None Example.archive (fun _ => false) 0 [].

End FetchExample.

Module MergeExample.

Import World.

Definition kept_row : FilteredPositionRecord :=
  mkfiltered Example.inside_row "OCS-A 0501".

(** An output directory after some days of the batch: three days with
    rows, a GeoPackage that is not named after a day, and a GeoPackage
    of a day in a directory below. *)
Definition outputs : world :=
  set_output_files
    (<["output/ais_2022_01_03.gpkg" := [kept_row; kept_row]]>
       (<["output/ais_2021_12_31.gpkg" := [kept_row]]>
          (<["output/ais_2022_01_01.gpkg" := [kept_row]]>
             (<["output/leases.gpkg" := []]>
                (<["output/old/ais_2022_01_02.gpkg" := [kept_row]]> ∅)))))
    Example.fresh.

(** The same with a file whose name carries a 13th month. *)
Definition misdated : world :=
  set_output_files
    (<["output/ais_2022_13_01.gpkg" := [kept_row]]> (output_files outputs))
    outputs.

End MergeExample.

(* ===================================================================== *)
(** * Part II: properties *)
(* ===================================================================== *)

Import Spec.

(** ** The model at work *)

Module ModelChecks.

Import Datetime World DownloadAis ProcessAis BatchProcess.

Example ordinal_of_2022 : toordinal (mkdate 2022 1 1) = 738156.
Proof. reflexivity. Qed.

Example last_ordinal : fromordinal MAXORDINAL = mkdate 9999 12 31.
Proof. reflexivity. Qed.

Example day_after_leap_day :
  add_days (mkdate 2024 2 29) 1 = Ok (mkdate 2024 3 1)
  /\ add_days (mkdate 1900 2 28) 1 = Ok (mkdate 1900 3 1).
Proof. split; reflexivity. Qed.

Example isoformat_pads : isoformat (mkdate 2022 1 5) = "2022-01-05".
Proof. reflexivity. Qed.

Example fromisoformat_checks :
  fromisoformat "2024-02-29" = Ok (mkdate 2024 2 29)
  /\ fromisoformat "2023-02-29"
     = Raise (ValueError "Invalid isoformat string: 2023-02-29").
Proof. split; reflexivity. Qed.

Example url_of_day :
  day_url (mkdate 2022 7 1)
  = "https://coast.noaa.gov/htdata/CMSP/AISDataHandler/2022/AIS_2022_07_01.zip".
Proof. reflexivity. Qed.

Example paths_of_url :
  fetch_zip_path (day_url (mkdate 2022 7 1)) DATA_DIR = "data/AIS_2022_07_01.zip"
  /\ fetch_csv_path (day_url (mkdate 2022 7 1)) DATA_DIR
     = "data/AIS_2022_07_01.csv".
Proof. split; reflexivity. Qed.

(** Before the year 1000 the URL carries the year without padding, the
    names of [cleanup_download] carry it padded. *)
Example paths_before_1000 :
  fetch_zip_path (day_url (mkdate 999 1 1)) DATA_DIR = "data/AIS_999_01_01.zip"
  /\ transient_zip (mkdate 999 1 1) = "data/AIS_0999_01_01.zip".
Proof. split; reflexivity. Qed.

Example stem_of_path :
  stem "data/AIS_2022_07_01.csv" = "AIS_2022_07_01"
  /\ stem "a/archive.tar.gz" = "archive.tar"
  /\ stem ".profile" = ".profile" /\ stem "name." = "name.".
Proof. repeat split; reflexivity. Qed.

Example generator_three_days :
  generate_dates "2022-01-30" "2022-02-01"
  = ([mkdate 2022 1 30; mkdate 2022 1 31; mkdate 2022 2 1], StopIteration).
Proof. reflexivity. Qed.

Example generator_empty_range :
  generate_dates "2022-01-05" "2022-01-04" = ([], StopIteration).
Proof. reflexivity. Qed.

Example generator_last_day :
  generate_dates "9999-12-30" "9999-12-31"
  = ([mkdate 9999 12 30; mkdate 9999 12 31],
     Raised (OverflowError "date value out of range")).
Proof. reflexivity. Qed.

Example excluded_types :
  Config.EXCLUDED_VESSEL_TYPES
  = [30; 36; 37; 60; 61; 62; 63; 64; 65; 66; 67; 68; 69].
Proof. reflexivity. Qed.

Example square_locations :
  Geo.locate (-141 # 2, 81 # 2)%Q Example.square = Geo.Interior
  /\ Geo.locate (-141 # 2, 40 # 1)%Q Example.square = Geo.Boundary
  /\ Geo.locate (-71 # 1, 40 # 1)%Q Example.square = Geo.Boundary
  /\ Geo.locate (-141 # 2, 50 # 1)%Q Example.square = Geo.Exterior.
Proof. do 3 (split; [vm_compute; reflexivity|]). vm_compute. reflexivity. Qed.

Example rows_kept_on_day1 :
  spatial_filter Example.leases Example.rows
  = [mkfiltered Example.inside_row "OCS-A 0501"].
Proof. vm_compute. reflexivity. Qed.

(** Four days from nothing: day 1 yields a file, day 2 cannot be
    fetched, day 3 yields no row, day 4 is not served. *)
Example run_of_four_days :
  fst (main_with "2022-01-01" "2022-01-04" Example.fresh) = Ok (Some (2, 2))
  /\ progress_file (snd (main_with "2022-01-01" "2022-01-04" Example.fresh))
     = Some ["2022-01-01"; "2022-01-03"]
  /\ data_files (snd (main_with "2022-01-01" "2022-01-04" Example.fresh)) = ∅
  /\ net_ops (snd (main_with "2022-01-01" "2022-01-04" Example.fresh)) = 4%nat.
Proof. do 3 (split; [vm_compute; reflexivity|]). vm_compute. reflexivity. Qed.

(** A second run over the same range retries the two failed days only. *)
Example second_run_retries_failures :
  attempts
    (snd (main_with "2022-01-01" "2022-01-04"
            (set_attempts []
               (snd (main_with "2022-01-01" "2022-01-04" Example.fresh)))))
  = [Example.day2; Example.day4].
Proof. vm_compute. reflexivity. Qed.

End ModelChecks.

(** ** The calendar *)

Module DatetimeFacts.

Import Datetime.

Lemma Zrange_forallb (f : Z -> bool) (k : Z) :
  forallb f (Zrange k) = true ->
  forall n, 0 <= n < k -> f n = true.
Proof.
  intros H n Hn. unfold Zrange in H.
  rewrite forallb_forall in H. apply H.
  apply in_map_iff. exists (Z.to_nat n). split; [lia|].
  apply in_seq. lia.
Qed.

Lemma days_before_year_succ y :
  days_before_year (y + 1) = days_before_year y + days_in_year y.
Proof.
  unfold days_in_year, is_leap, days_before_year.
  replace (y + 1 - 1) with y by lia.
  destruct (y mod 4 =? 0) eqn:H4; destruct (y mod 100 =? 0) eqn:H100;
    destruct (y mod 400 =? 0) eqn:H400; simpl;
    rewrite ?Z.eqb_eq, ?Z.eqb_neq in *;
    Z.to_euclidean_division_equations; lia.
Qed.

Lemma days_before_year_mono y1 y2 :
  y1 <= y2 -> days_before_year y1 <= days_before_year y2.
Proof. intros. unfold days_before_year. Z.to_euclidean_division_equations; lia. Qed.

Lemma days_in_year_pos y : 365 <= days_in_year y <= 366.
Proof. unfold days_in_year. destruct (is_leap y); lia. Qed.

Lemma month_cases m : 1 <= m <= 12 ->
  m = 1 \/ m = 2 \/ m = 3 \/ m = 4 \/ m = 5 \/ m = 6 \/ m = 7 \/ m = 8
  \/ m = 9 \/ m = 10 \/ m = 11 \/ m = 12.
Proof. lia. Qed.

Ltac each_month m H :=
  let C := fresh in
  pose proof (month_cases m H) as C;
  repeat (destruct C as [C | C]; [subst m | ]); [.. | subst m].

Lemma check_date_fields_spec y m d :
  check_date_fields y m d = true <->
  1 <= y <= 9999 /\ 1 <= m <= 12 /\ 1 <= d <= days_in_month y m.
Proof.
  unfold check_date_fields, MINYEAR, MAXYEAR.
  rewrite !andb_true_iff, !Z.leb_le. lia.
Qed.

(** Within a year the day number runs from 1 to the length of the year. *)
Lemma day_of_year_bounds y m d :
  1 <= m <= 12 -> 1 <= d <= days_in_month y m ->
  1 <= days_before_month y m + d <= days_in_year y.
Proof.
  intros Hm Hd. unfold days_before_month, days_in_month, days_in_year in *.
  each_month m Hm; destruct (is_leap y); simpl in *; lia.
Qed.

Lemma day_of_year_lt y m1 d1 m2 d2 :
  1 <= m1 <= 12 -> 1 <= m2 <= 12 ->
  1 <= d1 <= days_in_month y m1 -> 1 <= d2 <= days_in_month y m2 ->
  m1 < m2 ->
  days_before_month y m1 + d1 < days_before_month y m2 + d2.
Proof.
  intros Hm1 Hm2 Hd1 Hd2 Hlt.
  unfold days_before_month, days_in_month in *.
  each_month m1 Hm1; each_month m2 Hm2; try lia;
    destruct (is_leap y); simpl in *; lia.
Qed.

Lemma toordinal_bounds d :
  valid d -> 1 <= toordinal d <= MAXORDINAL.
Proof.
  unfold valid. rewrite check_date_fields_spec. intros (Hy & Hm & Hd).
  pose proof (day_of_year_bounds _ _ _ Hm Hd) as Hdoy.
  pose proof (days_before_year_succ (year d)) as Hs.
  pose proof (days_before_year_mono 1 (year d) ltac:(lia)) as H1.
  pose proof (days_before_year_mono (year d + 1) 10000 ltac:(lia)) as H2.
  change (days_before_year 1) with 0 in H1.
  change (days_before_year 10000) with 3652059 in H2.
  unfold toordinal, ymd2ord, MAXORDINAL. lia.
Qed.

Lemma toordinal_lt a b :
  valid a -> valid b -> date_leb b a = false -> toordinal a < toordinal b.
Proof.
  unfold valid. rewrite !check_date_fields_spec.
  intros (Hya & Hma & Hda) (Hyb & Hmb & Hdb) Hlt.
  unfold date_leb in Hlt.
  rewrite !orb_false_iff, !andb_false_iff, ?orb_false_iff in Hlt.
  rewrite ?andb_false_iff in Hlt.
  rewrite ?Z.ltb_ge, ?Z.eqb_neq, ?Z.leb_gt in Hlt.
  destruct Hlt as [Hy Hrest].
  unfold toordinal, ymd2ord.
  pose proof (day_of_year_bounds _ _ _ Hma Hda) as Hdoya.
  pose proof (day_of_year_bounds _ _ _ Hmb Hdb) as Hdoyb.
  destruct (Z.eq_dec (year a) (year b)) as [Heq | Hne].
  - rewrite Heq in *.
    destruct Hrest as [? | [Hm Hd]]; [lia|].
    destruct (Z.eq_dec (month a) (month b)) as [Hmeq | Hmne].
    + rewrite Hmeq in *. destruct Hd as [? | Hd]; lia.
    + pose proof (day_of_year_lt (year b) (month a) (day a) (month b) (day b)
                    Hma Hmb Hda Hdb ltac:(lia)). lia.
  - pose proof (days_before_year_succ (year a)) as Hs.
    pose proof (days_before_year_mono (year a + 1) (year b) ltac:(lia)). lia.
Qed.

Lemma date_leb_total a b : date_leb a b = false -> date_leb b a = true.
Proof.
  unfold date_leb. intros H.
  rewrite !orb_false_iff, !andb_false_iff, ?orb_false_iff in H.
  rewrite ?andb_false_iff in H.
  rewrite ?Z.ltb_ge, ?Z.eqb_neq, ?Z.leb_gt in H.
  rewrite !orb_true_iff, !andb_true_iff, ?orb_true_iff.
  rewrite ?andb_true_iff.
  rewrite ?Z.ltb_lt, ?Z.eqb_eq, ?Z.leb_le. lia.
Qed.

Lemma date_leb_antisym a b :
  date_leb a b = true -> date_leb b a = true -> a = b.
Proof.
  unfold date_leb. intros H1 H2.
  rewrite !orb_true_iff, !andb_true_iff, ?orb_true_iff in *.
  rewrite ?andb_true_iff in *.
  rewrite ?Z.ltb_lt, ?Z.eqb_eq, ?Z.leb_le in *.
  destruct a, b; simpl in *. f_equal; lia.
Qed.

(** The order of dates is the order of their ordinals. *)
Lemma date_leb_toordinal a b :
  valid a -> valid b ->
  date_leb a b = (toordinal a <=? toordinal b).
Proof.
  intros Ha Hb.
  destruct (date_leb a b) eqn:Hab; symmetry.
  - apply Z.leb_le.
    destruct (date_leb b a) eqn:Hba.
    + rewrite (date_leb_antisym _ _ Hab Hba). lia.
    + pose proof (toordinal_lt _ _ Ha Hb Hba). lia.
  - apply Z.leb_gt. apply toordinal_lt; auto.
Qed.

Lemma toordinal_inj a b :
  valid a -> valid b -> toordinal a = toordinal b -> a = b.
Proof.
  intros Ha Hb Heq. apply date_leb_antisym.
  - rewrite date_leb_toordinal by auto. apply Z.leb_le. lia.
  - rewrite date_leb_toordinal by auto. apply Z.leb_le. lia.
Qed.

Lemma month_day_checked :
  forallb (month_day_ok true) (Zrange 366) = true
  /\ forallb (month_day_ok false) (Zrange 365) = true.
Proof. split; vm_compute; reflexivity. Qed.

Lemma month_day_spec (leap : bool) (n : Z) :
  0 <= n < (if leap then 366 else 365) ->
  let m := fst (month_day leap n) in
  let d := snd (month_day leap n) in
  1 <= m <= 12
  /\ 1 <= d <= (if (m =? 2) && leap then 29 else DAYS_IN_MONTH m)
  /\ DAYS_BEFORE_MONTH m + (if (2 <? m) && leap then 1 else 0) + d = n + 1.
Proof.
  intros Hn.
  assert (month_day_ok leap n = true) as Hok.
  { destruct month_day_checked as [Ht Hf].
    destruct leap.
    - apply (Zrange_forallb _ 366 Ht). lia.
    - apply (Zrange_forallb _ 365 Hf). lia. }
  unfold month_day_ok in Hok. cbv zeta in *.
  rewrite !andb_true_iff, !Z.leb_le, Z.eqb_eq in Hok. lia.
Qed.

Lemma days_before_year_decomp n400 n100 n4 n1 :
  0 <= n100 <= 3 -> 0 <= n4 <= 24 -> 0 <= n1 <= 3 ->
  days_before_year (n400 * 400 + 1 + n100 * 100 + n4 * 4 + n1)
  = 146097 * n400 + 36524 * n100 + 1461 * n4 + 365 * n1.
Proof.
  intros. unfold days_before_year.
  Z.to_euclidean_division_equations; lia.
Qed.

Lemma is_leap_decomp n400 n100 n4 n1 :
  0 <= n100 <= 3 -> 0 <= n4 <= 24 -> 0 <= n1 <= 3 ->
  is_leap (n400 * 400 + 1 + n100 * 100 + n4 * 4 + n1)
  = (n1 =? 3) && (negb (n4 =? 24) || (n100 =? 3)).
Proof.
  intros. unfold is_leap.
  destruct (n1 =? 3) eqn:E1; destruct (n4 =? 24) eqn:E4;
    destruct (n100 =? 3) eqn:E100; simpl;
    rewrite ?Z.eqb_eq, ?Z.eqb_neq in *;
    rewrite ?andb_true_iff, ?andb_false_iff, ?orb_true_iff, ?orb_false_iff,
      ?negb_true_iff, ?negb_false_iff, ?Z.eqb_eq, ?Z.eqb_neq;
    Z.to_euclidean_division_equations; lia.
Qed.

(** [ord2ymd] inverts [ymd2ord] and yields a date of the calendar. *)
Lemma fromordinal_spec n :
  1 <= n <= MAXORDINAL ->
  valid (fromordinal n) /\ toordinal (fromordinal n) = n.
Proof.
  intros Hn. unfold fromordinal, ord2ymd, MAXORDINAL, DI400Y, DI100Y, DI4Y in *.
  set (n0 := n - 1).
  set (n400 := n0 / 146097). set (r1 := n0 mod 146097).
  set (n100 := r1 / 36524). set (r2 := r1 mod 36524).
  set (n4 := r2 / 1461). set (r3 := r2 mod 1461).
  set (n1 := r3 / 365). set (r4 := r3 mod 365).
  assert (n0 = 146097 * n400 + r1 /\ 0 <= r1 < 146097) as [E1 B1]
    by (subst n400 r1; Z.to_euclidean_division_equations; lia).
  assert (r1 = 36524 * n100 + r2 /\ 0 <= r2 < 36524) as [E2 B2]
    by (subst n100 r2; Z.to_euclidean_division_equations; lia).
  assert (r2 = 1461 * n4 + r3 /\ 0 <= r3 < 1461) as [E3 B3]
    by (subst n4 r3; Z.to_euclidean_division_equations; lia).
  assert (r3 = 365 * n1 + r4 /\ 0 <= r4 < 365) as [E4 B4]
    by (subst n1 r4; Z.to_euclidean_division_equations; lia).
  assert (0 <= n400 <= 24) as B400 by (subst n0; lia).
  assert (0 <= n100 <= 4) as B100 by lia.
  assert (0 <= n4 <= 24) as Bn4 by lia.
  assert (0 <= n1 <= 4) as Bn1 by lia.
  clearbody n400 r1 n100 r2 n4 r3 n1 r4.
  unfold valid, toordinal. rewrite check_date_fields_spec.
  destruct ((n1 =? 4) || (n100 =? 4)) eqn:Hspecial.
  - (* the last day of a leap year *)
    cbn [year month day].
    assert (exists m100 m4,
               0 <= m100 <= 3 /\ 0 <= m4 <= 24
               /\ (m4 = 24 -> m100 = 3)
               /\ n400 * 400 + 1 + n100 * 100 + n4 * 4 + n1 - 1
                  = n400 * 400 + 1 + m100 * 100 + m4 * 4 + 3
               /\ n0 = 146097 * n400 + 36524 * m100 + 1461 * m4 + 365 * 3 + 365)
      as (m100 & m4 & Bm100 & Bm4 & Him & EY & En0).
    { apply orb_true_iff in Hspecial. rewrite !Z.eqb_eq in Hspecial.
      destruct (Z.eq_dec n100 4) as [H4|H4].
      - exists 3, 24. lia.
      - exists n100, n4. lia. }
    rewrite EY.
    pose proof (days_before_year_decomp n400 m100 m4 3 Bm100 Bm4 ltac:(lia)) as Hd.
    pose proof (is_leap_decomp n400 m100 m4 3 Bm100 Bm4 ltac:(lia)) as Hl.
    assert (is_leap (n400 * 400 + 1 + m100 * 100 + m4 * 4 + 3) = true) as Hleap.
    { rewrite Hl. simpl. apply orb_true_iff.
      destruct (Z.eq_dec m4 24) as [H24|H24].
      - right. apply Z.eqb_eq. auto.
      - left. apply negb_true_iff, Z.eqb_neq. auto. }
    unfold ymd2ord, days_in_month, days_before_month. rewrite Hleap, Hd.
    simpl. subst n0. lia.
  - apply orb_false_iff in Hspecial. rewrite !Z.eqb_neq in Hspecial.
    cbn [year month day].
    pose proof (days_before_year_decomp n400 n100 n4 n1 ltac:(lia) Bn4 ltac:(lia)) as Hd.
    pose proof (is_leap_decomp n400 n100 n4 n1 ltac:(lia) Bn4 ltac:(lia)) as Hl.
    rewrite <- Hl.
    set (y := n400 * 400 + 1 + n100 * 100 + n4 * 4 + n1) in *.
    pose proof (month_day_spec (is_leap y) r4
                  ltac:(destruct (is_leap y); lia)) as Hmd.
    cbv zeta in Hmd.
    set (m := fst (month_day (is_leap y) r4)) in *.
    set (d := snd (month_day (is_leap y) r4)) in *.
    destruct Hmd as (Hm & Hdd & Hsum).
    unfold ymd2ord, days_in_month, days_before_month.
    subst n0. subst y. lia.
Qed.

Lemma fromordinal_toordinal d :
  valid d -> fromordinal (toordinal d) = d.
Proof.
  intros Hd. pose proof (toordinal_bounds d Hd) as Hb.
  destruct (fromordinal_spec _ Hb) as [Hv Ho].
  apply toordinal_inj; auto.
Qed.

End DatetimeFacts.

(** ** Formatting and parsing of dates *)

Module StrFacts.

Import Datetime DatetimeFacts.

Lemma is_digit_neq (c k : ascii) :
  is_digit c = true -> is_digit k = false ->
  Ascii.eqb c k = false /\ Ascii.eqb k c = false.
Proof.
  intros Hc Hk. split; apply Ascii.eqb_neq; intros E; subst; congruence.
Qed.

Lemma is_digit_not_space c : is_digit c = true -> Str.is_space c = false.
Proof.
  unfold is_digit, digit_val, Str.is_space.
  destruct ((48 <=? Z.of_nat (nat_of_ascii c)) && (Z.of_nat (nat_of_ascii c) <=? 57)) eqn:E;
    [|discriminate].
  intros _. apply andb_true_iff in E. rewrite !Z.leb_le in E.
  apply orb_false_iff. split; apply andb_false_iff; rewrite !Z.leb_gt; lia.
Qed.

Lemma digit_char_spec k :
  0 <= k <= 9 ->
  is_digit (Str.digit_char k) = true /\ digit_val (Str.digit_char k) = Some k.
Proof.
  intros Hk.
  assert (k = 0 \/ k = 1 \/ k = 2 \/ k = 3 \/ k = 4 \/ k = 5 \/ k = 6
          \/ k = 7 \/ k = 8 \/ k = 9) as H by lia.
  repeat (destruct H as [-> | H]; [split; reflexivity|]).
  subst k. split; reflexivity.
Qed.

Lemma digits_aux_step fuel n acc :
  Str.digits_aux (S fuel) n acc =
  if n <? 10 then String (Str.digit_char (n mod 10)) acc
  else Str.digits_aux fuel (n / 10) (String (Str.digit_char (n mod 10)) acc).
Proof. reflexivity. Qed.

(** Enough fuel for the digits of a number below 10000. *)
Lemma of_Z_fuel n :
  10 <= n -> exists f, Z.to_nat (Z.log2 n) = S (S (S f)).
Proof.
  intros Hn. pose proof (Z.log2_le_mono 10 n Hn) as H.
  change (Z.log2 10) with 3 in H.
  exists (Z.to_nat (Z.log2 n) - 3)%nat. lia.
Qed.

(** The decimal digits of a number below 10000, units last. *)
Lemma of_Z_digits n :
  0 <= n <= 9999 ->
  let d0 := Str.digit_char (n mod 10) in
  let d1 := Str.digit_char (n / 10 mod 10) in
  let d2 := Str.digit_char (n / 10 / 10 mod 10) in
  let d3 := Str.digit_char (n / 10 / 10 / 10 mod 10) in
  Str.of_Z n =
  if n <? 10 then String d0 ""
  else if n <? 100 then String d1 (String d0 "")
  else if n <? 1000 then String d2 (String d1 (String d0 ""))
  else String d3 (String d2 (String d1 (String d0 ""))).
Proof.
  intros Hn d0 d1 d2 d3. unfold Str.of_Z.
  replace (n <? 0) with false by (symmetry; apply Z.ltb_ge; lia).
  rewrite digits_aux_step.
  destruct (n <? 10) eqn:H10; [reflexivity|].
  apply Z.ltb_ge in H10.
  destruct (of_Z_fuel n H10) as (f & ->).
  rewrite digits_aux_step.
  replace (n / 10 <? 10) with (n <? 100)
    by (destruct (n <? 100) eqn:E; symmetry;
        [apply Z.ltb_lt in E; apply Z.ltb_lt | apply Z.ltb_ge in E; apply Z.ltb_ge];
        Z.to_euclidean_division_equations; lia).
  destruct (n <? 100) eqn:H100; [reflexivity|].
  rewrite digits_aux_step.
  replace (n / 10 / 10 <? 10) with (n <? 1000)
    by (destruct (n <? 1000) eqn:E; symmetry;
        [apply Z.ltb_lt in E; apply Z.ltb_lt | apply Z.ltb_ge in E; apply Z.ltb_ge];
        Z.to_euclidean_division_equations; lia).
  destruct (n <? 1000) eqn:H1000; [reflexivity|].
  rewrite digits_aux_step.
  replace (n / 10 / 10 / 10 <? 10) with true
    by (symmetry; apply Z.ltb_lt; Z.to_euclidean_division_equations; lia).
  reflexivity.
Qed.

Lemma zfill4_digits n :
  0 <= n <= 9999 ->
  Str.zfill 4 n =
  String (Str.digit_char (n / 10 / 10 / 10 mod 10))
    (String (Str.digit_char (n / 10 / 10 mod 10))
       (String (Str.digit_char (n / 10 mod 10))
          (String (Str.digit_char (n mod 10)) ""))).
Proof.
  intros Hn. unfold Str.zfill. rewrite (of_Z_digits n Hn). cbv zeta.
  destruct (n <? 10) eqn:H10;
    [|destruct (n <? 100) eqn:H100; [|destruct (n <? 1000) eqn:H1000]];
    rewrite ?Z.ltb_lt, ?Z.ltb_ge in *.
  - replace (n / 10 / 10 / 10 mod 10) with 0
      by (Z.to_euclidean_division_equations; lia).
    replace (n / 10 / 10 mod 10) with 0
      by (Z.to_euclidean_division_equations; lia).
    replace (n / 10 mod 10) with 0
      by (Z.to_euclidean_division_equations; lia).
    reflexivity.
  - replace (n / 10 / 10 / 10 mod 10) with 0
      by (Z.to_euclidean_division_equations; lia).
    replace (n / 10 / 10 mod 10) with 0
      by (Z.to_euclidean_division_equations; lia).
    reflexivity.
  - replace (n / 10 / 10 / 10 mod 10) with 0
      by (Z.to_euclidean_division_equations; lia).
    reflexivity.
  - reflexivity.
Qed.

Lemma zfill2_digits n :
  0 <= n <= 99 ->
  Str.zfill 2 n =
  String (Str.digit_char (n / 10 mod 10)) (String (Str.digit_char (n mod 10)) "").
Proof.
  intros Hn. unfold Str.zfill. rewrite (of_Z_digits n ltac:(lia)). cbv zeta.
  destruct (n <? 10) eqn:H10; rewrite ?Z.ltb_lt, ?Z.ltb_ge in *.
  - replace (n / 10 mod 10) with 0
      by (Z.to_euclidean_division_equations; lia).
    reflexivity.
  - replace (n <? 100) with true by (symmetry; apply Z.ltb_lt; lia).
    reflexivity.
Qed.

Lemma of_Z_zfill4 n : 1000 <= n <= 9999 -> Str.of_Z n = Str.zfill 4 n.
Proof.
  intros Hn. rewrite (zfill4_digits n ltac:(lia)), (of_Z_digits n ltac:(lia)).
  cbv zeta.
  replace (n <? 10) with false by (symmetry; apply Z.ltb_ge; lia).
  replace (n <? 100) with false by (symmetry; apply Z.ltb_ge; lia).
  replace (n <? 1000) with false by (symmetry; apply Z.ltb_ge; lia).
  reflexivity.
Qed.

Lemma zfill4_spec n : 0 <= n <= 9999 ->
  exists a b c d,
    Str.zfill 4 n = String a (String b (String c (String d "")))
    /\ is_digit a = true /\ is_digit b = true /\ is_digit c = true
    /\ is_digit d = true
    /\ parse_digits (Str.zfill 4 n) 0 = Some n.
Proof.
  intros Hn. rewrite (zfill4_digits n Hn).
  destruct (digit_char_spec (n / 10 / 10 / 10 mod 10)) as [Ha Pa];
    [Z.to_euclidean_division_equations; lia|].
  destruct (digit_char_spec (n / 10 / 10 mod 10)) as [Hb Pb];
    [Z.to_euclidean_division_equations; lia|].
  destruct (digit_char_spec (n / 10 mod 10)) as [Hc Pc];
    [Z.to_euclidean_division_equations; lia|].
  destruct (digit_char_spec (n mod 10)) as [Hd Pd];
    [Z.to_euclidean_division_equations; lia|].
  eexists _, _, _, _. split; [reflexivity|].
  repeat (split; [assumption|]).
  cbn [parse_digits]. rewrite Pa, Pb, Pc, Pd. f_equal.
  Z.to_euclidean_division_equations; lia.
Qed.

Lemma zfill2_spec n : 0 <= n <= 99 ->
  exists a b,
    Str.zfill 2 n = String a (String b "")
    /\ is_digit a = true /\ is_digit b = true
    /\ parse_digits (Str.zfill 2 n) 0 = Some n.
Proof.
  intros Hn. rewrite (zfill2_digits n Hn).
  destruct (digit_char_spec (n / 10 mod 10)) as [Ha Pa];
    [Z.to_euclidean_division_equations; lia|].
  destruct (digit_char_spec (n mod 10)) as [Hb Pb];
    [Z.to_euclidean_division_equations; lia|].
  eexists _, _. split; [reflexivity|].
  repeat (split; [assumption|]).
  cbn [parse_digits]. rewrite Pa, Pb. f_equal.
  Z.to_euclidean_division_equations; lia.
Qed.

Lemma days_in_month_le y m : days_in_month y m <= 31.
Proof.
  unfold days_in_month. destruct ((m =? 2) && is_leap y); [lia|].
  unfold DAYS_IN_MONTH.
  repeat match goal with
         | |- context [match ?x with _ => _ end] => destruct x
         end; lia.
Qed.

(** The text of a date of the calendar: ten characters, digits around
    two dashes. *)
Lemma isoformat_shape d :
  valid d ->
  exists y1 y2 y3 y4 m1 m2 d1 d2,
    Str.zfill 4 (year d) = String y1 (String y2 (String y3 (String y4 "")))
    /\ Str.zfill 2 (month d) = String m1 (String m2 "")
    /\ Str.zfill 2 (day d) = String d1 (String d2 "")
    /\ Forall (fun c => is_digit c = true) [y1; y2; y3; y4; m1; m2; d1; d2]
    /\ parse_digits (Str.zfill 4 (year d)) 0 = Some (year d)
    /\ parse_digits (Str.zfill 2 (month d)) 0 = Some (month d)
    /\ parse_digits (Str.zfill 2 (day d)) 0 = Some (day d).
Proof.
  unfold valid, check_date_fields, MINYEAR, MAXYEAR.
  rewrite !andb_true_iff, !Z.leb_le. intros Hv.
  pose proof (days_in_month_le (year d) (month d)).
  destruct (zfill4_spec (year d) ltac:(lia)) as (y1 & y2 & y3 & y4 & Ey & ? & ? & ? & ? & Py).
  destruct (zfill2_spec (month d) ltac:(lia)) as (m1 & m2 & Em & ? & ? & Pm).
  destruct (zfill2_spec (day d) ltac:(lia)) as (d1 & d2 & Ed & ? & ? & Pd).
  exists y1, y2, y3, y4, m1, m2, d1, d2.
  repeat split; auto. repeat constructor; auto.
Qed.

Ltac digits_ne :=
  repeat match goal with
    | H : is_digit ?c = true |- context [Ascii.eqb ?c ?k] =>
        rewrite (proj1 (is_digit_neq c k H eq_refl))
    | H : is_digit ?c = true |- context [Ascii.eqb ?k ?c] =>
        rewrite (proj2 (is_digit_neq c k H eq_refl))
    | H : is_digit ?c = true |- context [Str.is_space ?c] =>
        rewrite (is_digit_not_space c H)
    end.

Ltac iso_shape d Hd :=
  let H := fresh in
  destruct (isoformat_shape d Hd)
    as (?y1 & ?y2 & ?y3 & ?y4 & ?m1 & ?m2 & ?d1 & ?d2
        & ?Ey & ?Em & ?Ed & H & ?Py & ?Pm & ?Pd);
  repeat match type of H with
    | Forall _ (_ :: _) => apply Forall_cons_1 in H; destruct H as [? H]
    end; clear H.



Lemma isoformat_nonempty d : valid d -> String.eqb (isoformat d) "" = false.
Proof.
  intros Hd. iso_shape d Hd. unfold isoformat. rewrite Ey. reflexivity.
Qed.



Lemma fromisoformat_valid s d : fromisoformat s = Ok d -> valid d.
Proof.
  unfold fromisoformat.
  repeat match goal with
    | |- context [if ?b then _ else _] => destruct b eqn:?
    | |- context [match ?x with _ => _ end] => destruct x eqn:?
    end; try discriminate.
  intros E. inversion E; subst. assumption.
Qed.

End StrFacts.

(** ** Rings and bounding boxes *)

Module GeoFacts.

Import Geo.

Local Open Scope Q_scope.























End GeoFacts.

(** ** The date generator *)

Module GenerateFacts.

Import Datetime DatetimeFacts StrFacts BatchProcess.

Lemma ord_range_S a n :
  ord_range a (S n) = fromordinal a :: ord_range (a + 1) n.
Proof.
  unfold ord_range. cbn [seq map]. rewrite Z.add_0_r. f_equal.
  rewrite <- seq_shift, map_map. apply map_ext. intros k. f_equal. lia.
Qed.

Lemma date_range_ord s e :
  date_range s e
  = ord_range (toordinal s) (Z.to_nat (toordinal e - toordinal s + 1)).
Proof. reflexivity. Qed.

Lemma add_days_next c :
  valid c -> toordinal c < MAXORDINAL ->
  add_days c 1 = Ok (fromordinal (toordinal c + 1)).
Proof.
  intros Hc Hlt. pose proof (toordinal_bounds c Hc). unfold add_days.
  replace (0 <? toordinal c + 1) with true by (symmetry; apply Z.ltb_lt; lia).
  replace (toordinal c + 1 <=? MAXORDINAL) with true
    by (symmetry; apply Z.leb_le; lia).
  reflexivity.
Qed.

Lemma add_days_overflow c :
  valid c -> toordinal c = MAXORDINAL ->
  add_days c 1 = Raise (OverflowError "date value out of range").
Proof.
  intros Hc Heq. unfold add_days. rewrite Heq.
  replace (MAXORDINAL + 1 <=? MAXORDINAL) with false
    by (symmetry; apply Z.leb_gt; lia).
  rewrite andb_false_r. reflexivity.
Qed.

(** The loop yields the days from [current] to [end_date] and stops by
    its own test, except past the last day of the calendar, where the
    increment overflows after the last yield. *)
Lemma generate_loop_spec fuel : forall c e,
  valid c -> valid e ->
  (Z.to_nat (toordinal e - toordinal c + 1) < fuel)%nat ->
  generate_loop fuel c e
  = (date_range c e,
     if toordinal e <? MAXORDINAL then StopIteration
     else Raised (OverflowError "date value out of range")).
Proof.
  induction fuel as [|fuel IH]; intros c e Hc He Hfuel; [lia|].
  pose proof (toordinal_bounds c Hc) as Bc.
  pose proof (toordinal_bounds e He) as Be.
  cbn [generate_loop]. rewrite (date_leb_toordinal c e Hc He).
  destruct (toordinal c <=? toordinal e) eqn:Hle.
  - apply Z.leb_le in Hle.
    rewrite date_range_ord.
    replace (Z.to_nat (toordinal e - toordinal c + 1))
      with (S (Z.to_nat (toordinal e - toordinal c))) in * by lia.
    rewrite ord_range_S, (fromordinal_toordinal c Hc).
    destruct (Z.eq_dec (toordinal c) MAXORDINAL) as [Hmax | Hnmax].
    + rewrite (add_days_overflow c Hc Hmax).
      replace (toordinal e - toordinal c) with 0 by lia.
      replace (toordinal e <? MAXORDINAL) with false
        by (symmetry; apply Z.ltb_ge; lia).
      reflexivity.
    + rewrite (add_days_next c Hc ltac:(lia)).
      destruct (fromordinal_spec (toordinal c + 1) ltac:(lia)) as [Hv Ho].
      rewrite (IH _ e Hv He) by (rewrite Ho; lia).
      rewrite date_range_ord, Ho.
      replace (toordinal e - (toordinal c + 1) + 1)
        with (toordinal e - toordinal c) by lia.
      reflexivity.
  - apply Z.leb_gt in Hle.
    rewrite date_range_ord.
    replace (Z.to_nat (toordinal e - toordinal c + 1)) with O by lia.
    replace (toordinal e <? MAXORDINAL) with true
      by (symmetry; apply Z.ltb_lt; lia).
    reflexivity.
Qed.

Lemma generate_dates_spec start end_ s e :
  fromisoformat start = Ok s -> fromisoformat end_ = Ok e ->
  generate_dates start end_
  = (date_range s e,
     if toordinal e <? MAXORDINAL then StopIteration
     else Raised (OverflowError "date value out of range")).
Proof.
  intros Hs He. unfold generate_dates. rewrite Hs, He.
  apply generate_loop_spec.
  - exact (fromisoformat_valid _ _ Hs).
  - exact (fromisoformat_valid _ _ He).
  - unfold loop_fuel. lia.
Qed.

(** The fuel [generate_dates] gives its loop is never used up. *)
Lemma generate_dates_fuel start end_ :
  snd (generate_dates start end_) <> OutOfFuel.
Proof.
  destruct (fromisoformat start) as [s|e1] eqn:Hs.
  - destruct (fromisoformat end_) as [e|e2] eqn:He.
    + rewrite (generate_dates_spec start end_ s e Hs He). cbn [snd].
      destruct (toordinal e <? MAXORDINAL); discriminate.
    + unfold generate_dates. rewrite Hs, He. discriminate.
  - unfold generate_dates. rewrite Hs. discriminate.
Qed.

Lemma in_ord_range a n d :
  In d (ord_range a n) <->
  exists k, 0 <= k < Z.of_nat n /\ d = fromordinal (a + k).
Proof.
  unfold ord_range. rewrite in_map_iff. split.
  - intros (k & <- & Hk). apply in_seq in Hk.
    exists (Z.of_nat k). split; [lia | reflexivity].
  - intros (k & Hk & ->). exists (Z.to_nat k). split.
    + f_equal. lia.
    + apply in_seq. lia.
Qed.

Lemma date_le_toordinal a b :
  valid a -> valid b -> (date_le a b <-> toordinal a <= toordinal b).
Proof.
  intros Ha Hb. unfold date_le. rewrite date_leb_toordinal by assumption.
  apply Z.leb_le.
Qed.

Lemma date_lt_toordinal a b :
  valid a -> valid b -> (date_lt a b <-> toordinal a < toordinal b).
Proof.
  intros Ha Hb. unfold date_lt. rewrite date_leb_toordinal by assumption.
  rewrite Z.leb_gt. reflexivity.
Qed.

(** The range holds exactly the days of the calendar between its ends. *)
Lemma in_date_range s e d :
  valid s -> valid e ->
  (In d (date_range s e) <-> valid d /\ date_le s d /\ date_le d e).
Proof.
  intros Hs He.
  pose proof (toordinal_bounds s Hs) as Bs.
  pose proof (toordinal_bounds e He) as Be.
  rewrite date_range_ord, in_ord_range. split.
  - intros (k & Hk & ->).
    destruct (fromordinal_spec (toordinal s + k) ltac:(lia)) as [Hv Ho].
    split; [exact Hv|].
    rewrite !date_le_toordinal by assumption. lia.
  - intros (Hd & Hsd & Hde).
    rewrite date_le_toordinal in Hsd, Hde by assumption.
    exists (toordinal d - toordinal s). split; [lia|].
    replace (toordinal s + (toordinal d - toordinal s)) with (toordinal d)
      by lia.
    symmetry. apply fromordinal_toordinal. exact Hd.
Qed.

Lemma ord_range_sorted n : forall a,
  1 <= a -> a + Z.of_nat n - 1 <= MAXORDINAL ->
  StronglySorted date_lt (ord_range a n).
Proof.
  induction n as [|n IH]; intros a Ha Hmax; [constructor|].
  rewrite ord_range_S. constructor.
  - apply IH; lia.
  - apply List.Forall_forall. intros d Hd. apply in_ord_range in Hd.
    destruct Hd as (k & Hk & ->).
    destruct (fromordinal_spec a ltac:(lia)) as [Hva Hoa].
    destruct (fromordinal_spec (a + 1 + k) ltac:(lia)) as [Hvk Hok].
    apply date_lt_toordinal; try assumption. lia.
Qed.

Lemma date_range_sorted s e :
  valid s -> valid e -> StronglySorted date_lt (date_range s e).
Proof.
  intros Hs He.
  pose proof (toordinal_bounds s Hs) as Bs.
  pose proof (toordinal_bounds e He) as Be.
  rewrite date_range_ord. apply ord_range_sorted; lia.
Qed.

Lemma date_lt_irrefl d : ~ date_lt d d.
Proof.
  unfold date_lt, date_leb. rewrite !Z.ltb_irrefl, !Z.eqb_refl, Z.leb_refl.
  cbn. discriminate.
Qed.

Lemma sorted_NoDup (l : list date) :
  StronglySorted date_lt l -> List.NoDup l.
Proof.
  induction 1 as [|d l Hs IH Hall]; constructor; [|exact IH].
  intros Hin. rewrite List.Forall_forall in Hall.
  exact (date_lt_irrefl d (Hall d Hin)).
Qed.

Lemma date_range_valid s e :
  valid s -> valid e -> Forall valid (date_range s e).
Proof.
  intros Hs He. apply List.Forall_forall. intros d Hd.
  apply (in_date_range s e d Hs He) in Hd. tauto.
Qed.

End GenerateFacts.

(** ** The pipeline *)

Module PipelineFacts.

Import Datetime DatetimeFacts StrFacts World DownloadAis ProcessAis
  BatchProcess.








Ltac split_matches :=
  repeat match goal with
    | |- context [match ?x with _ => _ end] => destruct x eqn:?
    end.

Lemma keeps_ret {A V} (f : world -> V) (a : A) : keeps f (ret a).
Proof. intros w. reflexivity. Qed.

Lemma keeps_raise {A V} (f : world -> V) e : keeps f (@raise A e).
Proof. intros w. reflexivity. Qed.

Lemma keeps_get {A V} (f : world -> V) (g : world -> A) : keeps f (get g).
Proof. intros w. reflexivity. Qed.

Lemma keeps_modify {V} (f : world -> V) (g : world -> world) :
  (forall w, f (g w) = f w) -> keeps f (modify g).
Proof. intros H w. apply H. Qed.

Lemma keeps_bind {A B V} (f : world -> V) (m : M A) (k : A -> M B) :
  keeps f m -> (forall a, keeps f (k a)) -> keeps f (bind m k).
Proof.
  intros Hm Hk w. unfold bind. specialize (Hm w).
  destruct (m w) as [[a|e] w1]; cbn in *.
  - rewrite (Hk a w1). exact Hm.
  - exact Hm.
Qed.

Lemma keeps_if {A V} (f : world -> V) (b : bool) (m1 m2 : M A) :
  keeps f m1 -> keeps f m2 -> keeps f (if b then m1 else m2).
Proof. destruct b; auto. Qed.

Ltac keeps_step :=
  first [ apply keeps_ret | apply keeps_raise | apply keeps_get
        | apply keeps_bind; [|intros ?] | apply keeps_if
        | apply keeps_modify; intros ?; reflexivity ].


Lemma load_lease_boundaries_frame : keeps beside_sink load_lease_boundaries.
Proof.
  intros w. unfold load_lease_boundaries. split_matches; reflexivity.
Qed.

Lemma process_ais_frame p o n : keeps beside_sink (process_ais p o n).
Proof.
  unfold process_ais, get_lease_bounds.
  repeat (keeps_step || apply load_lease_boundaries_frame).
  - intros w. unfold scan_csv. split_matches; reflexivity.
  - intros w. unfold to_file. split_matches; reflexivity.
Qed.





Lemma load_completed_dates_spec w :
  load_completed_dates w = (Ok (ledger w), w).
Proof. reflexivity. Qed.








(** With the last day of the calendar as its end, the generator
    overflows after its last yield and [main] stops there. *)
Lemma main_with_overflow start end_ s e w :
  fromisoformat start = Ok s -> fromisoformat end_ = Ok e ->
  toordinal e = MAXORDINAL ->
  main_with start end_ w
  = (Raise (OverflowError "date value out of range"), w).
Proof.
  intros Hs He Hmax.
  unfold main_with. unfold bind at 1. rewrite load_completed_dates_spec.
  rewrite (GenerateFacts.generate_dates_spec start end_ s e Hs He).
  replace (toordinal e <? MAXORDINAL) with false
    by (symmetry; apply Z.ltb_ge; lia).
  reflexivity.
Qed.

End PipelineFacts.

(** ** The filter and the sink *)

Module ProcessFacts.

Import Geo GeoFacts World ProcessAis PipelineFacts.

Lemma load_lease_boundaries_cached w leases w1 :
  load_lease_boundaries w = (Ok leases, w1) ->
  load_lease_boundaries w1 = (Ok leases, w1).
Proof.
  unfold load_lease_boundaries.
  destruct (lease_cache w) as [g|] eqn:Hc.
  - intros E. inversion E; subst. rewrite Hc. reflexivity.
  - destruct (lease_source w) as [g|]; [|discriminate].
    intros E. inversion E; subst. reflexivity.
Qed.

Lemma sjoin_within_nil leases : sjoin_within [] leases = [].
Proof. reflexivity. Qed.

(** [process_ais] step by step: the polygons, the rows of the file,
    the rows kept, and the write unless nothing is kept. *)
Lemma process_ais_spec p o n w :
  process_ais p o (Some n) w =
  match load_lease_boundaries w with
  | (Raise e, w1) => (Raise e, w1)
  | (Ok leases, w1) =>
      match scan_csv p w1 with
      | (Raise e, _) => (Raise e, w1)
      | (Ok rows, _) =>
          match spatial_filter leases rows with
          | [] => (Ok None, w1)
          | result =>
              match to_file (gpkg_path o n) result w1 with
              | (Ok _, w2) => (Ok (Some (gpkg_path o n)), w2)
              | (Raise e, w2) => (Raise e, w2)
              end
          end
      end
  end.
Proof.
  unfold process_ais. unfold bind at 1.
  destruct (load_lease_boundaries w) as [[leases|e] w1] eqn:Hload;
    [|reflexivity].
  unfold bind at 1, get_lease_bounds, bind at 1.
  rewrite (load_lease_boundaries_cached _ _ _ Hload). unfold ret at 1.
  unfold bind at 1.
  assert (forall r w', scan_csv p w1 = (r, w') -> w' = w1) as Hscan.
  { unfold scan_csv. intros r w'.
    repeat match goal with
      | |- context [match ?x with _ => _ end] => destruct x
      end; intros E; inversion E; reflexivity. }
  destruct (scan_csv p w1) as [[rows|e] w1'] eqn:Hs;
    rewrite (Hscan _ _ eq_refl); [|reflexivity].
  unfold spatial_filter. fold (bounds_of leases).
  destruct (List.filter (prefilter (bounds_of leases)) rows) as [|r0 df] eqn:Hdf.
  - reflexivity.
  - cbn [List.length Nat.eqb].
    destruct (map drop_index_right (sjoin_within (r0 :: df) leases))
      as [|f0 fs] eqn:Hres.
    + reflexivity.
    + cbn [List.length Nat.eqb]. unfold bind, ret. fold (gpkg_path o n).
      destruct (to_file (gpkg_path o n) (f0 :: fs) w1) as [[u|e] w2];
        reflexivity.
Qed.

Lemma in_indexed i0 leases i l :
  In (i, l) (indexed i0 leases) <->
  (i0 <= i)%nat /\ leases !! (i - i0)%nat = Some l.
Proof.
  revert i0. induction leases as [|l0 ls IH]; intros i0; cbn [indexed In].
  - split; [tauto|]. intros [_ H]. discriminate.
  - rewrite IH. split.
    + intros [E | [Hle Hl]].
      * inversion E; subst. split; [lia|]. rewrite Nat.sub_diag. reflexivity.
      * split; [lia|]. replace (i - i0)%nat with (S (i - S i0)) by lia.
        exact Hl.
    + intros [Hle Hl]. destruct (Nat.eq_dec i i0) as [->|Hne].
      * rewrite Nat.sub_diag in Hl. cbn in Hl. left. congruence.
      * right. split; [lia|].
        replace (i - i0)%nat with (S (i - S i0)) in Hl by lia. exact Hl.
Qed.

(** The rows of the join: one for each row of the left frame and each
    lease, at its position, that the point of the row is within. *)
Lemma in_sjoin_within rows leases j :
  In j (sjoin_within rows leases) <->
  exists l,
    In (left_row j) rows
    /\ leases !! index_right j = Some l
    /\ within (Point (left_row j)) (lease_geometry l) = true
    /\ joined_lease j = lease_number l.
Proof.
  unfold sjoin_within. rewrite in_flat_map. split.
  - intros (r & Hr & Hj). apply in_map_iff in Hj.
    destruct Hj as ([i l] & <- & Hil). apply List.filter_In in Hil.
    destruct Hil as [Hil Hw]. apply in_indexed in Hil.
    rewrite Nat.sub_0_r in Hil. exists l. cbn in *. tauto.
  - intros (l & Hr & Hl & Hw & Hn). exists (left_row j). split; [exact Hr|].
    apply in_map_iff. exists (index_right j, l). split.
    + destruct j; cbn in *. congruence.
    + apply List.filter_In. split; [|exact Hw].
      apply in_indexed. rewrite Nat.sub_0_r. split; [lia | exact Hl].
Qed.

End ProcessFacts.

(** ** The two stages of the filter *)

Module FilterFacts.

Import Geo GeoFacts World ProcessAis PipelineFacts ProcessFacts.

Lemma is_in_excluded vt :
  is_in vt Config.EXCLUDED_VESSEL_TYPES = true <-> excluded_type vt.
Proof.
  unfold is_in, excluded_type. rewrite existsb_exists. split.
  - intros (x & Hin & Heq). apply Z.eqb_eq in Heq. subst x.
    cbv in Hin. intuition lia.
  - intros H. exists vt. split; [|apply Z.eqb_refl].
    unfold Config.EXCLUDED_VESSEL_TYPES. apply in_app_iff.
    destruct H as [-> | [-> | [-> | H]]]; [cbn; tauto ..|].
    right. unfold Config.range. apply in_map_iff.
    exists (Z.to_nat (vt - 60)). split; [lia|]. apply in_seq. lia.
Qed.

Lemma in_box_iff (b : bounds_dict) r :
  ge_bound (LAT r) (min_lat b) && le_bound (LAT r) (max_lat b)
  && ge_bound (LON r) (min_lon b) && le_bound (LON r) (max_lon b) = true
  <-> inside_box b r.
Proof.
  unfold inside_box, ge_bound, le_bound. rewrite !andb_true_iff. split.
  - intros [[[H1 H2] H3] H4].
    destruct (min_lat b) as [a|]; [|discriminate].
    destruct (max_lat b) as [c|]; [|discriminate].
    destruct (min_lon b) as [d|]; [|discriminate].
    destruct (max_lon b) as [e|]; [|discriminate].
    apply Qle_bool_iff in H1, H2, H3, H4.
    exists a, c, d, e. tauto.
  - intros (a & c & d & e & -> & -> & -> & -> & H1 & H2 & H3 & H4).
    rewrite !Qle_bool_iff. tauto.
Qed.

Lemma prefilter_true_iff b r :
  prefilter b r = true <->
  ~ (LAT r == 91)%Q /\ ~ (LON r == 181)%Q
  /\ ~ excluded_type (VesselType r) /\ inside_box b r.
Proof.
  unfold prefilter. rewrite <- in_box_iff, <- is_in_excluded.
  rewrite !andb_true_iff, !negb_true_iff.
  rewrite <- !Qeq_bool_iff.
  destruct (Qeq_bool (LAT r) 91), (Qeq_bool (LON r) 181),
    (is_in (VesselType r) Config.EXCLUDED_VESSEL_TYPES);
    intuition congruence.
Qed.



Lemma within_interior p g : within p g = true <-> locate p g = Interior.
Proof.
  unfold within. destruct (locate p g); cbn; split; congruence.
Qed.



(** A point on the shell or on a hole of a polygon is on its boundary. *)
Lemma on_ring_boundary p poly :
  on_ring p (shell poly) = true \/ existsb (on_ring p) (holes poly) = true ->
  locate_polygon p poly = Boundary.
Proof.
  intros H. unfold locate_polygon.
  replace (on_ring p (shell poly) || existsb (on_ring p) (holes poly))
    with true; [reflexivity|].
  symmetry. apply orb_true_iff. exact H.
Qed.




Lemma in_spatial_filter leases rows f :
  In f (spatial_filter leases rows) <->
  exists i l,
    In (record f) rows
    /\ prefilter (bounds_of leases) (record f) = true
    /\ leases !! i = Some l
    /\ within (Point (record f)) (lease_geometry l) = true
    /\ LEASE_NUMBER f = lease_number l.
Proof.
  unfold spatial_filter. rewrite in_map_iff. split.
  - intros (j & <- & Hj). apply in_sjoin_within in Hj.
    destruct Hj as (l & Hr & Hl & Hw & Hn).
    apply List.filter_In in Hr. destruct Hr as [Hr Hp].
    exists (index_right j), l. cbn. tauto.
  - intros (i & l & Hr & Hp & Hl & Hw & Hn).
    exists (mkjoined (record f) i (lease_number l)). split.
    + unfold drop_index_right. cbn. destruct f; cbn in *. congruence.
    + apply in_sjoin_within. exists l. cbn.
      rewrite List.filter_In. tauto.
Qed.

End FilterFacts.

(** ** The fetcher *)

Module DownloadFacts.

Import Datetime DatetimeFacts StrFacts World DownloadAis BatchProcess
  PipelineFacts.



(** With neither file in place the fetcher sends exactly one request. *)
Lemma download_ais_fresh url dir w :
  data_files w !! fetch_csv_path url dir = None ->
  data_files w !! fetch_zip_path url dir = None ->
  net_ops (snd (download_ais url dir w)) = S (net_ops w).
Proof.
  intros Hc Hz.
  unfold download_ais, data_exists, bind, get, ret.
  fold (fetch_csv_path url dir). fold (fetch_zip_path url dir).
  rewrite Hc, Hz. cbn [negb]. unfold requests_get.
  destruct (remote w url) as [|status body complete]; [reflexivity|].
  cbn [fst snd]. unfold raise_for_status.
  destruct ((400 <=? status) && (status <? 600)); [reflexivity|].
  unfold ret, write_stream.
  destruct complete; unfold modify, bind, raise; cbn.
  - unfold ZipFile. cbn. rewrite lookup_insert_eq.
    destruct body; reflexivity.
  - reflexivity.
Qed.

Lemma download_ais_returns url dir w p w' :
  download_ais url dir w = (Ok p, w') -> p = fetch_csv_path url dir.
Proof.
  unfold download_ais. fold (fetch_csv_path url dir).
  fold (fetch_zip_path url dir).
  unfold bind, ret, data_exists, get, modify.
  repeat match goal with
    | |- context [match ?x with _ => _ end] => destruct x eqn:?
    end; intros E; inversion E; reflexivity.
Qed.







End DownloadFacts.

(** ** Runs of the loop *)

Module RunFacts.

Import Datetime DatetimeFacts StrFacts Geo GeoFacts World DownloadAis
  ProcessAis BatchProcess GenerateFacts PipelineFacts ProcessFacts
  FilterFacts DownloadFacts.









(** What [process_ais] writes when it returns a path: the rows kept. *)
Lemma process_ais_writes p o n w w1 w2 leases rows path :
  load_lease_boundaries w = (Ok leases, w1) ->
  fst (scan_csv p w1) = Ok rows ->
  process_ais p o (Some n) w = (Ok (Some path), w2) ->
  path = gpkg_path o n
  /\ output_files w2 !! path = Some (spatial_filter leases rows).
Proof.
  intros Hload Hscan. rewrite process_ais_spec, Hload.
  destruct (scan_csv p w1) as [r ws]. cbn in Hscan. subst r.
  destruct (spatial_filter leases rows) as [|f fs]; [discriminate|].
  unfold to_file. destruct (sink_fails w1 (gpkg_path o n)); [discriminate|].
  intros E. inversion E; subst. cbn. split; [reflexivity|].
  apply lookup_insert_eq.
Qed.

End RunFacts.

(* ===================================================================== *)
(** * Part III: the claims of the specification *)
(* ===================================================================== *)

Import Datetime DatetimeFacts StrFacts Geo GeoFacts World DownloadAis
  ProcessAis BatchProcess GenerateFacts PipelineFacts ProcessFacts
  FilterFacts DownloadFacts RunFacts.











(** C6: the join matches a point with a lease only when the point is
    strictly inside it.  A row whose point is on the boundary of a
    lease is never joined with that lease, and unless another lease
    holds the point in its interior no row of the file written carries
    it; a row that passes stage 1 and whose point is in the interior of
    a lease is written, tagged with the number of that lease. *)
Theorem containment_is_strict (w w1 w2 : world) (p o n path : string)
    (leases : list Lease) (rows : list RawPositionRecord)
    (r : RawPositionRecord) (i : nat) (l : Lease) :
  load_lease_boundaries w = (Ok leases, w1) ->
  fst (scan_csv p w1) = Ok rows ->
  process_ais p o (Some n) w = (Ok (Some path), w2) ->
  leases !! i = Some l ->
  exists written,
    output_files w2 !! path = Some written
    /\ (locate (Point r) (lease_geometry l) = Boundary ->
        (forall df j, In j (sjoin_within df leases) ->
                      left_row j = r -> index_right j <> i)
        /\ ((forall i' l', leases !! i' = Some l' -> i' <> i ->
                           within (Point r) (lease_geometry l') = false) ->
            forall f, In f written -> record f <> r))
    /\ (locate (Point r) (lease_geometry l) = Interior ->
        In r rows -> prefilter (bounds_of leases) r = true ->
        In (mkfiltered r (lease_number l)) written).
Proof.
  intros Hload Hscan Hproc Hl.
  destruct (process_ais_writes p o n w w1 w2 leases rows path Hload Hscan Hproc)
    as [_ Hout].
  exists (spatial_filter leases rows). split; [exact Hout|]. split.
  - intros Hb.
    assert (within (Point r) (lease_geometry l) = false) as Hnot.
    { unfold within. rewrite Hb. reflexivity. }
    split.
    + intros df j Hj Hr Hi. apply in_sjoin_within in Hj.
      destruct Hj as (l' & _ & Hl' & Hw & _).
      rewrite Hi, Hl in Hl'. inversion Hl'; subst l'.
      rewrite Hr in Hw. congruence.
    + intros Hothers f Hf Hr. apply in_spatial_filter in Hf.
      destruct Hf as (i' & l' & _ & _ & Hl' & Hw & _).
      rewrite Hr in Hw.
      destruct (Nat.eq_dec i' i) as [-> | Hne].
      * rewrite Hl in Hl'. inversion Hl'; subst l'. congruence.
      * rewrite (Hothers i' l' Hl' Hne) in Hw. discriminate.
  - intros Hi Hr Hp. apply in_spatial_filter.
    exists i, l. cbn. repeat split; try assumption.
    apply within_interior. exact Hi.
Qed.

Lemma containment_is_strict_witness :
  exists written,
    output_files Example.processed_day1 !! "output/ais_2022_01_01.gpkg"
    = Some written
    /\ (forall f, In f written -> record f <> Example.edge_row)
    /\ In (mkfiltered Example.inside_row "OCS-A 0501") written.
Proof.
  assert (load_lease_boundaries Example.fetched
          = (Ok Example.leases, Example.loaded_day1)) as Hload
    by (vm_compute; reflexivity).
  assert (fst (scan_csv "data/AIS_2022_01_01.csv" Example.loaded_day1)
          = Ok Example.rows) as Hscan
    by (vm_compute; reflexivity).
  assert (process_ais "data/AIS_2022_01_01.csv" OUTPUT_DIR
            (Some "ais_2022_01_01") Example.fetched
          = (Ok (Some "output/ais_2022_01_01.gpkg"), Example.processed_day1))
    as Hproc by (vm_compute; reflexivity).
  assert (Example.leases !! 0%nat = Some Example.lease) as Hl by reflexivity.
  destruct (containment_is_strict _ _ _ _ _ _ _ _ _ Example.edge_row _ _
              Hload Hscan Hproc Hl) as (written & Hout & Hedge & _).
  destruct (containment_is_strict _ _ _ _ _ _ _ _ _ Example.inside_row _ _
              Hload Hscan Hproc Hl) as (written' & Hout' & _ & Hinside).
  rewrite Hout in Hout'. inversion Hout'; subst written'.
  exists written. split; [exact Hout|]. split.
  - apply Hedge; [vm_compute; reflexivity|].
    intros i' l' Hl' Hne. destruct i' as [|i']; [congruence|].
    destruct i'; discriminate.
  - apply Hinside.
    + vm_compute. reflexivity.
    + left. reflexivity.
    + vm_compute. reflexivity.
Defined.






(** C10: for ISO dates start <= end, [generate_dates] yields exactly the
    days of the calendar from start to end, both ends included, each
    once, in ascending order; unless the end is the last day of the
    calendar the generator then stops by its own test. *)
Theorem generate_dates_inclusive (start end_ : string) (s e : date) :
  fromisoformat start = Ok s ->
  fromisoformat end_ = Ok e ->
  date_le s e ->
  let yielded := fst (generate_dates start end_) in
  (forall d, In d yielded <-> valid d /\ date_le s d /\ date_le d e)
  /\ In s yielded /\ In e yielded
  /\ StronglySorted date_lt yielded
  /\ List.NoDup yielded
  /\ (toordinal e < MAXORDINAL ->
      snd (generate_dates start end_) = StopIteration).
Proof.
  intros Hs He Hle yielded. subst yielded.
  rewrite (generate_dates_spec start end_ s e Hs He). cbn [fst snd].
  pose proof (fromisoformat_valid _ _ Hs) as Vs.
  pose proof (fromisoformat_valid _ _ He) as Ve.
  assert (date_le s s) as Hss by (apply date_le_toordinal; auto; lia).
  assert (date_le e e) as Hee by (apply date_le_toordinal; auto; lia).
  split; [intros d; apply (in_date_range s e d Vs Ve)|].
  split; [apply (in_date_range s e s Vs Ve); auto|].
  split; [apply (in_date_range s e e Vs Ve); auto|].
  split; [apply date_range_sorted; assumption|].
  split; [apply sorted_NoDup, date_range_sorted; assumption|].
  intros Hmax. apply Z.ltb_lt in Hmax. rewrite Hmax. reflexivity.
Qed.

Lemma generate_dates_inclusive_witness :
  let yielded := fst (generate_dates "2022-01-01" "2022-01-03") in
  (forall d, In d yielded <->
             valid d /\ date_le (mkdate 2022 1 1) d /\ date_le d (mkdate 2022 1 3))
  /\ In (mkdate 2022 1 1) yielded /\ In (mkdate 2022 1 3) yielded
  /\ StronglySorted date_lt yielded
  /\ List.NoDup yielded
  /\ (toordinal (mkdate 2022 1 3) < MAXORDINAL ->
      snd (generate_dates "2022-01-01" "2022-01-03") = StopIteration).
Proof.
  apply (generate_dates_inclusive "2022-01-01" "2022-01-03"
           (mkdate 2022 1 1) (mkdate 2022 1 3));
    reflexivity.
Defined.

(* ===================================================================== *)
(** * Part IV: further properties of the code *)
(* ===================================================================== *)

Import Vocabulary.

(** ** The ledger, the cleanup and the loop *)

Module LedgerFacts.










End LedgerFacts.

Import LedgerFacts.








(** X5: with a start date after the end date the generator yields
    nothing and stops by its own test, and [main] returns early and
    leaves everything as it was. *)
Theorem generate_dates_empty_range (start end_ : string) (s e : date)
    (w : world) :
  fromisoformat start = Ok s ->
  fromisoformat end_ = Ok e ->
  date_lt e s ->
  generate_dates start end_ = ([], StopIteration)
  /\ main_with start end_ w = (Ok None, w).
Proof.
  intros Hs He Hlt.
  pose proof (fromisoformat_valid _ _ Hs) as Vs.
  pose proof (fromisoformat_valid _ _ He) as Ve.
  apply (date_lt_toordinal e s Ve Vs) in Hlt.
  pose proof (toordinal_bounds s Vs) as Bs.
  assert (generate_dates start end_ = ([], StopIteration)) as Hg.
  { rewrite (generate_dates_spec start end_ s e Hs He).
    unfold date_range.
    replace (Z.to_nat (toordinal e - toordinal s + 1)) with O by lia.
    replace (toordinal e <? MAXORDINAL) with true
      by (symmetry; apply Z.ltb_lt; lia).
    reflexivity. }
  split; [exact Hg|].
  unfold main_with. unfold bind at 1. rewrite load_completed_dates_spec.
  rewrite Hg. reflexivity.
Qed.

Lemma generate_dates_empty_range_witness :
  generate_dates "2022-01-05" "2022-01-04" = ([], StopIteration)
  /\ main_with "2022-01-05" "2022-01-04" Example.fresh = (Ok None, Example.fresh).
Proof.
  apply (generate_dates_empty_range "2022-01-05" "2022-01-04"
           (mkdate 2022 1 5) (mkdate 2022 1 4) Example.fresh); reflexivity.
Defined.

(** X6: with 9999-12-31 as end date the generator yields every day
    up to and including that day and then raises OverflowError, when
    it steps past the last day of the calendar; the list built in
    [main] lets the exception through, so [main] raises before any
    day is processed. *)
Theorem generate_dates_last_day_overflows (start : string) (s : date)
    (w : world) :
  fromisoformat start = Ok s ->
  generate_dates start "9999-12-31"
  = (date_range s (mkdate 9999 12 31),
     Raised (OverflowError "date value out of range"))
  /\ In (mkdate 9999 12 31) (fst (generate_dates start "9999-12-31"))
  /\ main_with start "9999-12-31" w
     = (Raise (OverflowError "date value out of range"), w).
Proof.
  intros Hs.
  assert (fromisoformat "9999-12-31" = Ok (mkdate 9999 12 31)) as He
    by reflexivity.
  pose proof (generate_dates_spec start "9999-12-31" s _ Hs He) as Hg.
  change (toordinal (mkdate 9999 12 31) <? MAXORDINAL) with false in Hg.
  split; [exact Hg|]. split.
  - rewrite Hg. cbn [fst].
    pose proof (fromisoformat_valid _ _ Hs) as Vs.
    apply in_date_range; [exact Vs | reflexivity|].
    split; [reflexivity|]. split; [|reflexivity].
    apply date_le_toordinal; [exact Vs | reflexivity|].
    pose proof (toordinal_bounds s Vs). exact (proj2 H).
  - apply (main_with_overflow start "9999-12-31" s _ w Hs He). reflexivity.
Qed.

Lemma generate_dates_last_day_overflows_witness :
  generate_dates "9999-12-30" "9999-12-31"
  = (date_range (mkdate 9999 12 30) (mkdate 9999 12 31),
     Raised (OverflowError "date value out of range"))
  /\ In (mkdate 9999 12 31) (fst (generate_dates "9999-12-30" "9999-12-31"))
  /\ main_with "9999-12-30" "9999-12-31" Example.fresh
     = (Raise (OverflowError "date value out of range"), Example.fresh).
Proof.
  apply (generate_dates_last_day_overflows "9999-12-30" (mkdate 9999 12 30)
           Example.fresh).
  reflexivity.
Defined.







(** ** The fetcher on its own *)

Module FetchFacts.

Lemma append_inj_l (s a b : string) : s +:+ a = s +:+ b -> a = b.
Proof.
  induction s as [|c s IH]; cbn; [auto|].
  intros E. inversion E. auto.
Qed.

Lemma path_join_inj dir a b : path_join dir a = path_join dir b -> a = b.
Proof.
  unfold path_join. intros E. apply append_inj_l in E.
  apply (append_inj_l "/") in E. exact E.
Qed.






End FetchFacts.

Import FetchFacts.









(** ** The filter on its own *)

Module NameFacts.

Lemma prefix_head_ne a s c t :
  Ascii.eqb c a = false -> String.prefix (String a s) (String c t) = false.
Proof.
  intros H. cbn [String.prefix]. destruct (ascii_dec a c) as [->|]; [|reflexivity].
  rewrite Ascii.eqb_refl in H. discriminate.
Qed.

Lemma substring_all s : String.substring 0 (String.length s) s = s.
Proof. induction s as [|c s IH]; cbn; [reflexivity | rewrite IH; reflexivity]. Qed.

(** Nothing is replaced in a text that lacks the first character of
    the text to replace. *)
Lemma replace_aux_absent a old new s : forall fuel,
  existsb (fun b => Ascii.eqb b a) (list_ascii_of_string s) = false ->
  Str.replace_aux fuel (String a old) new s = s.
Proof.
  induction s as [|c s IH]; intros fuel H; [destruct fuel; reflexivity|].
  destruct fuel as [|fuel]; [reflexivity|].
  cbn [list_ascii_of_string existsb] in H. apply orb_false_iff in H.
  destruct H as [Hc Hs].
  cbn [Str.replace_aux]. rewrite (prefix_head_ne a old c s Hc).
  rewrite (IH fuel Hs). reflexivity.
Qed.

Lemma replace_aux_found fuel old new c s :
  String.prefix old (String c s) = true ->
  Str.replace_aux (S fuel) old new (String c s)
  = new +:+ Str.replace_aux fuel old new
              (String.substring (String.length old)
                 (String.length (String c s) - String.length old)
                 (String c s)).
Proof. intros H. cbn [Str.replace_aux]. rewrite H. reflexivity. Qed.

Lemma replace_AIS rest :
  existsb (fun b => Ascii.eqb b "A") (list_ascii_of_string rest) = false ->
  Str.replace "AIS_" "" ("AIS_" +:+ rest) = rest.
Proof.
  intros H. unfold Str.replace. cbv [String.append].
  rewrite replace_aux_found
    by (apply String.prefix_correct; destruct rest; reflexivity).
  cbn [String.length String.substring Nat.sub]. rewrite Nat.sub_0_r.
  rewrite substring_all.
  rewrite (replace_aux_absent "A" "IS_" "" rest _ H). reflexivity.
Qed.

(** The name [process_ais] derives from the CSV of a day is the name
    [process_date] passes for that day. *)
Lemma default_name_of_day d :
  valid d -> 1000 <= year d ->
  "ais_" +:+ Str.replace "AIS_" "" (stem (transient_csv d)) = day_output_name d.
Proof.
  intros Hd Hy.
  assert (year d <= 9999) as Hy9.
  { apply check_date_fields_spec in Hd. lia. }
  unfold day_output_name, transient_csv, csv_name, path_join, DATA_DIR.
  rewrite (of_Z_zfill4 (year d)) by lia.
  iso_shape d Hd. rewrite Ey, Em, Ed.
  set (rest := String y1 (String y2 (String y3 (String y4 (String "_"
                 (String m1 (String m2 (String "_"
                 (String d1 (String d2 "")))))))))).
  assert (stem ("data" +:+ "/" +:+ "AIS_" +:+
                String y1 (String y2 (String y3 (String y4 ""))) +:+ "_" +:+
                String m1 (String m2 "") +:+ "_" +:+
                String d1 (String d2 "") +:+ ".csv")
          = "AIS_" +:+ rest) as Hstem.
  { unfold stem, rest. cbv [String.append]. cbn. digits_ne. cbn. digits_ne.
    reflexivity. }
  rewrite Hstem. rewrite replace_AIS.
  - unfold rest. cbv [String.append]. reflexivity.
  - unfold rest. cbn. digits_ne. reflexivity.
Qed.

End NameFacts.

Import NameFacts.

(** X14: the output name [process_ais] derives from the CSV of a day
    when it is given none, [ais_] and the stem without [AIS_], is the
    name [process_date] passes for that day, from the year 1000 on. *)
Theorem default_output_name (d : date) (output_dir : string) (w : world) :
  valid d -> 1000 <= year d ->
  process_ais (transient_csv d) output_dir None w
  = process_ais (transient_csv d) output_dir (Some (day_output_name d)) w.
Proof.
  intros Hd Hy. rewrite <- (default_name_of_day d Hd Hy). reflexivity.
Qed.

Lemma default_output_name_witness :
  process_ais (transient_csv Example.day1) OUTPUT_DIR None Example.fetched
  = process_ais (transient_csv Example.day1) OUTPUT_DIR
      (Some (day_output_name Example.day1)) Example.fetched.
Proof.
  apply (default_output_name Example.day1 OUTPUT_DIR Example.fetched).
  - reflexivity.
  - vm_compute. discriminate.
Defined.

Module SinkFacts.

Lemma load_lease_boundaries_output w r w1 :
  load_lease_boundaries w = (r, w1) -> output_files w1 = output_files w.
Proof.
  unfold load_lease_boundaries.
  destruct (lease_cache w); [intros E; inversion E; reflexivity|].
  destruct (lease_source w); intros E; inversion E; reflexivity.
Qed.

(** A frame without bounds lets no row through the first stage. *)
Lemma prefilter_no_bounds leases r :
  total_bounds leases = None -> prefilter (bounds_of leases) r = false.
Proof.
  intros H. unfold prefilter, bounds_of. rewrite H. cbn.
  rewrite !andb_false_r. reflexivity.
Qed.

Lemma spatial_filter_no_bounds leases rows :
  total_bounds leases = None -> spatial_filter leases rows = [].
Proof.
  intros H. unfold spatial_filter.
  replace (List.filter (prefilter (bounds_of leases)) rows) with
    (@nil RawPositionRecord); [reflexivity|].
  symmetry. induction rows as [|r rows IH]; [reflexivity|].
  cbn [List.filter]. rewrite (prefilter_no_bounds leases r H). exact IH.
Qed.

End SinkFacts.

Import SinkFacts.

(** X15: a call of [process_ais] with an output name that returns
    leaves the data directory alone, and either writes nothing and
    returns None, or writes exactly one GeoPackage, at
    [output_dir/output_name.gpkg], with at least one row, and returns
    its path. *)
Theorem process_ais_writes_one_file (csv_path output_dir output_name : string)
    (w w' : world) (r : option string) :
  process_ais csv_path output_dir (Some output_name) w = (Ok r, w') ->
  data_files w' = data_files w
  /\ ((r = None /\ output_files w' = output_files w)
      \/ (r = Some (gpkg_path output_dir output_name)
          /\ exists rows,
               rows <> []
               /\ output_files w'
                  = <[gpkg_path output_dir output_name := rows]>
                      (output_files w))).
Proof.
  intros H. split.
  { pose proof (process_ais_frame csv_path output_dir (Some output_name) w)
      as F. rewrite H in F. cbn [snd] in F. unfold beside_sink in F.
    inversion F. reflexivity. }
  rewrite process_ais_spec in H.
  destruct (load_lease_boundaries w) as [[leases|e] w1] eqn:Hload;
    [|discriminate].
  pose proof (load_lease_boundaries_output _ _ _ Hload) as Ho.
  destruct (scan_csv csv_path w1) as [[rows|e] w1'] eqn:Hs; [|discriminate].
  destruct (spatial_filter leases rows) as [|f0 fs] eqn:Hf.
  - inversion H; subst. left. split; [reflexivity | exact Ho].
  - unfold to_file in H.
    destruct (sink_fails w1 (gpkg_path output_dir output_name));
      [discriminate|].
    inversion H; subst. right. split; [reflexivity|].
    exists (f0 :: fs). split; [discriminate|].
    cbn [output_files set_output_files]. rewrite Ho. reflexivity.
Qed.

Lemma process_ais_writes_one_file_witness :
  data_files Example.processed_day1 = data_files Example.fetched
  /\ ((Some "output/ais_2022_01_01.gpkg" = None
       /\ output_files Example.processed_day1 = output_files Example.fetched)
      \/ (Some "output/ais_2022_01_01.gpkg"
          = Some (gpkg_path OUTPUT_DIR "ais_2022_01_01")
          /\ exists rows,
               rows <> []
               /\ output_files Example.processed_day1
                  = <[gpkg_path OUTPUT_DIR "ais_2022_01_01" := rows]>
                      (output_files Example.fetched))).
Proof.
  apply (process_ais_writes_one_file "data/AIS_2022_01_01.csv" OUTPUT_DIR
           "ais_2022_01_01" Example.fetched Example.processed_day1
           (Some "output/ais_2022_01_01.gpkg")).
  vm_compute. reflexivity.
Defined.

(** X16: every row [process_ais] writes is a row of the CSV with a
    latitude other than 91, a longitude other than 181 and a vessel
    type outside the excluded ones, and carries the number of a lease
    in whose interior its point lies. *)
Theorem written_rows_are_sound (csv_path output_dir output_name path : string)
    (w w1 w2 : world) (leases : list Lease) (rows : list RawPositionRecord)
    (written : list FilteredPositionRecord) (f : FilteredPositionRecord) :
  load_lease_boundaries w = (Ok leases, w1) ->
  fst (scan_csv csv_path w1) = Ok rows ->
  process_ais csv_path output_dir (Some output_name) w = (Ok (Some path), w2) ->
  output_files w2 !! path = Some written ->
  In f written ->
  In (record f) rows
  /\ ~ (LAT (record f) == 91)%Q
  /\ ~ (LON (record f) == 181)%Q
  /\ ~ excluded_type (VesselType (record f))
  /\ exists i l,
       leases !! i = Some l
       /\ LEASE_NUMBER f = lease_number l
       /\ locate (Point (record f)) (lease_geometry l) = Interior.
Proof.
  intros Hload Hs Hp Hw Hin.
  destruct (process_ais_writes _ _ _ _ _ _ _ _ _ Hload Hs Hp) as [-> Hout].
  rewrite Hout in Hw. inversion Hw; subst written.
  apply in_spatial_filter in Hin.
  destruct Hin as (i & l & Hr & Hpre & Hl & Hwithin & Hn).
  apply prefilter_true_iff in Hpre. destruct Hpre as (H1 & H2 & H3 & _).
  repeat (split; [assumption|]).
  exists i, l. repeat split; try assumption.
  apply within_interior. exact Hwithin.
Qed.

Lemma written_rows_are_sound_witness :
  In (record (mkfiltered Example.inside_row "OCS-A 0501")) Example.rows
  /\ ~ (LAT (record (mkfiltered Example.inside_row "OCS-A 0501")) == 91)%Q
  /\ ~ (LON (record (mkfiltered Example.inside_row "OCS-A 0501")) == 181)%Q
  /\ ~ excluded_type
         (VesselType (record (mkfiltered Example.inside_row "OCS-A 0501")))
  /\ exists i l,
       Example.leases !! i = Some l
       /\ LEASE_NUMBER (mkfiltered Example.inside_row "OCS-A 0501")
          = lease_number l
       /\ locate (Point (record (mkfiltered Example.inside_row "OCS-A 0501")))
            (lease_geometry l) = Interior.
Proof.
  apply (written_rows_are_sound "data/AIS_2022_01_01.csv" OUTPUT_DIR
           "ais_2022_01_01" "output/ais_2022_01_01.gpkg"
           Example.fetched Example.loaded_day1 Example.processed_day1
           Example.leases Example.rows
           [mkfiltered Example.inside_row "OCS-A 0501"]
           (mkfiltered Example.inside_row "OCS-A 0501")).
  - reflexivity.
  - reflexivity.
  - vm_compute. reflexivity.
  - vm_compute. reflexivity.
  - left. reflexivity.
Defined.

(** X17: when the lease frame has no vertex at all (no lease, or
    empty geometries only) its total bounds are NaN, every comparison
    of the first stage fails, and [process_ais] returns None for any
    CSV and writes nothing. *)
Theorem no_vertices_no_output (csv_path output_dir output_name : string)
    (w w1 : world) (leases : list Lease) (rows : list RawPositionRecord) :
  load_lease_boundaries w = (Ok leases, w1) ->
  total_bounds leases = None ->
  fst (scan_csv csv_path w1) = Ok rows ->
  (forall r, prefilter (bounds_of leases) r = false)
  /\ process_ais csv_path output_dir (Some output_name) w = (Ok None, w1)
  /\ output_files w1 = output_files w.
Proof.
  intros Hload Hb Hs.
  split; [intros r; apply prefilter_no_bounds; exact Hb|].
  split; [|exact (load_lease_boundaries_output _ _ _ Hload)].
  rewrite process_ais_spec, Hload.
  destruct (scan_csv csv_path w1) as [[rows'|e] w1']; cbn [fst] in Hs;
    [|discriminate].
  rewrite (spatial_filter_no_bounds leases rows' Hb). reflexivity.
Qed.

Lemma no_vertices_no_output_witness :
  (forall r, prefilter (bounds_of [FetchExample.empty_lease]) r = false)
  /\ process_ais "data/AIS_2022_01_01.csv" OUTPUT_DIR (Some "ais_2022_01_01")
       FetchExample.no_vertices
     = (Ok None, snd (load_lease_boundaries FetchExample.no_vertices))
  /\ output_files (snd (load_lease_boundaries FetchExample.no_vertices))
     = output_files FetchExample.no_vertices.
Proof.
  apply (no_vertices_no_output "data/AIS_2022_01_01.csv" OUTPUT_DIR
           "ais_2022_01_01" FetchExample.no_vertices
           (snd (load_lease_boundaries FetchExample.no_vertices))
           [FetchExample.empty_lease] Example.rows).
  - reflexivity.
  - reflexivity.
  - reflexivity.
Defined.

Module JoinFacts.

Lemma indexed_matches (f : Lease -> bool) leases : forall i,
  List.length (List.filter (fun il => f (snd il)) (indexed i leases))
  = List.length (List.filter f leases).
Proof.
  induction leases as [|l leases IH]; intros i; [reflexivity|].
  cbn [indexed List.filter snd]. destruct (f l); cbn [List.length];
    rewrite IH; reflexivity.
Qed.

Lemma filter_pairs_false {A B} (f : A * B -> bool) (a : A) (l : list B) :
  (forall b, f (a, b) = false) ->
  List.filter f (map (pair a) l) = [].
Proof.
  intros H. induction l as [|b l IH]; [reflexivity|].
  cbn [map List.filter]. rewrite H. exact IH.
Qed.

Lemma filter_pairs_snd {A B} (f : A * B -> bool) (a : A) (l : list B) :
  List.length (List.filter f (map (pair a) l))
  = List.length (List.filter (fun b => f (a, b)) l).
Proof.
  induction l as [|b l IH]; [reflexivity|].
  cbn [map List.filter]. destruct (f (a, b)); cbn [List.length];
    rewrite IH; reflexivity.
Qed.

(** The join yields one row for each pair of a row that passes the
    first stage and a lease the row is within. *)
Lemma spatial_filter_length leases rows :
  List.length (spatial_filter leases rows)
  = List.length (joined_pairs leases rows).
Proof.
  unfold spatial_filter, joined_pairs, sjoin_within.
  rewrite List.length_map.
  induction rows as [|r rows IH]; [reflexivity|].
  cbn [List.filter list_prod]. rewrite List.filter_app, List.length_app.
  rewrite <- IH. clear IH.
  destruct (prefilter (bounds_of leases) r) eqn:E.
  - cbn [flat_map]. rewrite List.length_app. f_equal.
    rewrite List.length_map.
    rewrite (indexed_matches (fun l => within (Point r) (lease_geometry l))).
    rewrite filter_pairs_snd. cbn [fst snd]. rewrite E. reflexivity.
  - rewrite filter_pairs_false by (intros l; cbn [fst snd]; rewrite E; reflexivity).
    reflexivity.
Qed.

End JoinFacts.

Import JoinFacts.

(** X18: the GeoPackage [process_ais] writes holds as many rows as
    there are pairs of a row of the CSV that passes the first stage
    and a lease the row lies within: a position inside two leases that
    overlap is written twice, once for each lease. *)
Theorem join_counts_pairs (csv_path output_dir output_name path : string)
    (w w1 w2 : world) (leases : list Lease) (rows : list RawPositionRecord) :
  load_lease_boundaries w = (Ok leases, w1) ->
  fst (scan_csv csv_path w1) = Ok rows ->
  process_ais csv_path output_dir (Some output_name) w = (Ok (Some path), w2) ->
  exists written,
    output_files w2 !! path = Some written
    /\ List.length written = List.length (joined_pairs leases rows).
Proof.
  intros Hload Hs Hp.
  destruct (process_ais_writes _ _ _ _ _ _ _ _ _ Hload Hs Hp) as [-> Hout].
  exists (spatial_filter leases rows). split; [exact Hout|].
  apply spatial_filter_length.
Qed.

Lemma join_counts_pairs_witness :
  exists written,
    output_files Example.processed_day1 !! "output/ais_2022_01_01.gpkg"
    = Some written
    /\ List.length written
       = List.length (joined_pairs Example.leases Example.rows).
Proof.
  apply (join_counts_pairs "data/AIS_2022_01_01.csv" OUTPUT_DIR
           "ais_2022_01_01" "output/ais_2022_01_01.gpkg"
           Example.fetched Example.loaded_day1 Example.processed_day1
           Example.leases Example.rows).
  - reflexivity.
  - reflexivity.
  - vm_compute. reflexivity.
Defined.

(** ** The merge of the daily files *)

Import MergeVocabulary MergeGpkg.

Module PatternFacts.

Lemma append_assoc (a b c : string) : (a +:+ b) +:+ c = a +:+ b +:+ c.
Proof.
  induction a as [|x a IH]; [reflexivity|].
  cbv [String.append] in *. fold String.append in *. rewrite IH. reflexivity.
Qed.

Lemma append_cons c a b : String c a +:+ b = String c (a +:+ b).
Proof. reflexivity. Qed.

Lemma list_of_append (a b : string) :
  list_ascii_of_string (a +:+ b)
  = (list_ascii_of_string a ++ list_ascii_of_string b)%list.
Proof.
  induction a as [|x a IH]; [reflexivity|].
  rewrite append_cons. cbn [list_ascii_of_string]. rewrite IH. reflexivity.
Qed.

Lemma length_of_append (a b : string) :
  String.length (a +:+ b) = (String.length a + String.length b)%nat.
Proof.
  induction a as [|x a IH]; [reflexivity|].
  rewrite append_cons. cbn [String.length]. rewrite IH. reflexivity.
Qed.

Lemma literal_spec s : forall text rest,
  literal s text = Some rest <-> text = s +:+ rest.
Proof.
  induction s as [|c s IH]; intros text rest; cbn [literal].
  - split; [intros E; inversion E; reflexivity | intros ->; reflexivity].
  - destruct text as [|a text].
    + split; [discriminate|]. rewrite append_cons. discriminate.
    + rewrite append_cons. destruct (Ascii.eqb a c) eqn:E.
      * apply Ascii.eqb_eq in E. subst a. rewrite IH.
        split; [intros ->; reflexivity | intros H; inversion H; reflexivity].
      * apply Ascii.eqb_neq in E. split; [discriminate|].
        intros H. inversion H. congruence.
Qed.

Lemma literal_append s rest : literal s (s +:+ rest) = Some rest.
Proof. apply literal_spec. reflexivity. Qed.

Lemma group_some n : forall text g rest,
  group n text = Some (g, rest) -> text = g +:+ rest /\ digit_run n g.
Proof.
  unfold digit_run.
  induction n as [|n IH]; intros text g rest; cbn [group].
  - intros E. inversion E. repeat split.
  - destruct text as [|a text]; [discriminate|].
    destruct (isdigit a) eqn:Ha; [|discriminate].
    destruct (group n text) as [[g' rest']|] eqn:Hg; [|discriminate].
    intros E. injection E as <- <-.
    destruct (IH _ _ _ Hg) as (-> & Hl & Hd).
    rewrite append_cons. cbn [String.length list_ascii_of_string forallb].
    rewrite Ha, Hd, Hl. repeat split.
Qed.

Lemma group_append n : forall g rest,
  digit_run n g -> group n (g +:+ rest) = Some (g, rest).
Proof.
  unfold digit_run.
  induction n as [|n IH]; intros g rest [Hl Hd].
  - destruct g; [reflexivity | discriminate].
  - destruct g as [|a g]; [discriminate|].
    cbn [String.length list_ascii_of_string forallb] in Hl, Hd.
    apply andb_true_iff in Hd. destruct Hd as [Ha Hd].
    rewrite append_cons. cbn [group]. rewrite Ha.
    rewrite IH by (split; [lia | exact Hd]). reflexivity.
Qed.

Lemma dollar_spec text : dollar text = true <-> text = "" \/ text = newline.
Proof.
  unfold dollar. rewrite orb_true_iff, !String.eqb_eq. reflexivity.
Qed.

(** What the pattern matches. *)
Lemma pattern_match_spec n ys ms ds :
  pattern_match n = Some (ys, ms, ds) <->
  exists tail,
    n = "ais_" +:+ ys +:+ "_" +:+ ms +:+ "_" +:+ ds +:+ ".gpkg" +:+ tail
    /\ (tail = "" \/ tail = newline)
    /\ digit_run 4 ys /\ digit_run 2 ms /\ digit_run 2 ds.
Proof.
  unfold pattern_match. split.
  - intros H.
    destruct (literal "ais_" n) as [t1|] eqn:E1; [|discriminate].
    cbn [mbind option_bind] in H.
    destruct (group 4 t1) as [[y t2]|] eqn:E2; [|discriminate].
    cbn [mbind option_bind] in H.
    destruct (literal "_" t2) as [t3|] eqn:E3; [|discriminate].
    cbn [mbind option_bind] in H.
    destruct (group 2 t3) as [[m t4]|] eqn:E4; [|discriminate].
    cbn [mbind option_bind] in H.
    destruct (literal "_" t4) as [t5|] eqn:E5; [|discriminate].
    cbn [mbind option_bind] in H.
    destruct (group 2 t5) as [[d t6]|] eqn:E6; [|discriminate].
    cbn [mbind option_bind] in H.
    destruct (literal ".gpkg" t6) as [t7|] eqn:E7; [|discriminate].
    cbn [mbind option_bind] in H.
    destruct (dollar t7) eqn:E8; [|discriminate].
    inversion H; subst y m d.
    apply literal_spec in E1, E3, E5, E7.
    apply group_some in E2, E4, E6.
    destruct E2 as [E2 R2], E4 as [E4 R4], E6 as [E6 R6].
    apply dollar_spec in E8.
    exists t7. subst. split; [reflexivity|]. split; [exact E8|].
    split; [exact R2|]. split; [exact R4 | exact R6].
  - intros (tail & -> & Ht & Ry & Rm & Rd).
    rewrite literal_append. cbn [mbind option_bind].
    rewrite (group_append 4 ys _ Ry). cbn [mbind option_bind].
    rewrite literal_append. cbn [mbind option_bind].
    rewrite (group_append 2 ms _ Rm). cbn [mbind option_bind].
    rewrite literal_append. cbn [mbind option_bind].
    rewrite (group_append 2 ds _ Rd). cbn [mbind option_bind].
    rewrite literal_append. cbn [mbind option_bind].
    rewrite (proj2 (dollar_spec tail) Ht). reflexivity.
Qed.

Lemma isdigit_val c : isdigit c = true <-> exists k, digit_val c = Some k.
Proof.
  unfold isdigit. destruct (digit_val c) as [k|]; split; try discriminate.
  - intros _. exists k. reflexivity.
  - reflexivity.
  - intros [k H]. discriminate.
Qed.

Lemma digit_val_bounds c k : digit_val c = Some k -> 0 <= k <= 9.
Proof.
  unfold digit_val.
  destruct ((48 <=? Z.of_nat (nat_of_ascii c))
            && (Z.of_nat (nat_of_ascii c) <=? 57)) eqn:E; [|discriminate].
  apply andb_true_iff in E. rewrite !Z.leb_le in E.
  intros H. inversion H. lia.
Qed.

(** A text [parse_digits] reads is a run of digits, and the other way
    round. *)
Lemma parse_digits_run s : forall acc,
  forallb isdigit (list_ascii_of_string s) = true <->
  exists v, parse_digits s acc = Some v.
Proof.
  induction s as [|c s IH]; intros acc; cbn [list_ascii_of_string forallb parse_digits].
  - split; [intros _; eexists; reflexivity | reflexivity].
  - unfold isdigit at 1. destruct (digit_val c) as [k|].
    + rewrite andb_true_l. apply IH.
    + split; [discriminate | intros [v H]; discriminate].
Qed.

Lemma parse_digits_bounds s : forall acc v,
  0 <= acc -> parse_digits s acc = Some v ->
  acc * 10 ^ Z.of_nat (String.length s) <= v
  < (acc + 1) * 10 ^ Z.of_nat (String.length s).
Proof.
  induction s as [|c s IH]; intros acc v Hacc; cbn [parse_digits String.length].
  - intros E. inversion E. cbn. lia.
  - destruct (digit_val c) as [k|] eqn:Hk; [|discriminate].
    pose proof (digit_val_bounds c k Hk) as Bk.
    intros E. apply IH in E; [|lia].
    rewrite Nat2Z.inj_succ, Z.pow_succ_r by lia.
    assert (0 < 10 ^ Z.of_nat (String.length s)) by (apply Z.pow_pos_nonneg; lia).
    nia.
Qed.

Lemma digit_text_run k s v : digit_text k s v -> digit_run k s.
Proof.
  intros [Hl Hp]. split; [exact Hl|].
  apply (parse_digits_run s 0). exists v. exact Hp.
Qed.

Lemma digit_run_text k s : digit_run k s -> exists v, digit_text k s v.
Proof.
  intros [Hl Hd]. apply (parse_digits_run s 0) in Hd. destruct Hd as [v Hv].
  exists v. split; assumption.
Qed.

Lemma digit_text_fun k s v v' : digit_text k s v -> digit_text k s v' -> v = v'.
Proof. intros [_ H] [_ H']. congruence. Qed.

Lemma int_digit_text k s v : digit_text (S k) s v -> int s = Ok v.
Proof.
  intros [Hl Hp]. unfold int.
  destruct s; [discriminate|]. rewrite Hp. reflexivity.
Qed.

(** The name of the GeoPackage of a day has the shape of the
    pattern. *)
Lemma gpkg_name_dated d :
  valid d -> dated_name (gpkg_name d) (year d) (month d) (day d).
Proof.
  intros Hd. unfold dated_name, gpkg_name.
  destruct (isoformat_shape d Hd)
    as (y1 & y2 & y3 & y4 & m1 & m2 & d1 & d2 & Ey & Em & Ed & _ & Py & Pm & Pd).
  exists (Str.zfill 4 (year d)), (Str.zfill 2 (month d)), (Str.zfill 2 (day d)).
  split; [reflexivity|]. unfold digit_text.
  rewrite Py, Pm, Pd, Ey, Em, Ed. repeat split.
Qed.

(** The digits of a name determine it. *)
Lemma digit_char_val c k : digit_val c = Some k -> Str.digit_char k = c.
Proof.
  unfold digit_val, Str.digit_char.
  destruct ((48 <=? Z.of_nat (nat_of_ascii c))
            && (Z.of_nat (nat_of_ascii c) <=? 57)) eqn:E; [|discriminate].
  apply andb_true_iff in E. rewrite !Z.leb_le in E.
  intros H. inversion H; subst k.
  replace (48 + Z.to_nat (Z.of_nat (nat_of_ascii c) - 48))%nat
    with (nat_of_ascii c) by lia.
  apply ascii_nat_embedding.
Qed.

Lemma zfill4_of_text s v : digit_text 4 s v -> 0 <= v <= 9999 /\ Str.zfill 4 v = s.
Proof.
  intros [Hl Hp].
  destruct s as [|a [|b [|c [|d [|x s]]]]]; try discriminate.
  cbn [parse_digits] in Hp.
  destruct (digit_val a) as [ka|] eqn:Ha; [|discriminate].
  destruct (digit_val b) as [kb|] eqn:Hb; [|discriminate].
  destruct (digit_val c) as [kc|] eqn:Hc; [|discriminate].
  destruct (digit_val d) as [kd|] eqn:Hd; [|discriminate].
  pose proof (digit_val_bounds _ _ Ha). pose proof (digit_val_bounds _ _ Hb).
  pose proof (digit_val_bounds _ _ Hc). pose proof (digit_val_bounds _ _ Hd).
  inversion Hp; subst v. clear Hp.
  split; [lia|]. rewrite zfill4_digits by lia.
  set (v := (((0 * 10 + ka) * 10 + kb) * 10 + kc) * 10 + kd).
  replace (v / 10 / 10 / 10 mod 10) with ka
    by (subst v; Z.to_euclidean_division_equations; lia).
  replace (v / 10 / 10 mod 10) with kb
    by (subst v; Z.to_euclidean_division_equations; lia).
  replace (v / 10 mod 10) with kc
    by (subst v; Z.to_euclidean_division_equations; lia).
  replace (v mod 10) with kd
    by (subst v; Z.to_euclidean_division_equations; lia).
  rewrite (digit_char_val a ka Ha), (digit_char_val b kb Hb),
    (digit_char_val c kc Hc), (digit_char_val d kd Hd).
  reflexivity.
Qed.

Lemma zfill2_of_text s v : digit_text 2 s v -> 0 <= v <= 99 /\ Str.zfill 2 v = s.
Proof.
  intros [Hl Hp].
  destruct s as [|a [|b [|x s]]]; try discriminate.
  cbn [parse_digits] in Hp.
  destruct (digit_val a) as [ka|] eqn:Ha; [|discriminate].
  destruct (digit_val b) as [kb|] eqn:Hb; [|discriminate].
  pose proof (digit_val_bounds _ _ Ha). pose proof (digit_val_bounds _ _ Hb).
  inversion Hp; subst v. clear Hp.
  split; [lia|]. rewrite zfill2_digits by lia.
  set (v := (0 * 10 + ka) * 10 + kb).
  replace (v / 10 mod 10) with ka
    by (subst v; Z.to_euclidean_division_equations; lia).
  replace (v mod 10) with kb
    by (subst v; Z.to_euclidean_division_equations; lia).
  rewrite (digit_char_val a ka Ha), (digit_char_val b kb Hb).
  reflexivity.
Qed.

(** A name of the shape of the pattern whose digits read as a date of
    the calendar is the name of the GeoPackage of that date. *)
Lemma dated_name_gpkg n y m d :
  dated_name n y m d -> n = gpkg_name (mkdate y m d).
Proof.
  intros (ys & ms & ds & -> & Hy & Hm & Hd).
  unfold gpkg_name. cbn [year month day].
  rewrite (proj2 (zfill4_of_text ys y Hy)), (proj2 (zfill2_of_text ms m Hm)),
    (proj2 (zfill2_of_text ds d Hd)).
  reflexivity.
Qed.

End PatternFacts.

Import PatternFacts.

Module SelectFacts.

Lemma passes_window start end_ d : passes start end_ d = true <-> in_window start end_ d.
Proof.
  unfold passes, in_window, date_ltb, date_le.
  rewrite andb_true_iff, !negb_true_iff. split.
  - intros [H1 H2]. split.
    + intros s ->. rewrite negb_false_iff in H1. exact H1.
    + intros e ->. rewrite negb_false_iff in H2. exact H2.
  - intros [H1 H2]. split.
    + destruct start as [s|]; [|reflexivity].
      rewrite negb_false_iff. apply H1. reflexivity.
    + destruct end_ as [e|]; [|reflexivity].
      rewrite negb_false_iff. apply H2. reflexivity.
Qed.

(** The loop body on an entry whose name has the shape of the
    pattern. *)
Lemma keep_file_dated start end_ f y m d :
  dated_name (name f) y m d ->
  keep_file start end_ f =
  match datetime_date y m d with
  | Ok file_date => Ok (passes start end_ file_date)
  | Raise e => Raise e
  end.
Proof.
  intros (ys & ms & ds & E & Hy & Hm & Hd).
  assert (pattern_match (name f) = Some (ys, ms, ds)) as Hp.
  { apply pattern_match_spec. exists "". rewrite E.
    split; [reflexivity|]. split; [left; reflexivity|].
    split; [exact (digit_text_run _ _ _ Hy)|].
    split; [exact (digit_text_run _ _ _ Hm) | exact (digit_text_run _ _ _ Hd)]. }
  unfold keep_file. rewrite Hp.
  rewrite (int_digit_text _ _ _ Hy), (int_digit_text _ _ _ Hm),
    (int_digit_text _ _ _ Hd).
  destruct (datetime_date y m d) as [fd|e]; [|reflexivity].
  unfold passes.
  destruct (match start with Some s => date_ltb fd s | None => false end);
    [reflexivity|].
  destruct (match end_ with Some e => date_ltb e fd | None => false end);
    reflexivity.
Qed.

Lemma run4 ys : digit_run 4 ys ->
  exists a b c d, ys = String a (String b (String c (String d ""))).
Proof.
  intros [Hl _].
  destruct ys as [|a [|b [|c [|d [|x s]]]]]; try discriminate.
  eexists _, _, _, _. reflexivity.
Qed.

Lemma run2 ys : digit_run 2 ys -> exists a b, ys = String a (String b "").
Proof.
  intros [Hl _].
  destruct ys as [|a [|b [|x s]]]; try discriminate.
  eexists _, _. reflexivity.
Qed.

Lemma isdigit_not_slash c : isdigit c = true -> Ascii.eqb c "/" = false.
Proof.
  intros H. apply Ascii.eqb_neq. intros ->. discriminate.
Qed.

Lemma run_no_slash k s :
  digit_run k s ->
  existsb (fun b => Ascii.eqb b "/") (list_ascii_of_string s) = false.
Proof.
  intros [_ H]. induction (list_ascii_of_string s) as [|c l IH]; [reflexivity|].
  cbn [forallb existsb] in *. apply andb_true_iff in H. destruct H as [Hc Hl].
  rewrite (isdigit_not_slash c Hc), (IH Hl). reflexivity.
Qed.

Lemma existsb_append (f : ascii -> bool) (a b : string) :
  existsb f (list_ascii_of_string (a +:+ b))
  = existsb f (list_ascii_of_string a) || existsb f (list_ascii_of_string b).
Proof. rewrite list_of_append. apply existsb_app. Qed.

(** A name of the shape of the pattern matches the pattern of the
    glob and holds no slash. *)
Lemma dated_name_plain n y m d :
  dated_name n y m d ->
  fnmatch n = true
  /\ existsb (fun b => Ascii.eqb b "/") (list_ascii_of_string n) = false.
Proof.
  intros (ys & ms & ds & -> & Hy & Hm & Hd).
  apply digit_text_run in Hy, Hm, Hd.
  split.
  - destruct (run4 ys Hy) as (a & b & c & e & ->).
    destruct (run2 ms Hm) as (a1 & b1 & ->).
    destruct (run2 ds Hd) as (a2 & b2 & ->).
    vm_compute. reflexivity.
  - rewrite !existsb_append.
    rewrite (run_no_slash _ _ Hy), (run_no_slash _ _ Hm), (run_no_slash _ _ Hd).
    reflexivity.
Qed.

(** An entry the glob yields either has a name of the shape of the
    pattern or is passed over. *)
Lemma keep_file_cases start end_ f :
  fnmatch (name f) = true ->
  (exists y m d, dated_name (name f) y m d)
  \/ keep_file start end_ f = Ok false.
Proof.
  intros Hf. destruct (pattern_match (name f)) as [[[ys ms] ds]|] eqn:Hp.
  - apply pattern_match_spec in Hp.
    destruct Hp as (tail & E & [-> | ->] & Ry & Rm & Rd).
    + left.
      destruct (digit_run_text _ _ Ry) as [y Hy].
      destruct (digit_run_text _ _ Rm) as [m Hm].
      destruct (digit_run_text _ _ Rd) as [d Hd].
      exists y, m, d, ys, ms, ds. split; [exact E|]. tauto.
    + exfalso. rewrite E in Hf.
      destruct (run4 ys Ry) as (a & b & c & e & ->).
      destruct (run2 ms Rm) as (a1 & b1 & ->).
      destruct (run2 ds Rd) as (a2 & b2 & ->).
      vm_compute in Hf. discriminate.
  - right. unfold keep_file. rewrite Hp. reflexivity.
Qed.

Lemma after_last_join dir n :
  existsb (fun b => Ascii.eqb b "/") (list_ascii_of_string n) = false ->
  Str.after_last "/" (path_join dir n) = n.
Proof.
  intros Hn. unfold path_join. induction dir as [|a dir IH].
  - change ("" +:+ "/" +:+ n) with (String "/" n).
    cbn [Str.after_last]. rewrite Hn. reflexivity.
  - rewrite append_cons. cbn [Str.after_last].
    rewrite existsb_append. rewrite (existsb_append _ "/" n).
    cbn [list_ascii_of_string existsb]. rewrite Ascii.eqb_refl.
    rewrite orb_true_r. exact IH.
Qed.

Lemma name_join dir n y m d : dated_name n y m d -> name (path_join dir n) = n.
Proof.
  intros H. apply after_last_join. exact (proj2 (dated_name_plain _ _ _ _ H)).
Qed.

(** The entries the glob yields. *)
Lemma glob_spec dir w :
  exists listing,
    glob dir w = (Ok listing, w)
    /\ List.NoDup listing
    /\ forall p,
         In p listing <->
         is_Some (output_files w !! p)
         /\ p = path_join dir (name p) /\ fnmatch (name p) = true.
Proof.
  unfold glob, get. eexists. split; [reflexivity|]. split.
  - apply List.NoDup_filter. apply NoDup_ListNoDup.
    apply NoDup_fst_map_to_list.
  - intros p. rewrite List.filter_In, andb_true_iff, String.eqb_eq.
    rewrite <- list_elem_of_In, list_elem_of_fmap.
    split.
    + intros [([p' v] & -> & Hin) H]. split; [|exact H].
      apply elem_of_map_to_list in Hin. cbn. rewrite Hin. eexists. reflexivity.
    + intros ([v Hv] & H). split; [|exact H].
      exists (p, v). split; [reflexivity|].
      apply elem_of_map_to_list. exact Hv.
Qed.

Lemma select_app start end_ listing : forall files,
  (forall f, In f listing -> exists b, keep_file start end_ f = Ok b) ->
  select start end_ listing files
  = Ok (files ++ List.filter (kept start end_) listing)%list.
Proof.
  induction listing as [|f listing IH]; intros files H.
  - cbn. rewrite app_nil_r. reflexivity.
  - cbn [select List.filter]. unfold kept at 1.
    destruct (H f (or_introl eq_refl)) as [b Hb]. rewrite Hb.
    destruct b.
    + rewrite IH by (intros f' Hf'; apply H; right; exact Hf').
      rewrite <- app_assoc. reflexivity.
    + apply IH. intros f' Hf'. apply H. right. exact Hf'.
Qed.

Lemma select_raises start end_ listing : forall files f e,
  In f listing -> keep_file start end_ f = Raise e ->
  (forall f' e', keep_file start end_ f' = Raise e' ->
                 exists msg, e' = ValueError msg) ->
  exists msg, select start end_ listing files = Raise (ValueError msg).
Proof.
  induction listing as [|f0 listing IH]; intros files f e Hin Hf Hv;
    [destruct Hin|].
  cbn [select].
  destruct (keep_file start end_ f0) as [[|]|e0] eqn:H0.
  - destruct Hin as [-> | Hin]; [congruence|]. exact (IH _ f e Hin Hf Hv).
  - destruct Hin as [-> | Hin]; [congruence|]. exact (IH _ f e Hin Hf Hv).
  - destruct (Hv f0 e0 H0) as [msg ->]. exists msg. reflexivity.
Qed.

Lemma int_raises s e : int s = Raise e -> exists msg, e = ValueError msg.
Proof.
  unfold int. destruct s; [intros E; inversion E; eexists; reflexivity|].
  destruct (parse_digits _ _); intros E; inversion E. eexists. reflexivity.
Qed.

Lemma datetime_date_raises y m d e :
  datetime_date y m d = Raise e -> exists msg, e = ValueError msg.
Proof.
  unfold datetime_date. destruct (check_date_fields y m d); intros E;
    inversion E. eexists. reflexivity.
Qed.

Lemma keep_file_raises start end_ f e :
  keep_file start end_ f = Raise e -> exists msg, e = ValueError msg.
Proof.
  unfold keep_file.
  destruct (pattern_match (name f)) as [[[ys ms] ds]|]; [|discriminate].
  destruct (int ys) as [y|ey] eqn:Hy.
  - destruct (int ms) as [m|em] eqn:Hm.
    + destruct (int ds) as [d|ed] eqn:Hd.
      * destruct (datetime_date y m d) as [fd|efd] eqn:Hfd.
        -- destruct (match start with Some s => _ | None => _ end);
             [discriminate|].
           destruct (match end_ with Some s => _ | None => _ end);
             discriminate.
        -- intros E. inversion E; subst. exact (datetime_date_raises _ _ _ _ Hfd).
      * intros E. inversion E; subst. exact (int_raises _ _ Hd).
    + destruct (int ds); intros E; inversion E; subst;
        exact (int_raises _ _ Hm).
  - destruct (int ms); destruct (int ds); intros E; inversion E; subst;
      exact (int_raises _ _ Hy).
Qed.

Lemma insert_perm p l : Permutation (insert p l) (p :: l).
Proof.
  induction l as [|q l IH]; [reflexivity|].
  cbn [insert]. destruct (path_ltb q p); [|reflexivity].
  rewrite IH. apply perm_swap.
Qed.

Lemma sorted_perm l : Permutation (sorted l) l.
Proof.
  induction l as [|p l IH]; [reflexivity|].
  cbn [sorted fold_right]. fold (sorted l). rewrite insert_perm.
  constructor. exact IH.
Qed.

End SelectFacts.

Import SelectFacts.

Module ChronoFacts.

Lemma compare_same s : String.compare s s = Eq.
Proof.
  induction s as [|c s IH]; [reflexivity|].
  cbn [String.compare]. unfold Ascii.compare. rewrite N.compare_refl. exact IH.
Qed.

Lemma compare_prefix p s t :
  String.compare (p +:+ s) (p +:+ t) = String.compare s t.
Proof.
  induction p as [|c p IH]; [reflexivity|].
  rewrite !append_cons. cbn [String.compare]. unfold Ascii.compare.
  rewrite N.compare_refl. exact IH.
Qed.

Lemma digit_compare a b ka kb :
  digit_val a = Some ka -> digit_val b = Some kb ->
  Ascii.compare a b = (ka ?= kb).
Proof.
  unfold digit_val, Ascii.compare, nat_of_ascii.
  destruct ((48 <=? _) && (_ <=? 57)); [|discriminate].
  destruct ((48 <=? _) && (_ <=? 57)); [|discriminate].
  intros Ha Hb. inversion Ha. inversion Hb.
  rewrite !N_nat_Z, <- N2Z.inj_compare.
  destruct (Z.compare_spec (Z.of_N (N_of_ascii a)) (Z.of_N (N_of_ascii b)));
    symmetry; [apply Z.compare_eq_iff | apply Z.compare_lt_iff
               | apply Z.compare_gt_iff]; lia.
Qed.

(** Texts of digits of one length compare as the numbers they read
    as. *)
Lemma compare_digits s : forall t x y acc acc' v v',
  String.length s = String.length t ->
  0 <= acc -> 0 <= acc' ->
  parse_digits s acc = Some v -> parse_digits t acc' = Some v' ->
  match acc ?= acc' with
  | Eq => String.compare (s +:+ x) (t +:+ y)
  | c => c
  end
  = match v ?= v' with
    | Eq => String.compare x y
    | c => c
    end.
Proof.
  induction s as [|a s IH]; intros t x y acc acc' v v' Hl Ha Ha' Hv Hv'.
  - destruct t; [|discriminate]. cbn in Hv, Hv'. inversion Hv. inversion Hv'.
    subst. reflexivity.
  - destruct t as [|b t]; [discriminate|].
    cbn [String.length] in Hl. apply eq_add_S in Hl.
    cbn [parse_digits] in Hv, Hv'.
    destruct (digit_val a) as [ka|] eqn:Ea; [|discriminate].
    destruct (digit_val b) as [kb|] eqn:Eb; [|discriminate].
    pose proof (digit_val_bounds _ _ Ea) as Ba.
    pose proof (digit_val_bounds _ _ Eb) as Bb.
    pose proof (parse_digits_bounds s (acc * 10 + ka) v ltac:(lia) Hv) as Bv.
    pose proof (parse_digits_bounds t (acc' * 10 + kb) v' ltac:(lia) Hv') as Bv'.
    rewrite <- Hl in Bv'.
    assert (0 < 10 ^ Z.of_nat (String.length s)) as Hpow
      by (apply Z.pow_pos_nonneg; lia).
    rewrite !append_cons. cbn [String.compare].
    rewrite (digit_compare a b ka kb Ea Eb).
    rewrite <- (IH t x y (acc * 10 + ka) (acc' * 10 + kb) v v' Hl ltac:(lia)
                  ltac:(lia) Hv Hv').
    destruct (Z.compare_spec acc acc') as [E | E | E].
    + subst acc'.
      destruct (Z.compare_spec ka kb) as [E2 | E2 | E2].
      * subst kb. rewrite Z.compare_refl. reflexivity.
      * replace (acc * 10 + ka ?= acc * 10 + kb) with Lt
          by (symmetry; apply Z.compare_lt_iff; lia).
        reflexivity.
      * replace (acc * 10 + ka ?= acc * 10 + kb) with Gt
          by (symmetry; apply Z.compare_gt_iff; lia).
        reflexivity.
    + replace (acc * 10 + ka ?= acc' * 10 + kb) with Lt
        by (symmetry; apply Z.compare_lt_iff; lia).
      reflexivity.
    + replace (acc * 10 + ka ?= acc' * 10 + kb) with Gt
        by (symmetry; apply Z.compare_gt_iff; lia).
      reflexivity.
Qed.

Lemma compare_digit_texts k s t x y v v' :
  digit_text k s v -> digit_text k t v' ->
  String.compare (s +:+ x) (t +:+ y)
  = match v ?= v' with
    | Eq => String.compare x y
    | c => c
    end.
Proof.
  intros [Hl Hv] [Hl' Hv'].
  exact (compare_digits s t x y 0 0 v v' ltac:(congruence) ltac:(lia)
           ltac:(lia) Hv Hv').
Qed.

(** Two names of the shape of the pattern compare as their dates. *)
Lemma compare_dated n n' y m d y' m' d' :
  dated_name n y m d -> dated_name n' y' m' d' ->
  match String.compare n n' with Lt => true | _ => false end
  = date_ltb (mkdate y m d) (mkdate y' m' d').
Proof.
  intros (ys & ms & ds & -> & Hy & Hm & Hd)
         (ys' & ms' & ds' & -> & Hy' & Hm' & Hd').
  rewrite (compare_prefix "ais_").
  rewrite (compare_digit_texts 4 ys ys' _ _ y y' Hy Hy').
  rewrite (compare_prefix "_").
  rewrite (compare_digit_texts 2 ms ms' _ _ m m' Hm Hm').
  rewrite (compare_prefix "_").
  rewrite (compare_digit_texts 2 ds ds' _ _ d d' Hd Hd').
  rewrite compare_same.
  unfold date_ltb, date_leb. cbn [year month day].
  destruct (Z.compare_spec y y'), (Z.compare_spec m m'),
    (Z.compare_spec d d'); subst;
    rewrite ?Z.ltb_irrefl, ?Z.eqb_refl, ?Z.leb_refl; cbn;
    repeat match goal with
      | |- context [?a <? ?b] => destruct (Z.ltb_spec a b)
      | |- context [?a =? ?b] => destruct (Z.eqb_spec a b)
      | |- context [?a <=? ?b] => destruct (Z.leb_spec a b)
      end; cbn; try reflexivity; lia.
Qed.

Lemma split_aux_plain sep n : forall cur,
  existsb (fun b => Ascii.eqb b sep) (list_ascii_of_string n) = false ->
  Str.split_aux sep n cur = [cur +:+ n].
Proof.
  induction n as [|c n IH]; intros cur H.
  - cbn. f_equal. induction cur as [|a cur IHc]; [reflexivity|].
    rewrite append_cons. f_equal. exact IHc.
  - cbn [list_ascii_of_string existsb] in H. apply orb_false_iff in H.
    destruct H as [Hc Hn]. cbn [Str.split_aux]. rewrite Hc.
    rewrite (IH _ Hn). rewrite append_assoc. reflexivity.
Qed.

Lemma split_aux_join sep a n : forall cur,
  Str.split_aux sep (a +:+ String sep n) cur
  = (Str.split_aux sep a cur ++ Str.split_aux sep n "")%list.
Proof.
  induction a as [|c a IH]; intros cur.
  - change ("" +:+ String sep n) with (String sep n).
    cbn [Str.split_aux]. rewrite Ascii.eqb_refl. reflexivity.
  - rewrite append_cons. cbn [Str.split_aux].
    destruct (Ascii.eqb c sep); rewrite IH; reflexivity.
Qed.

Lemma split_path_join dir n :
  existsb (fun b => Ascii.eqb b "/") (list_ascii_of_string n) = false ->
  Str.split "/" (path_join dir n) = (Str.split "/" dir ++ [n])%list.
Proof.
  intros H. unfold Str.split, path_join.
  change ("/" +:+ n) with (String "/" n).
  rewrite split_aux_join, (split_aux_plain "/" n "" H). reflexivity.
Qed.

Lemma parts_ltb_last l a b :
  parts_ltb (l ++ [a]) (l ++ [b])
  = match String.compare a b with Lt => true | _ => false end.
Proof.
  induction l as [|x l IH]; cbn [app parts_ltb].
  - destruct (String.compare a b); reflexivity.
  - rewrite compare_same. exact IH.
Qed.

(** Two files of one directory with names of the shape of the pattern
    compare as their dates. *)
Lemma path_ltb_dated dir n n' y m d y' m' d' :
  dated_name n y m d -> dated_name n' y' m' d' ->
  path_ltb (path_join dir n) (path_join dir n')
  = date_ltb (mkdate y m d) (mkdate y' m' d').
Proof.
  intros H H'. unfold path_ltb.
  rewrite (split_path_join dir n (proj2 (dated_name_plain _ _ _ _ H))).
  rewrite (split_path_join dir n' (proj2 (dated_name_plain _ _ _ _ H'))).
  rewrite parts_ltb_last. exact (compare_dated _ _ _ _ _ _ _ _ H H').
Qed.

Lemma gpkg_name_inj a b :
  valid a -> valid b -> gpkg_name a = gpkg_name b -> a = b.
Proof.
  intros Ha Hb. unfold gpkg_name.
  destruct (isoformat_shape a Ha)
    as (y1 & y2 & y3 & y4 & m1 & m2 & d1 & d2 & Ey & Em & Ed & _ & Py & Pm & Pd).
  destruct (isoformat_shape b Hb)
    as (y1' & y2' & y3' & y4' & m1' & m2' & d1' & d2'
        & Ey' & Em' & Ed' & _ & Py' & Pm' & Pd').
  rewrite Ey, Em, Ed, Ey', Em', Ed' in *. cbv [String.append].
  intros E. inversion E; subst.
  destruct a as [ya ma da], b as [yb mb db]. cbn [year month day] in *.
  congruence.
Qed.

Lemma earlier_trans dir p q r :
  earlier dir p q -> earlier dir q r -> earlier dir p r.
Proof.
  intros (a & b & Va & Vb & -> & -> & Hab) (b' & c & Vb' & Vc & E & -> & Hbc).
  apply path_join_inj in E. apply (gpkg_name_inj _ _ Vb Vb') in E. subst b'.
  exists a, c. repeat split; try assumption.
  apply date_lt_toordinal; [assumption..|].
  apply date_lt_toordinal in Hab, Hbc; try assumption. lia.
Qed.

(** Inserting into a list in order keeps it in order. *)
Lemma insert_sorted (R : string -> string -> Prop) p l :
  (forall a b c, R a b -> R b c -> R a c) ->
  StronglySorted R l ->
  (forall q, In q l ->
             (path_ltb q p = true -> R q p) /\ (path_ltb q p = false -> R p q)) ->
  StronglySorted R (insert p l).
Proof.
  intros Htrans Hs. induction Hs as [|q l Hs IH Hall]; intros H.
  - cbn. constructor; constructor.
  - cbn [insert]. destruct (path_ltb q p) eqn:E.
    + constructor.
      * apply IH. intros q' Hq'. apply H. right. exact Hq'.
      * apply List.Forall_forall. intros x Hx.
        apply (Permutation_in _ (insert_perm p l)) in Hx.
        destruct Hx as [<- | Hx].
        -- apply (H q (or_introl eq_refl)). exact E.
        -- rewrite List.Forall_forall in Hall. apply Hall. exact Hx.
    + assert (R p q) as Hpq by (apply (H q (or_introl eq_refl)); exact E).
      constructor; [constructor; assumption|].
      constructor; [exact Hpq|].
      rewrite List.Forall_forall in *. intros x Hx.
      apply (Htrans p q x Hpq). apply Hall. exact Hx.
Qed.

Lemma sorted_sorted (R : string -> string -> Prop) l :
  (forall a b c, R a b -> R b c -> R a c) ->
  List.NoDup l ->
  (forall p q, In p l -> In q l -> p <> q ->
               (path_ltb q p = true -> R q p) /\ (path_ltb q p = false -> R p q)) ->
  StronglySorted R (sorted l).
Proof.
  intros Htrans Hnd. induction Hnd as [|p l Hp Hnd IH]; intros H.
  - constructor.
  - cbn [sorted fold_right]. fold (sorted l). apply insert_sorted.
    + exact Htrans.
    + apply IH. intros a b Ha Hb. apply H; right; assumption.
    + intros q Hq. apply (Permutation_in _ (sorted_perm l)) in Hq.
      apply H; [left; reflexivity | right; exact Hq|].
      intros ->. exact (Hp Hq).
Qed.

End ChronoFacts.

Import ChronoFacts.

Module GetFacts.

Lemma dated_name_fun n y m d y' m' d' :
  dated_name n y m d -> dated_name n y' m' d' -> y = y' /\ m = m' /\ d = d'.
Proof.
  intros (ys & ms & ds & E & Hy & Hm & Hd) (ys' & ms' & ds' & E' & Hy' & Hm' & Hd').
  assert (pattern_match n = Some (ys, ms, ds)) as P.
  { apply pattern_match_spec. exists "". rewrite E.
    split; [reflexivity|]. split; [left; reflexivity|].
    split; [exact (digit_text_run _ _ _ Hy)|].
    split; [exact (digit_text_run _ _ _ Hm) | exact (digit_text_run _ _ _ Hd)]. }
  assert (pattern_match n = Some (ys', ms', ds')) as P'.
  { apply pattern_match_spec. exists "". rewrite E'.
    split; [reflexivity|]. split; [left; reflexivity|].
    split; [exact (digit_text_run _ _ _ Hy')|].
    split; [exact (digit_text_run _ _ _ Hm') | exact (digit_text_run _ _ _ Hd')]. }
  rewrite P in P'. inversion P'; subst.
  split; [exact (digit_text_fun _ _ _ _ Hy Hy')|].
  split; [exact (digit_text_fun _ _ _ _ Hm Hm')
         | exact (digit_text_fun _ _ _ _ Hd Hd')].
Qed.

Lemma datetime_date_valid y m d :
  check_date_fields y m d = true -> datetime_date y m d = Ok (mkdate y m d).
Proof. intros H. unfold datetime_date. rewrite H. reflexivity. Qed.

(** The loop body on an entry of a directory that holds no file with
    an impossible date. *)
Lemma kept_spec start end_ dir w f :
  (forall n y m d, entry w dir n -> dated_name n y m d ->
                   check_date_fields y m d = true) ->
  is_Some (output_files w !! f) ->
  f = path_join dir (name f) ->
  fnmatch (name f) = true ->
  (exists b, keep_file start end_ f = Ok b)
  /\ (kept start end_ f = true <->
      exists y m d,
        dated_name (name f) y m d /\ in_window start end_ (mkdate y m d)).
Proof.
  intros H Hsome Hf Hfn.
  assert (forall y m d, dated_name (name f) y m d ->
                        keep_file start end_ f
                        = Ok (passes start end_ (mkdate y m d))) as Hk.
  { intros y m d Hd. rewrite (keep_file_dated start end_ f y m d Hd).
    rewrite datetime_date_valid; [reflexivity|].
    apply (H (name f)); [|exact Hd]. unfold entry. rewrite <- Hf. exact Hsome. }
  destruct (keep_file_cases start end_ f Hfn) as [(y & m & d & Hd) | Hno].
  - split; [eexists; exact (Hk y m d Hd)|].
    unfold kept. rewrite (Hk y m d Hd). split.
    + intros Hp. exists y, m, d. split; [exact Hd|]. apply passes_window.
      destruct (passes start end_ (mkdate y m d)); [reflexivity | discriminate].
    + intros (y' & m' & d' & Hd' & Hw).
      destruct (dated_name_fun _ _ _ _ _ _ _ Hd Hd') as (-> & -> & ->).
      apply passes_window in Hw. rewrite Hw. reflexivity.
  - split; [eexists; exact Hno|].
    unfold kept. rewrite Hno. split; [discriminate|].
    intros (y & m & d & Hd & Hw). rewrite (Hk y m d Hd) in Hno.
    apply passes_window in Hw. congruence.
Qed.

(** [get_gpkg_files] on a directory that holds no file with an
    impossible date, with bounds that parse. *)
Lemma get_gpkg_files_spec dir start_date end_date start end_ w :
  parse_bound start_date = Ok start ->
  parse_bound end_date = Ok end_ ->
  (forall n y m d, entry w dir n -> dated_name n y m d ->
                   check_date_fields y m d = true) ->
  exists files,
    get_gpkg_files dir start_date end_date w = (Ok files, w)
    /\ (forall p,
          In p files <->
          exists n y m d,
            p = path_join dir n /\ entry w dir n /\ dated_name n y m d
            /\ in_window start end_ (mkdate y m d))
    /\ List.NoDup files
    /\ StronglySorted (earlier dir) files.
Proof.
  intros Hs He H.
  destruct (glob_spec dir w) as (listing & Hg & Hnd & Hin).
  assert (forall f, In f listing ->
            (exists b, keep_file start end_ f = Ok b)
            /\ (kept start end_ f = true <->
                exists y m d,
                  dated_name (name f) y m d
                  /\ in_window start end_ (mkdate y m d))) as Hk.
  { intros f Hf. apply Hin in Hf. destruct Hf as (H1 & H2 & H3).
    exact (kept_spec start end_ dir w f H H1 H2 H3). }
  exists (sorted (List.filter (kept start end_) listing)).
  assert (forall p,
            In p (List.filter (kept start end_) listing) <->
            exists n y m d,
              p = path_join dir n /\ entry w dir n /\ dated_name n y m d
              /\ in_window start end_ (mkdate y m d)) as Hmem.
  { intros p. rewrite List.filter_In. split.
    - intros [Hp Hkept]. apply (Hk p Hp) in Hkept.
      destruct Hkept as (y & m & d & Hd & Hw).
      apply Hin in Hp. destruct Hp as (H1 & H2 & H3).
      exists (name p), y, m, d. split; [exact H2|].
      split; [unfold entry; rewrite <- H2; exact H1|]. tauto.
    - intros (n & y & m & d & -> & Hent & Hd & Hw).
      pose proof (name_join dir n y m d Hd) as Hn.
      assert (In (path_join dir n) listing) as Hp.
      { apply Hin. rewrite Hn. split; [exact Hent|].
        split; [reflexivity|]. exact (proj1 (dated_name_plain _ _ _ _ Hd)). }
      split; [exact Hp|]. apply (Hk _ Hp). exists y, m, d.
      rewrite Hn. tauto. }
  split.
  { unfold get_gpkg_files, bind, lift, ret. rewrite Hs, He, Hg.
    rewrite (select_app start end_ listing []
               (fun f Hf => proj1 (Hk f Hf))).
    reflexivity. }
  split.
  { intros p. rewrite <- Hmem. split; apply Permutation_in;
      [apply sorted_perm | symmetry; apply sorted_perm]. }
  split.
  { apply (Permutation_NoDup (Permutation_sym (sorted_perm _))).
    apply List.NoDup_filter. exact Hnd. }
  apply sorted_sorted.
  - apply earlier_trans.
  - apply List.NoDup_filter. exact Hnd.
  - intros p q Hp Hq Hne.
    apply Hmem in Hp, Hq.
    destruct Hp as (n & y & m & d & -> & Hent & Hd & _).
    destruct Hq as (n' & y' & m' & d' & -> & Hent' & Hd' & _).
    pose proof (H _ _ _ _ Hent Hd) as V. pose proof (H _ _ _ _ Hent' Hd') as V'.
    rewrite (path_ltb_dated dir n' n _ _ _ _ _ _ Hd' Hd).
    rewrite (dated_name_gpkg _ _ _ _ Hd) in *.
    rewrite (dated_name_gpkg _ _ _ _ Hd') in *.
    unfold date_ltb. split.
    + intros E. apply negb_true_iff in E.
      exists (mkdate y' m' d'), (mkdate y m d).
      repeat split; try assumption.
    + intros E. apply negb_false_iff in E.
      exists (mkdate y m d), (mkdate y' m' d').
      repeat split; try assumption.
      unfold date_lt. destruct (date_leb (mkdate y' m' d') (mkdate y m d)) eqn:E2;
        [|reflexivity].
      exfalso. apply Hne. f_equal. f_equal.
      exact (date_leb_antisym _ _ E E2).
Qed.

End GetFacts.

Import GetFacts.

Module BoundFacts.

Lemma digit_in_any c k : digit_val c = Some k -> digit_in 0 9 c = Some k.
Proof.
  intros H. unfold digit_in. rewrite H.
  pose proof (digit_val_bounds c k H) as B.
  replace (0 <=? k) with true by (symmetry; apply Z.leb_le; lia).
  replace (k <=? 9) with true by (symmetry; apply Z.leb_le; lia).
  reflexivity.
Qed.

(** [%Y] on four digits. *)
Lemma directive_Y_zfill {A} (k : Z -> string -> option A) y rest :
  0 <= y <= 9999 ->
  directive_Y k (Str.zfill 4 y +:+ rest) = k y rest.
Proof.
  intros Hy.
  destruct (zfill4_spec y Hy) as (a & b & c & d & E & Ha & Hb & Hc & Hd & P).
  rewrite E in *. cbv [String.append]. fold String.append.
  cbn [parse_digits] in P. unfold is_digit in *.
  destruct (digit_val a) as [ka|] eqn:Ea; [|discriminate].
  destruct (digit_val b) as [kb|] eqn:Eb; [|discriminate].
  destruct (digit_val c) as [kc|] eqn:Ec; [|discriminate].
  destruct (digit_val d) as [kd|] eqn:Ed; [|discriminate].
  unfold directive_Y.
  rewrite (digit_in_any a ka Ea), (digit_in_any b kb Eb),
    (digit_in_any c kc Ec), (digit_in_any d kd Ed).
  inversion P. f_equal. lia.
Qed.

Ltac eval_digits :=
  repeat (progress (
    repeat match goal with
      | |- context [digit_in ?lo ?hi ?c] =>
          let v := eval vm_compute in (digit_in lo hi c) in
          change (digit_in lo hi c) with v
      | |- context [Ascii.eqb ?a ?b] =>
          let v := eval vm_compute in (Ascii.eqb a b) in
          change (Ascii.eqb a b) with v
      end;
    cbv beta iota)).

(** [%m], followed by a dash, on a month of two digits. *)
Lemma directive_m_zfill {A} (k : Z -> string -> option A) m rest :
  1 <= m <= 12 ->
  directive_m (fun v => dash (k v)) (Str.zfill 2 m +:+ String "-" rest)
  = k m rest.
Proof.
  intros Hm.
  destruct (month_cases m Hm)
    as [-> | [-> | [-> | [-> | [-> | [-> | [-> | [-> | [-> | [-> | [-> | ->]]]]]]]]]]];
    match goal with
    | |- context [Str.zfill 2 ?n] =>
        let s := eval vm_compute in (Str.zfill 2 n) in
        change (Str.zfill 2 n) with s
    end;
    cbv [String.append directive_m first_alt two_digits one_digit dash];
    eval_digits; destruct (k _ rest); reflexivity.
Qed.

(** [%d], at the end of the pattern, on a day of two digits. *)
Lemma directive_d_zfill {A} (r : Z -> string -> A) d :
  1 <= d <= 31 ->
  directive_d (fun v rest => Some (r v rest)) (Str.zfill 2 d) = Some (r d "").
Proof.
  intros Hd.
  assert (exists n, d = Z.of_nat n /\ (1 <= n <= 31)%nat) as (n & -> & Hn)
    by (exists (Z.to_nat d); lia).
  do 32 (destruct n as [|n]; [try lia; vm_compute; reflexivity|]). lia.
Qed.

(** The ISO text of a day of the calendar is read back as that day. *)
Lemma strptime_isoformat d : valid d -> strptime_date (isoformat d) = Ok d.
Proof.
  intros Hd. pose proof Hd as Hc. apply check_date_fields_spec in Hc.
  pose proof (days_in_month_le (year d) (month d)) as Hle.
  unfold strptime_date, format_regex_match, isoformat.
  rewrite directive_Y_zfill by lia.
  change ("-" +:+ Str.zfill 2 (month d) +:+ "-" +:+ Str.zfill 2 (day d))
    with (String "-" (Str.zfill 2 (month d) +:+ String "-" (Str.zfill 2 (day d)))).
  unfold dash at 1. rewrite Ascii.eqb_refl.
  rewrite (directive_m_zfill
             (fun m => directive_d (fun d0 rest => Some (year d, m, d0, rest))))
    by lia.
  rewrite (directive_d_zfill (fun d0 rest => (year d, month d, d0, rest)))
    by lia.
  unfold datetime_date. unfold valid in Hd. rewrite Hd.
  destruct d. reflexivity.
Qed.

End BoundFacts.

Import BoundFacts.

Module WitnessFacts.

Lemma dated_name_match n y m d :
  dated_name n y m d ->
  exists ys ms ds,
    pattern_match n = Some (ys, ms, ds)
    /\ int ys = Ok y /\ int ms = Ok m /\ int ds = Ok d.
Proof.
  intros (ys & ms & ds & E & Hy & Hm & Hd). exists ys, ms, ds.
  split.
  - apply pattern_match_spec. exists "". rewrite E.
    split; [reflexivity|]. split; [left; reflexivity|].
    split; [exact (digit_text_run _ _ _ Hy)|].
    split; [exact (digit_text_run _ _ _ Hm) | exact (digit_text_run _ _ _ Hd)].
  - rewrite (int_digit_text _ _ _ Hy), (int_digit_text _ _ _ Hm),
      (int_digit_text _ _ _ Hd). repeat split.
Qed.

(** The names of the entries of a directory of the example. *)
Lemma outputs_entries n :
  entry MergeExample.outputs OUTPUT_DIR n ->
  n = "ais_2022_01_03.gpkg" \/ n = "ais_2021_12_31.gpkg"
  \/ n = "ais_2022_01_01.gpkg" \/ n = "leases.gpkg"
  \/ n = "old/ais_2022_01_02.gpkg".
Proof.
  unfold entry, MergeExample.outputs. cbn [output_files set_output_files].
  intros [v H].
  repeat (apply lookup_insert_Some in H;
          destruct H as [[H _] | [_ H]];
          [apply (path_join_inj OUTPUT_DIR) in H; subst n; tauto|]).
  rewrite lookup_empty in H. discriminate.
Qed.

Lemma outputs_possible n y m d :
  entry MergeExample.outputs OUTPUT_DIR n -> dated_name n y m d ->
  check_date_fields y m d = true.
Proof.
  intros He Hd. apply dated_name_match in Hd.
  destruct Hd as (ys & ms & ds & Hp & Hy & Hm & Hd).
  destruct (outputs_entries n He) as [-> | [-> | [-> | [-> | ->]]]];
    vm_compute in Hp; inversion Hp; subst;
    vm_compute in Hy, Hm, Hd; inversion Hy; inversion Hm; inversion Hd;
    reflexivity.
Qed.

Lemma processed_day1_possible n y m d :
  entry Example.processed_day1 OUTPUT_DIR n -> dated_name n y m d ->
  check_date_fields y m d = true.
Proof.
  intros He Hd. apply dated_name_match in Hd.
  destruct Hd as (ys & ms & ds & Hp & Hy & Hm & Hd).
  assert (n = "ais_2022_01_01.gpkg") as ->.
  { unfold entry in He.
    replace (output_files Example.processed_day1)
      with (<["output/ais_2022_01_01.gpkg" := [MergeExample.kept_row]]>
              (∅ : gmap string frame)) in He
      by (vm_compute; reflexivity).
    destruct He as [v H]. apply lookup_insert_Some in H.
    destruct H as [[H _] | [_ H]].
    - apply (path_join_inj OUTPUT_DIR) in H. congruence.
    - rewrite lookup_empty in H. discriminate. }
  vm_compute in Hp. inversion Hp; subst.
  vm_compute in Hy, Hm, Hd. inversion Hy; inversion Hm; inversion Hd.
  reflexivity.
Qed.

End WitnessFacts.

Import WitnessFacts.

Module FoundFacts.

(** From the year 1000 on, the GeoPackage [process_date] asks for is
    the GeoPackage of the day. *)
Lemma day_output_gpkg d :
  valid d -> 1000 <= year d ->
  gpkg_path OUTPUT_DIR (day_output_name d) = path_join OUTPUT_DIR (gpkg_name d).
Proof.
  intros Hd Hy.
  assert (year d <= 9999) as Hy9.
  { apply check_date_fields_spec in Hd. lia. }
  unfold gpkg_path, day_output_name, gpkg_name. f_equal.
  rewrite (of_Z_zfill4 (year d)) by lia.
  rewrite !append_assoc. reflexivity.
Qed.

End FoundFacts.

Import FoundFacts.

(** X19: on a directory that holds no file with an impossible date,
    and with bounds that parse, [get_gpkg_files] returns exactly the
    files of the directory itself that are named [ais_YYYY_MM_DD.gpkg]
    and whose date lies between the bounds that are given, both
    included; other files, and the files of other directories, are
    passed over. *)
Theorem get_gpkg_files_selects (output_dir : string)
    (start_date end_date : option string) (start end_ : option date)
    (w : world) :
  parse_bound start_date = Ok start ->
  parse_bound end_date = Ok end_ ->
  (forall n y m d, entry w output_dir n -> dated_name n y m d ->
                   check_date_fields y m d = true) ->
  exists files,
    get_gpkg_files output_dir start_date end_date w = (Ok files, w)
    /\ forall p,
         In p files <->
         exists n y m d,
           p = path_join output_dir n /\ entry w output_dir n
           /\ dated_name n y m d /\ in_window start end_ (mkdate y m d).
Proof.
  intros Hs He H.
  destruct (get_gpkg_files_spec output_dir start_date end_date start end_ w
              Hs He H) as (files & Hg & Hmem & _).
  exists files. split; assumption.
Qed.

Lemma get_gpkg_files_selects_witness :
  exists files,
    get_gpkg_files OUTPUT_DIR (Some "2022-01-01") None MergeExample.outputs
    = (Ok files, MergeExample.outputs)
    /\ forall p,
         In p files <->
         exists n y m d,
           p = path_join OUTPUT_DIR n /\ entry MergeExample.outputs OUTPUT_DIR n
           /\ dated_name n y m d
           /\ in_window (Some (mkdate 2022 1 1)) None (mkdate y m d).
Proof.
  apply (get_gpkg_files_selects OUTPUT_DIR (Some "2022-01-01") None
           (Some (mkdate 2022 1 1)) None MergeExample.outputs).
  - reflexivity.
  - reflexivity.
  - exact outputs_possible.
Defined.

(** X20: under the conditions of X19 the list [get_gpkg_files]
    returns holds no file twice and is in the order of the dates of
    the files, the earliest first: for these names the sort by path is
    the sort by date. *)
Theorem get_gpkg_files_chronological (output_dir : string)
    (start_date end_date : option string) (start end_ : option date)
    (w : world) :
  parse_bound start_date = Ok start ->
  parse_bound end_date = Ok end_ ->
  (forall n y m d, entry w output_dir n -> dated_name n y m d ->
                   check_date_fields y m d = true) ->
  exists files,
    get_gpkg_files output_dir start_date end_date w = (Ok files, w)
    /\ List.NoDup files
    /\ StronglySorted (earlier output_dir) files.
Proof.
  intros Hs He H.
  destruct (get_gpkg_files_spec output_dir start_date end_date start end_ w
              Hs He H) as (files & Hg & _ & Hnd & Hsorted).
  exists files. repeat split; assumption.
Qed.

Lemma get_gpkg_files_chronological_witness :
  exists files,
    get_gpkg_files OUTPUT_DIR None None MergeExample.outputs
    = (Ok files, MergeExample.outputs)
    /\ List.NoDup files
    /\ StronglySorted (earlier OUTPUT_DIR) files.
Proof.
  apply (get_gpkg_files_chronological OUTPUT_DIR None None None None
           MergeExample.outputs).
  - reflexivity.
  - reflexivity.
  - exact outputs_possible.
Defined.

(** X21: a file of the directory whose name has the shape of the
    pattern and whose digits are no day of the calendar (a 13th month,
    a 30th of February, the year 0) makes [get_gpkg_files] raise
    ValueError, whatever bounds it is given, as long as they parse. *)
Theorem get_gpkg_files_impossible_date (output_dir : string)
    (start_date end_date : option string) (start end_ : option date)
    (w : world) (n : string) (y m d : Z) :
  parse_bound start_date = Ok start ->
  parse_bound end_date = Ok end_ ->
  entry w output_dir n ->
  dated_name n y m d ->
  check_date_fields y m d = false ->
  exists msg,
    get_gpkg_files output_dir start_date end_date w
    = (Raise (ValueError msg), w).
Proof.
  intros Hs He Hent Hd Hc.
  destruct (glob_spec output_dir w) as (listing & Hg & _ & Hin).
  pose proof (name_join output_dir n y m d Hd) as Hn.
  assert (In (path_join output_dir n) listing) as Hp.
  { apply Hin. rewrite Hn. split; [exact Hent|].
    split; [reflexivity|]. exact (proj1 (dated_name_plain _ _ _ _ Hd)). }
  assert (keep_file start end_ (path_join output_dir n)
          = Raise (ValueError "date value out of range")) as Hk.
  { rewrite (keep_file_dated start end_ _ y m d) by (rewrite Hn; exact Hd).
    unfold datetime_date. rewrite Hc. reflexivity. }
  destruct (select_raises start end_ listing [] _ _ Hp Hk
              (keep_file_raises start end_)) as [msg Hsel].
  exists msg. unfold get_gpkg_files, bind, lift. rewrite Hs, He, Hg, Hsel.
  reflexivity.
Qed.

Lemma get_gpkg_files_impossible_date_witness :
  exists msg,
    get_gpkg_files OUTPUT_DIR (Some "2022-01-01") (Some "2022-01-31")
      MergeExample.misdated
    = (Raise (ValueError msg), MergeExample.misdated).
Proof.
  apply (get_gpkg_files_impossible_date OUTPUT_DIR (Some "2022-01-01")
           (Some "2022-01-31") (Some (mkdate 2022 1 1))
           (Some (mkdate 2022 1 31)) MergeExample.misdated
           "ais_2022_13_01.gpkg" 2022 13 1).
  - reflexivity.
  - reflexivity.
  - eexists. vm_compute. reflexivity.
  - exists "2022", "13", "01". vm_compute. repeat split.
  - reflexivity.
Defined.

(** X22: the ISO text of a day of the calendar is accepted as a
    bound and read back as that day; the empty text stands for no
    bound, as None does. *)
Theorem bound_round_trip (d : date) :
  valid d ->
  strptime_date (isoformat d) = Ok d
  /\ parse_bound (Some (isoformat d)) = Ok (Some d)
  /\ parse_bound (Some "") = Ok None
  /\ parse_bound None = Ok None.
Proof.
  intros Hd. pose proof (strptime_isoformat d Hd) as Hs.
  split; [exact Hs|]. split; [|split; reflexivity].
  unfold parse_bound.
  pose proof (isoformat_nonempty d Hd) as Hne.
  destruct (isoformat d) eqn:E; [discriminate|]. rewrite Hs. reflexivity.
Qed.

Lemma bound_round_trip_witness :
  strptime_date (isoformat (mkdate 2024 2 29)) = Ok (mkdate 2024 2 29)
  /\ parse_bound (Some (isoformat (mkdate 2024 2 29)))
     = Ok (Some (mkdate 2024 2 29))
  /\ parse_bound (Some "") = Ok None
  /\ parse_bound None = Ok None.
Proof.
  apply (bound_round_trip (mkdate 2024 2 29)). reflexivity.
Defined.

(** X23: from the year 1000 on, the GeoPackage [process_ais] writes
    under the name [process_date] passes for a day is the file
    [ais_YYYY_MM_DD.gpkg] of the output directory for that day, and
    [get_gpkg_files] without bounds returns it, when the directory
    holds no file with an impossible date. *)
Theorem batch_output_is_found (d : date) (csv_path : string)
    (w w' : world) (path : string) :
  valid d -> 1000 <= year d ->
  process_ais csv_path OUTPUT_DIR (Some (day_output_name d)) w
  = (Ok (Some path), w') ->
  (forall n y m d', entry w' OUTPUT_DIR n -> dated_name n y m d' ->
                    check_date_fields y m d' = true) ->
  path = path_join OUTPUT_DIR (gpkg_name d)
  /\ exists files,
       get_gpkg_files OUTPUT_DIR None None w' = (Ok files, w')
       /\ In path files.
Proof.
  intros Hd Hy Hp H.
  destruct (process_ais_writes_one_file _ _ _ _ _ _ Hp)
    as [_ [[E _] | [E (rows & _ & Hout)]]]; [discriminate|].
  inversion E; subst path. rewrite (day_output_gpkg d Hd Hy) in *.
  split; [reflexivity|].
  destruct (get_gpkg_files_spec OUTPUT_DIR None None None None w'
              eq_refl eq_refl H) as (files & Hg & Hmem & _).
  exists files. split; [exact Hg|]. apply Hmem.
  exists (gpkg_name d), (year d), (month d), (day d).
  split; [reflexivity|]. split.
  - unfold entry. rewrite Hout, lookup_insert_eq. eexists. reflexivity.
  - split; [exact (gpkg_name_dated d Hd)|]. split; discriminate.
Qed.

Lemma batch_output_is_found_witness :
  "output/ais_2022_01_01.gpkg" = path_join OUTPUT_DIR (gpkg_name Example.day1)
  /\ exists files,
       get_gpkg_files OUTPUT_DIR None None Example.processed_day1
       = (Ok files, Example.processed_day1)
       /\ In "output/ais_2022_01_01.gpkg" files.
Proof.
  apply (batch_output_is_found Example.day1 "data/AIS_2022_01_01.csv"
           Example.fetched Example.processed_day1
           "output/ais_2022_01_01.gpkg").
  - reflexivity.
  - vm_compute. discriminate.
  - vm_compute. reflexivity.
  - exact processed_day1_possible.
Defined.

Module BatchFacts.

Lemma read_files_all w files gdfs :
  holds w files gdfs -> read_files files w = (Ok gdfs, w).
Proof.
  induction 1 as [|f gdf files gdfs Hf _ IH]; [reflexivity|].
  cbn [read_files]. unfold bind, read_file, ret. cbv beta.
  rewrite Hf, IH. reflexivity.
Qed.

Lemma sum_len_from gdfs : forall acc,
  fold_left (fun acc (gdf : frame) => acc + Z.of_nat (List.length gdf)) gdfs acc
  = acc + Z.of_nat (List.length (List.concat gdfs)).
Proof.
  induction gdfs as [|g gdfs IH]; intros acc; cbn [fold_left List.concat].
  - cbn. lia.
  - rewrite IH, List.length_app. lia.
Qed.

Lemma sum_len_concat gdfs :
  sum_len gdfs = Z.of_nat (List.length (List.concat gdfs)).
Proof. unfold sum_len. rewrite sum_len_from. lia. Qed.

Lemma concat_pieces {A} b (l : list A) c :
  List.concat (map (piece b l) (seq 0 c)) = take (c * b) l.
Proof.
  induction c as [|c IH]; [reflexivity|].
  rewrite seq_S, map_app, List.concat_app, IH. cbn [map List.concat plus].
  rewrite app_nil_r. unfold piece.
  rewrite take_take_drop. f_equal. lia.
Qed.

Lemma holds_piece w files gdfs b j :
  holds w files gdfs -> holds w (piece b files j) (piece b gdfs j).
Proof. intros H. unfold piece. apply Forall2_take, Forall2_drop. exact H. Qed.

Lemma slice_piece {A} (l : list A) (j : nat) (bs : Z) :
  0 < bs ->
  slice l (0 + Z.of_nat j * bs) (0 + Z.of_nat j * bs + bs)
  = piece (Z.to_nat bs) l j.
Proof.
  intros Hb. unfold slice, piece. f_equal; [lia|]. f_equal. nia.
Qed.

(** The loop of [iter_gdfs] over starts that lie within the list. *)
Lemma iter_loop_spec w files gdfs bs c : forall k,
  0 < bs -> holds w files gdfs ->
  (forall j, (k <= j < k + c)%nat -> (j * Z.to_nat bs < List.length gdfs)%nat) ->
  iter_loop (map (fun j => 0 + Z.of_nat j * bs) (seq k c)) files bs w
  = (Ok (map (fun j => List.concat (piece (Z.to_nat bs) gdfs j)) (seq k c),
         StopIteration), w).
Proof.
  induction c as [|c IH]; intros k Hb Hh Hin; [reflexivity|].
  cbn [seq map iter_loop]. unfold try_except, bind at 1, bind at 1.
  rewrite (slice_piece files k bs Hb).
  rewrite (read_files_all w _ _ (holds_piece w files gdfs (Z.to_nat bs) k Hh)).
  assert (piece (Z.to_nat bs) gdfs k <> []) as Hne.
  { unfold piece. intros E. apply (f_equal List.length) in E.
    rewrite length_take, length_drop in E. cbn in E.
    specialize (Hin k ltac:(lia)). lia. }
  unfold lift, concat.
  destruct (piece (Z.to_nat bs) gdfs k) as [|g gs] eqn:Ep; [congruence|].
  unfold bind. rewrite (IH (S k) Hb Hh) by (intros j Hj; apply Hin; lia).
  reflexivity.
Qed.

Lemma range_count n bs :
  0 < bs -> 0 <= n ->
  exists c : nat,
    range 0 n bs = Ok (map (fun j => 0 + Z.of_nat j * bs) (seq 0 c))
    /\ (forall j, (j < c)%nat -> Z.of_nat j * bs < n)
    /\ n <= Z.of_nat c * bs
    /\ Z.of_nat c = (n + bs - 1) / bs.
Proof.
  intros Hb Hn. unfold range.
  replace (bs =? 0) with false by (symmetry; apply Z.eqb_neq; lia).
  replace (0 <? bs) with true by (symmetry; apply Z.ltb_lt; lia).
  destruct (0 <? n) eqn:E.
  - apply Z.ltb_lt in E. exists (Z.to_nat ((n - 0 - 1) / bs + 1)).
    split; [reflexivity|].
    assert (0 <= (n - 0 - 1) / bs) by (apply Z.div_pos; lia).
    rewrite Z2Nat.id by lia.
    pose proof (Z.div_mod (n - 0 - 1) bs ltac:(lia)) as Hdm.
    pose proof (Z.mod_pos_bound (n - 0 - 1) bs Hb) as Hmod.
    split; [intros j Hj; nia|]. split; [nia|].
    replace (n + bs - 1) with (n - 0 - 1 + 1 * bs) by lia.
    rewrite Z.div_add by lia. reflexivity.
  - apply Z.ltb_ge in E. exists O. split; [reflexivity|].
    split; [intros j Hj; lia|]. split; [lia|].
    assert (n = 0) by lia. subst n.
    rewrite Z.div_small by lia. reflexivity.
Qed.

Lemma merge_to_parquet_ok gpkg_files output_path batch_size show_progress
    (parquet : gmap string frame) gdfs w :
  gpkg_files <> [] ->
  holds w gpkg_files gdfs ->
  sink_fails w output_path = false ->
  merge_to_parquet gpkg_files output_path batch_size show_progress parquet w
  = (Ok (output_path, Z.of_nat (List.length (List.concat gdfs)),
         <[output_path := List.concat gdfs]> parquet), w).
Proof.
  intros Hne Hh Hs. unfold merge_to_parquet, bind.
  rewrite (read_files_all w _ _ Hh). unfold lift, concat.
  destruct gdfs as [|g gdfs].
  { inversion Hh. congruence. }
  unfold to_parquet. rewrite Hs. unfold ret.
  rewrite sum_len_concat. reflexivity.
Qed.

Lemma holds_entries w files :
  (forall p, In p files -> is_Some (output_files w !! p)) ->
  exists gdfs, holds w files gdfs.
Proof.
  induction files as [|f files IH]; intros H.
  - exists []. constructor.
  - destruct (H f (or_introl eq_refl)) as [g Hg].
    destruct IH as [gdfs Hh]; [intros p Hp; apply H; right; exact Hp|].
    exists (g :: gdfs). constructor; assumption.
Qed.

End BatchFacts.

Import BatchFacts.

(** X24: with a positive batch size and every file readable,
    [iter_gdfs] yields the concatenations of consecutive runs of the
    frames of the files and stops; the runs, in order, make up the
    frames of all the files, none is empty, none is longer than
    [batch_size], and their number is the number of files over
    [batch_size], rounded up. *)
Theorem iter_gdfs_partitions (gpkg_files : list string) (batch_size : Z)
    (gdfs : list frame) (w : world) :
  0 < batch_size ->
  holds w gpkg_files gdfs ->
  exists pieces,
    iter_gdfs gpkg_files batch_size w
    = (Ok (map (@List.concat _) pieces, StopIteration), w)
    /\ List.concat pieces = gdfs
    /\ Forall (fun p => (0 < List.length p <= Z.to_nat batch_size)%nat) pieces
    /\ Z.of_nat (List.length pieces)
       = (Z.of_nat (List.length gpkg_files) + batch_size - 1) / batch_size.
Proof.
  intros Hb Hh.
  destruct (range_count (Z.of_nat (List.length gpkg_files)) batch_size Hb
              ltac:(lia)) as (c & Hr & Hlt & Hge & Hc).
  pose proof (Forall2_length _ _ _ Hh) as Hlen.
  exists (map (piece (Z.to_nat batch_size) gdfs) (seq 0 c)).
  split.
  { unfold iter_gdfs, try_except, bind, lift. rewrite Hr.
    rewrite (iter_loop_spec w gpkg_files gdfs batch_size c 0%nat Hb Hh).
    - rewrite map_map. reflexivity.
    - intros j Hj. specialize (Hlt j ltac:(lia)).
      rewrite <- Hlen. nia. }
  split.
  { rewrite concat_pieces. apply take_ge. rewrite <- Hlen. nia. }
  split.
  { apply List.Forall_forall. intros p Hp. apply in_map_iff in Hp.
    destruct Hp as (j & <- & Hj). apply in_seq in Hj.
    unfold piece. rewrite length_take, length_drop.
    specialize (Hlt j ltac:(lia)). rewrite <- Hlen. nia. }
  rewrite List.length_map, List.length_seq. exact Hc.
Qed.

Lemma iter_gdfs_partitions_witness :
  exists pieces,
    iter_gdfs
      ["output/ais_2021_12_31.gpkg"; "output/ais_2022_01_01.gpkg";
       "output/ais_2022_01_03.gpkg"] 2 MergeExample.outputs
    = (Ok (map (@List.concat _) pieces, StopIteration), MergeExample.outputs)
    /\ List.concat pieces
       = [[MergeExample.kept_row]; [MergeExample.kept_row];
          [MergeExample.kept_row; MergeExample.kept_row]]
    /\ Forall (fun p => (0 < List.length p <= Z.to_nat 2)%nat) pieces
    /\ Z.of_nat (List.length pieces)
       = (Z.of_nat
            (List.length
               ["output/ais_2021_12_31.gpkg"; "output/ais_2022_01_01.gpkg";
                "output/ais_2022_01_03.gpkg"]) + 2 - 1) / 2.
Proof.
  apply (iter_gdfs_partitions
           ["output/ais_2021_12_31.gpkg"; "output/ais_2022_01_01.gpkg";
            "output/ais_2022_01_03.gpkg"] 2
           [[MergeExample.kept_row]; [MergeExample.kept_row];
            [MergeExample.kept_row; MergeExample.kept_row]] MergeExample.outputs).
  - lia.
  - repeat constructor.
Defined.

(** X25: with batch size 0 the generator raises ValueError at its
    first step, from [range]; with a negative batch size it yields
    nothing and stops; either way the files are as they were. *)
Theorem iter_gdfs_without_batches (gpkg_files : list string) (batch_size : Z)
    (w : world) :
  batch_size <= 0 ->
  iter_gdfs gpkg_files batch_size w
  = (Ok ([], if batch_size =? 0
             then Raised (ValueError "range() arg 3 must not be zero")
             else StopIteration), w).
Proof.
  intros Hb. unfold iter_gdfs, try_except, bind, lift, range.
  destruct (batch_size =? 0) eqn:E; [reflexivity|].
  apply Z.eqb_neq in E.
  replace (0 <? batch_size) with false by (symmetry; apply Z.ltb_ge; lia).
  replace (Z.of_nat (List.length gpkg_files) <? 0) with false
    by (symmetry; apply Z.ltb_ge; lia).
  reflexivity.
Qed.

Lemma iter_gdfs_without_batches_witness :
  iter_gdfs ["output/ais_2022_01_01.gpkg"] (-1) MergeExample.outputs
  = (Ok ([], if -1 =? 0
             then Raised (ValueError "range() arg 3 must not be zero")
             else StopIteration), MergeExample.outputs).
Proof.
  apply (iter_gdfs_without_batches ["output/ais_2022_01_01.gpkg"] (-1)
           MergeExample.outputs).
  lia.
Defined.

(** X26: for a list of readable files that is not empty and a path
    that can be written and is not a GeoPackage file, [merge_to_parquet]
    writes the concatenation of the frames of the files, in the order
    of the list, and returns the path with a row count that is the
    number of rows written, whatever [batch_size] and [show_progress]
    are. *)
Theorem merge_to_parquet_concatenates (gpkg_files : list string)
    (output_path : string) (batch_size : Z) (show_progress : bool)
    (parquet : gmap string frame) (gdfs : list frame) (w : world) :
  gpkg_files <> [] ->
  holds w gpkg_files gdfs ->
  output_files w !! output_path = None ->
  sink_fails w output_path = false ->
  merge_to_parquet gpkg_files output_path batch_size show_progress parquet w
  = (Ok (output_path, Z.of_nat (List.length (List.concat gdfs)),
         <[output_path := List.concat gdfs]> parquet), w).
Proof.
  intros Hne Hh _ Hs.
  exact (merge_to_parquet_ok _ _ _ _ _ _ _ Hne Hh Hs).
Qed.

Lemma merge_to_parquet_concatenates_witness :
  merge_to_parquet
    ["output/ais_2021_12_31.gpkg"; "output/ais_2022_01_03.gpkg"]
    "merged.parquet" 10 true ∅ MergeExample.outputs
  = (Ok ("merged.parquet",
         Z.of_nat
           (List.length
              (List.concat
                 [[MergeExample.kept_row]; [MergeExample.kept_row; MergeExample.kept_row]])),
         <["merged.parquet" :=
             List.concat
               [[MergeExample.kept_row]; [MergeExample.kept_row; MergeExample.kept_row]]]>
           ∅),
     MergeExample.outputs).
Proof.
  apply (merge_to_parquet_concatenates
           ["output/ais_2021_12_31.gpkg"; "output/ais_2022_01_03.gpkg"]
           "merged.parquet" 10 true ∅
           [[MergeExample.kept_row]; [MergeExample.kept_row; MergeExample.kept_row]]
           MergeExample.outputs).
  - discriminate.
  - repeat constructor.
  - reflexivity.
  - reflexivity.
Defined.

(** X27: under the conditions of X19 and with an output path that
    can be written and is not a GeoPackage file, [main] of
    merge_gpkg.py returns 1 and writes nothing when no file is
    selected; otherwise it returns 0, and the parquet file holds the
    rows of the selected files in the order of their dates. *)
Theorem main_merges_in_date_order (args : Args)
    (parquet : gmap string frame) (start end_ : option date) (w : world) :
  parse_bound (start_date args) = Ok start ->
  parse_bound (end_date args) = Ok end_ ->
  (forall n y m d, entry w (input_dir args) n -> dated_name n y m d ->
                   check_date_fields y m d = true) ->
  output_files w !! output args = None ->
  sink_fails w (output args) = false ->
  exists files gdfs,
    get_gpkg_files (input_dir args) (start_date args) (end_date args) w
    = (Ok files, w)
    /\ StronglySorted (earlier (input_dir args)) files
    /\ holds w files gdfs
    /\ MergeGpkg.main args parquet w
       = (Ok (match files with
              | [] => (1, parquet)
              | _ => (0, <[output args := List.concat gdfs]> parquet)
              end), w).
Proof.
  intros Hs He H _ Hsink.
  destruct (get_gpkg_files_spec _ _ _ _ _ w Hs He H)
    as (files & Hg & Hmem & _ & Hsorted).
  destruct (holds_entries w files) as [gdfs Hh].
  { intros p Hp. apply Hmem in Hp.
    destruct Hp as (n & y & m & d & -> & Hent & _). exact Hent. }
  exists files, gdfs. split; [exact Hg|]. split; [exact Hsorted|].
  split; [exact Hh|].
  unfold MergeGpkg.main. unfold bind at 1. rewrite Hg.
  destruct files as [|f files]; [reflexivity|].
  unfold bind.
  rewrite (merge_to_parquet_ok (f :: files) (output args) (batch_size args)
             true parquet gdfs w ltac:(discriminate) Hh Hsink).
  reflexivity.
Qed.

Lemma main_merges_in_date_order_witness :
  exists files gdfs,
    get_gpkg_files OUTPUT_DIR (Some "2022-01-01") None MergeExample.outputs
    = (Ok files, MergeExample.outputs)
    /\ StronglySorted (earlier OUTPUT_DIR) files
    /\ holds MergeExample.outputs files gdfs
    /\ MergeGpkg.main
         (mkargs OUTPUT_DIR "merged.parquet" (Some "2022-01-01") None 10) ∅
         MergeExample.outputs
       = (Ok (match files with
              | [] => (1, ∅)
              | _ => (0, <["merged.parquet" := List.concat gdfs]> ∅)
              end), MergeExample.outputs).
Proof.
  apply (main_merges_in_date_order
           (mkargs OUTPUT_DIR "merged.parquet" (Some "2022-01-01") None 10) ∅
           (Some (mkdate 2022 1 1)) None MergeExample.outputs).
  - reflexivity.
  - reflexivity.
  - exact outputs_possible.
  - reflexivity.
  - reflexivity.
Defined.
